(** * shotgrid-flame-tools: a shallow embedding of the two Flame hooks

    The repository holds two Python scripts that run inside Autodesk Flame:
    [create_playlist_for_review.py] and [create_shot_masters.py].  This file
    embeds both: Python strings, lists and dicts as Rocq data, the calls into
    Flame, ShotGrid and the operating system as a logged state-and-exception
    monad whose answers come from an oracle. *)

From Stdlib Require Import ZArith NArith Ascii String Lia QArith Qcanon.
From stdpp Require Import base tactics option numbers list strings pretty gmap.

Local Open Scope Z_scope.

(** ** Python values *)

Module Py.

(** A Python [str] is a sequence of unicode code points. *)
Definition char := N.
Definition pystr := list char.

(** An ASCII literal of the source, as code points. *)
Definition lit (s : string) : pystr :=
  List.map N_of_ascii (list_ascii_of_string s).
Global Arguments lit _ : simpl never.

(** [ord(c)]. *)
Definition ord (c : char) : Z := Z.of_N c.

(** [str(n)] for an int. *)
Definition str_int (n : Z) : pystr := lit (pretty n).

(** [len(s)]. *)
Definition len {A} (l : list A) : Z := Z.of_nat (length l).

(** Exceptions the scripts can meet. *)
Inductive exn :=
| IndexError
| KeyError
| TypeError
| ValueError
| AttributeError
| FileNotFoundError
| NotADirectoryError
| IsADirectoryError
| HostError (code : Z).

(** Outcome of a computation that may raise. *)
Inductive result (A : Type) :=
| Ok (a : A)
| Raise (e : exn).
Global Arguments Ok {A} a.
Global Arguments Raise {A} e.

Definition rbind {A B} (r : result A) (k : A -> result B) : result B :=
  match r with
  | Ok a => k a
  | Raise e => Raise e
  end.

(** [s.startswith(p)]. *)
Fixpoint startswith (p s : pystr) : bool :=
  match p, s with
  | [], _ => true
  | _ :: _, [] => false
  | a :: p', b :: s' => (a =? b)%N && startswith p' s'
  end.

(** [s.endswith(p)]. *)
Definition endswith (p s : pystr) : bool :=
  startswith (rev p) (rev s).

(** [p in s] for strings: substring search. *)
Fixpoint py_in (p s : pystr) : bool :=
  startswith p s ||
  match s with
  | [] => false
  | _ :: s' => py_in p s'
  end.

(** [s.replace(old, new)] for a non-empty [old]: scan from the left; at a
    position where [old] starts, emit [new] and skip the rest of the match. *)
Fixpoint replace_from (old new s : pystr) (skip : nat) : pystr :=
  match s with
  | [] => []
  | c :: s' =>
      match skip with
      | S k => replace_from old new s' k
      | O =>
          if startswith old s
          then new ++ replace_from old new s' (length old - 1)
          else c :: replace_from old new s' 0
      end
  end.

(** [s.replace(old, new)]; an empty [old] matches before every character and
    at the end. *)
Definition py_replace (old new s : pystr) : pystr :=
  match old with
  | [] => new ++ flat_map (fun c => c :: new) s
  | _ :: _ => replace_from old new s 0
  end.

(** [sep.join(parts)]. *)
Fixpoint py_join (sep : pystr) (parts : list pystr) : pystr :=
  match parts with
  | [] => []
  | [p] => p
  | p :: rest => p ++ sep ++ py_join sep rest
  end.

(** [s.split(c)] for a one-character separator. *)
Fixpoint py_split (c : char) (s : pystr) : list pystr :=
  match s with
  | [] => [[]]
  | a :: s' =>
      if (a =? c)%N then [] :: py_split c s'
      else match py_split c s' with
           | [] => [[a]]
           | w :: ws => (a :: w) :: ws
           end
  end.

(** Python white space, as [str.split()] without arguments sees it
    (the ASCII part). *)
Definition is_space (c : char) : bool :=
  ((9 <=? c) && (c <=? 13) || (28 <=? c) && (c <=? 32))%N.

(** [s.split()]: maximal runs of non-blank characters. *)
Fixpoint split_ws_go (cur : pystr) (s : pystr) : list pystr :=
  match s with
  | [] => match cur with [] => [] | _ => [rev cur] end
  | a :: s' =>
      if is_space a
      then match cur with
           | [] => split_ws_go [] s'
           | _ => rev cur :: split_ws_go [] s'
           end
      else split_ws_go (a :: cur) s'
  end.

Definition py_split_ws (s : pystr) : list pystr := split_ws_go [] s.

(** [l[i]] with Python's negative indices. *)
Definition getitem {A} (l : list A) (i : Z) : result A :=
  let n := len l in
  let j := if i <? 0 then n + i else i in
  if (0 <=? j) && (j <? n)
  then match l !! Z.to_nat j with
       | Some x => Ok x
       | None => Raise IndexError
       end
  else Raise IndexError.

(** [l[i] = x] with Python's negative indices. *)
Definition setitem {A} (l : list A) (i : Z) (x : A) : result (list A) :=
  let n := len l in
  let j := if i <? 0 then n + i else i in
  if (0 <=? j) && (j <? n)
  then Ok (<[Z.to_nat j := x]> l)
  else Raise IndexError.

(** What a file opened with [open(path, 'r')] hands to the program: in text
    mode with universal newlines a carriage return, alone or followed by a
    line feed, is read as one line feed. *)
Fixpoint universal_newlines (s : pystr) : pystr :=
  match s with
  | [] => []
  | c :: s' =>
      if (c =? 13)%N then
        10%N :: match s' with
                | [] => []
                | c' :: s'' =>
                    if (c' =? 10)%N then universal_newlines s''
                    else universal_newlines s'
                end
      else c :: universal_newlines s'
  end.

(** The lines of a text, each with its line feed; a last line may have
    none. *)
Fixpoint readlines_go (cur : pystr) (s : pystr) : list pystr :=
  match s with
  | [] => match cur with [] => [] | _ => [rev cur] end
  | c :: s' =>
      if (c =? 10)%N then rev (c :: cur) :: readlines_go [] s'
      else readlines_go (c :: cur) s'
  end.

(** [f.readlines()] on a file opened for reading in text mode: the newlines
    of the content are translated, then the text is cut into its lines. *)
Definition py_readlines (s : pystr) : list pystr :=
  readlines_go [] (universal_newlines s).

(** A loop over [l] that threads the variables it assigns and may raise. *)
Fixpoint rfold {A S} (body : S -> A -> result S) (l : list A) (acc : S)
  : result S :=
  match l with
  | [] => Ok acc
  | x :: l' => rbind (body acc x) (rfold body l')
  end.

(** [enumerate(l)]. *)
Definition enumerate {A} (l : list A) : list (Z * A) :=
  imap (fun i x => (Z.of_nat i, x)) l.

(** A Python dict keeps its keys in insertion order; assigning to a key that
    is present keeps the key's position. *)
Definition dict (K V : Type) := list (K * V).

Fixpoint dict_set {K V} `{EqDecision K} (k : K) (v : V) (d : dict K V)
  : dict K V :=
  match d with
  | [] => [(k, v)]
  | (k', v') :: d' =>
      if decide (k' = k) then (k, v) :: d' else (k', v') :: dict_set k v d'
  end.

Fixpoint dict_get {K V} `{EqDecision K} (k : K) (d : dict K V) : result V :=
  match d with
  | [] => Raise KeyError
  | (k', v') :: d' => if decide (k' = k) then Ok v' else dict_get k d'
  end.

(** A value that is a string or [None] (a ShotGrid field may be empty). *)
Inductive pyval :=
| PyNone
| PyStr (s : pystr).

(** Truth value of such a value: [None] and [''] are false. *)
Definition truthy (v : pyval) : bool :=
  match v with
  | PyNone => false
  | PyStr [] => false
  | PyStr (_ :: _) => true
  end.

End Py.

Import Py.


(** ** The host: Flame, ShotGrid and the operating system *)

Module Host.

(** Identity of an object the host handed out. *)
Definition handle := nat.

(** An access path into the host's object model, such as
    [sequence.versions[0].tracks[1].segments[0]]. *)
Inductive ref :=
| Obj (h : handle)
| Attr (r : ref) (name : string)
| Item (r : ref) (i : Z).

(** A Python float (finite), as the rational it denotes. *)
Definition pyfloat := Qc.

(** Data exchanged with ShotGrid: JSON-like values. *)
Local Unset Elimination Schemes.
Inductive sgval :=
| VNone
| VBool (b : bool)
| VInt (n : Z)
| VFloat (x : pyfloat)
| VStr (s : pystr)
| VList (l : list sgval)
| VDict (d : list (pystr * sgval)).
Local Set Elimination Schemes.

(** [v[key]] on such a value. *)
Definition sg_get (v : sgval) (key : pystr) : result sgval :=
  match v with
  | VDict d => dict_get key d
  | _ => Raise TypeError
  end.

(** Truth value of such a value. *)
Definition sg_truthy (v : sgval) : bool :=
  match v with
  | VNone => false
  | VBool b => b
  | VInt n => negb (n =? 0)
  | VFloat x => negb (bool_decide (x = 0%Qc))
  | VStr s => negb (bool_decide (s = []))
  | VList l => negb (bool_decide (length l = 0%nat))
  | VDict d => negb (bool_decide (length d = 0%nat))
  end.

(** A string-or-None field read from such a value. *)
Definition sg_text (v : sgval) : result pyval :=
  match v with
  | VNone => Ok PyNone
  | VStr s => Ok (PyStr s)
  | _ => Raise TypeError
  end.

(** Timeline objects, as the scripts read them. *)
Record PySegment := {
  seg_id : handle;
  seg_type : pystr;
  seg_name : pystr;
  seg_shot_name : pystr;
  seg_head : Z;
  seg_source_duration : Z }.

Record PyTrack := { track_segments : list PySegment }.

Record PyVersion := { version_tracks : list PyTrack }.

(** A clip; a sequence is a clip too. *)
Record PyClip := {
  clip_id : handle;
  clip_name : pystr;
  clip_versions : list PyVersion;
  clip_duration : Z;
  clip_ratio : pyfloat;
  clip_frame_rate : pystr;
  clip_width : Z;
  clip_height : Z;
  clip_start_time : Z }.

Record PyReel := {
  reel_id : handle;
  reel_name : pystr;
  reel_clips : list PyClip }.

Record PyFolder := {
  folder_id : handle;
  folder_name : pystr }.

Record PyLibrary := {
  library_id : handle;
  library_name : pystr;
  library_folders : list PyFolder }.

(** What the media panel can pass as a selected entry. *)
Inductive PyObject :=
| ObjReel (r : PyReel)
| ObjSequence (s : PyClip)
| ObjClip (c : PyClip)
| ObjOther (h : handle).

(** [flame.PyTime(n)]. *)
Inductive PyTime := MkPyTime (frame : Z).

(** A value assigned to an attribute of a host object. *)
Inductive attrval :=
| ABool (b : bool)
| AInt (n : Z)
| AStr (s : pystr).

(** The closures handed to [flame.schedule_idle_event], with the variables
    they capture. *)
Inductive callback :=
| ImportOnlineMezzanines
    (online_reel : PyReel) (archive_library : dict pystr PyFolder)
    (online_mezzanines : pystr)
| ImportOfflineMezzanines
    (offline_reel : PyReel) (archive_library : dict pystr PyFolder)
    (offline_mezzanines : pystr) (shot_names : dict pystr pystr).

(** The calls the scripts make into the host. *)
Inductive Call :=
(* sgtk *)
| CCurrentEngine
| CGetAuthenticatedUser
| CCreateSgConnection (auth : handle)
| CResolveEntity (auth : handle)
(* ShotGrid connection *)
| CFindOne (sg : handle) (entity : pystr) (filters : list sgval)
           (fields : option (list pystr))
| CCreate (sg : handle) (entity : pystr) (data : sgval)
| CUpload (sg : handle) (entity : pystr) (id : sgval) (path : pystr)
          (field_name : pystr)
(* flame module *)
| CBrowserShow (path : pystr) (select_directory : bool) (title : pystr)
| CBrowserSelection
| CShowInConsole (msg : pystr) (type : option pystr) (duration : option Z)
| CNewExporter
| CExport (exporter : handle) (source : ref) (preset : pystr) (path : pystr)
| CImportClips (path : pystr) (destination : ref)
| CDelete (target : ref)
| CMove (source : ref) (destination : ref)
| CScheduleIdleEvent (f : callback) (delay : Z)
(* timeline objects *)
| CSetAttr (target : ref) (name : string) (v : attrval)
| CCreateReel (reel_group : ref) (name : pystr)
| CGetClips (reel : ref)
| CMatch (segment : ref) (destination : ref)
         (include_timeline_fx : option bool)
| COpenAsSequence (clip : ref)
| CGetColourSpace (clip : ref)
| CCreateSequence (reel : ref) (name : pystr) (width height bit_depth : Z)
                  (scan_mode frame_rate : pystr) (start_at : Z)
                  (audio_tracks : Z)
| COverwrite (sequence : ref) (clip : ref) (time : option PyTime)
             (track : option ref)
| CCreateTrack (version : ref)
| CCreateEffect (segment : ref) (effect_type : pystr)
| CLoadSetup (effect : ref) (path : pystr)
| CGetLibraries (workspace : ref)
| CCreateLibrary (workspace : ref) (name : pystr)
| CCreateFolder (library : ref) (name : pystr)
(* time and date *)
| CSleep (seconds : Z)
| CToday (format : pystr).

(** The project a Flame engine is linked to. *)
Record Engine := { engine_project : sgval }.

(** What the host can answer. *)
Inductive Ret :=
| RNone
| RObj (h : handle)
| RStr (s : pystr)
| RStrs (l : list pystr)
| REngine (e : Engine)
| RSg (v : sgval)
| RClip (c : PyClip)
| RClips (l : list PyClip)
| RReel (r : PyReel)
| RFolder (f : PyFolder)
| RLibraries (l : list PyLibrary).

(** One call with its outcome. *)
Record Event := { ev_call : Call; ev_out : result Ret }.

(** A node of the file system: a directory, or a text file with its
    content. *)
Inductive fsnode :=
| Dir
| File (content : pystr).

(** The state a script runs in: the calls made so far and the files on
    disk. *)
Record State := {
  st_trace : list Event;
  st_fs : gmap pystr fsnode }.

(** The host answers a call knowing everything that happened before; it may
    raise.  [float_of] is the builtin [float] on strings; [script_path] and
    the two environment variables fix the constants of the modules. *)
Record Oracle := {
  respond : list Event -> Call -> result Ret;
  float_of : pystr -> result pyfloat;
  script_path : pystr;
  env_slate_bg_path : option pystr;
  env_slate_template_path : option pystr }.

(** *** The monad of the scripts: state, log and exceptions *)

Definition M (A : Type) : Type := State -> result A * State.

Definition ret {A} (a : A) : M A := fun s => (Ok a, s).

Definition bind {A B} (m : M A) (k : A -> M B) : M B :=
  fun s =>
    match m s with
    | (Ok a, s') => k a s'
    | (Raise e, s') => (Raise e, s')
    end.

Definition raise {A} (e : exn) : M A := fun s => (Raise e, s).

(** A pure computation that may raise. *)
Definition lift {A} (r : result A) : M A := fun s => (r, s).

(** [try: m except: handler] with a bare [except]. *)
Definition try_except {A} (m : M A) (handler : M A) : M A :=
  fun s =>
    match m s with
    | (Ok a, s') => (Ok a, s')
    | (Raise _, s') => handler s'
    end.

(** [for x in l: body x]. *)
Fixpoint for_each {A} (l : list A) (body : A -> M unit) : M unit :=
  match l with
  | [] => ret tt
  | x :: l' => bind (body x) (fun _ => for_each l' body)
  end.

(** A loop that threads the variables it assigns. *)
Fixpoint for_fold {A S} (l : list A) (body : S -> A -> M S) (acc : S) : M S :=
  match l with
  | [] => ret acc
  | x :: l' => bind (body acc x) (fun acc' => for_fold l' body acc')
  end.

Definition get_fs : M (gmap pystr fsnode) := fun s => (Ok (st_fs s), s).

Definition put_fs (fs : gmap pystr fsnode) : M unit :=
  fun s => (Ok tt, {| st_trace := st_trace s; st_fs := fs |}).

End Host.

Import Host.

Global Instance M_ret : MRet M := @ret.
Global Instance M_bind : MBind M := fun A B k m => bind m k.
Global Instance result_ret : MRet result := @Ok.
Global Instance result_bind : MBind result := fun A B k r => rbind r k.

(** ** Calls shared by the two scripts *)

Section Calls.
Context (o : Oracle).

(** Issue a call: the host answers from the history, and the call and its
    outcome are appended to the log. *)
Definition call (c : Call) : M Ret :=
  fun s =>
    let out := respond o (st_trace s) c in
    (out, {| st_trace := st_trace s ++ [{| ev_call := c; ev_out := out |}];
             st_fs := st_fs s |}).

(** A call whose answer is not used. *)
Definition call_ (c : Call) : M unit := call c;; mret tt.

(** Using an answer at a type it does not have raises. *)
Definition call_obj (c : Call) : M handle :=
  r ← call c; match r with RObj h => mret h | _ => raise TypeError end.

Definition call_sg (c : Call) : M sgval :=
  r ← call c; match r with RSg v => mret v | _ => raise TypeError end.

Definition call_clip (c : Call) : M PyClip :=
  r ← call c; match r with RClip x => mret x | _ => raise TypeError end.

Definition call_clips (c : Call) : M (list PyClip) :=
  r ← call c; match r with RClips l => mret l | _ => raise TypeError end.

Definition call_reel (c : Call) : M PyReel :=
  r ← call c; match r with RReel x => mret x | _ => raise TypeError end.

Definition call_folder (c : Call) : M PyFolder :=
  r ← call c; match r with RFolder x => mret x | _ => raise TypeError end.

Definition call_str (c : Call) : M pystr :=
  r ← call c; match r with RStr x => mret x | _ => raise TypeError end.

Definition call_libraries (c : Call) : M (list PyLibrary) :=
  r ← call c; match r with RLibraries x => mret x | _ => raise TypeError end.

(** [sgtk.platform.current_engine()]: an engine or [None]. *)
Definition current_engine : M (option Engine) :=
  r ← call CCurrentEngine;
  match r with
  | RNone => mret None
  | REngine e => mret (Some e)
  | _ => raise TypeError
  end.

(** [flame.browser.selection]. *)
Definition browser_selection : M (list pystr) :=
  r ← call CBrowserSelection;
  match r with RStrs l => mret l | _ => raise TypeError end.

(** [flame.messages.show_in_console(msg, type = ..., duration = ...)]. *)
Definition show_in_console (msg : pystr) (type : option pystr)
    (duration : option Z) : M unit :=
  call_ (CShowInConsole msg type duration).

End Calls.

(** [os.path.join(a, b)]. *)
Definition path_join (a b : pystr) : pystr :=
  if startswith (lit "/") b then b
  else if bool_decide (a = []) || endswith (lit "/") a then a ++ b
  else a ++ lit "/" ++ b.

(** Attribute access on a selected entry; an attribute the object does not
    have raises. *)
Definition obj_ref (x : PyObject) : ref :=
  match x with
  | ObjReel r => Obj (reel_id r)
  | ObjSequence s => Obj (clip_id s)
  | ObjClip c => Obj (clip_id c)
  | ObjOther h => Obj h
  end.

Definition obj_name (x : PyObject) : result pystr :=
  match x with
  | ObjReel r => Ok (reel_name r)
  | ObjSequence s => Ok (clip_name s)
  | ObjClip c => Ok (clip_name c)
  | ObjOther _ => Raise AttributeError
  end.

Definition obj_clips (x : PyObject) : result (list PyClip) :=
  match x with
  | ObjReel r => Ok (reel_clips r)
  | _ => Raise AttributeError
  end.

(** [isinstance(x, flame.PyReel)]. *)
Definition is_reel (x : PyObject) : bool :=
  match x with ObjReel _ => true | _ => false end.

(** [isinstance(x, flame.PySequence)]. *)
Definition is_sequence (x : PyObject) : bool :=
  match x with ObjSequence _ => true | _ => false end.

(** A value used as a [str]. *)
Definition sg_str (v : sgval) : result pystr :=
  match v with VStr s => Ok s | _ => Raise TypeError end.

(** An entry the hook [get_media_panel_custom_ui_actions] puts into the
    menu of the media panel: its name, the test that shows it for a
    selection and the function it runs on one. *)
Record Action := {
  action_name : pystr;
  isVisible : list PyObject -> result bool;
  execute : list PyObject -> M unit;
  minimumVersion : option pystr }.

Record ActionGroup := {
  group_name : pystr;
  actions : list Action }.

(** ** create_playlist_for_review.py *)

Module Playlist.
Section Script.
Context (o : Oracle).

Definition SCRIPT_PATH : pystr := script_path o.

Definition H264_PRESET : pystr :=
  path_join (path_join SCRIPT_PATH (lit "export_presets"))
            (lit "Shotgrid Version Creation.xml").

Definition DNX36_PRESET : pystr :=
  path_join (path_join SCRIPT_PATH (lit "export_presets"))
            (lit "Editorial DNx36.xml").

(** [{'type': 'Project', 'id': project['id']}] and its like. *)
Definition entity_link (type : string) (id : sgval) : sgval :=
  VDict [(lit "type", VStr (lit type)); (lit "id", id)].

(** [clip.versions[0].tracks[0].segments[0].shot_name.get_value()]. *)
Definition first_segment_shot_name (clip : PyClip) : result pystr :=
  v ← getitem (clip_versions clip) 0;
  t ← getitem (version_tracks v) 0;
  sg ← getitem (track_segments t) 0;
  mret (seg_shot_name sg).

(** The body of the loop of [create_versions] for one clip. *)
Definition create_version (shotgrid : handle) (reel : PyObject)
    (project : sgval) (path : pystr) (sg_authorization : handle)
    (versions : list sgval) (clip : PyClip) : M (list sgval) :=
  shot_name ← lift (first_segment_shot_name clip);
  project_id ← lift (sg_get project (lit "id"));
  shot ← call_sg o (CFindOne shotgrid (lit "Shot")
            [VList [VStr (lit "code"); VStr (lit "is"); VStr shot_name];
             VList [VStr (lit "project"); VStr (lit "is");
                    entity_link "Project" project_id]] None);
  project_id ← lift (sg_get project (lit "id"));
  shot_id ← lift (sg_get shot (lit "id"));
  let filters :=
    [VList [VStr (lit "project"); VStr (lit "is");
            entity_link "Project" project_id];
     VList [VStr (lit "entity"); VStr (lit "is"); entity_link "Shot" shot_id];
     VList [VStr (lit "content"); VStr (lit "is"); VStr (lit "Comp")]] in
  task ← call_sg o (CFindOne shotgrid (lit "Task") filters None);
  internal_version ← call_sg o (CFindOne shotgrid (lit "Version")
            [VList [VStr (lit "code"); VStr (lit "is"); VStr (clip_name clip)]]
            (Some [lit "description"]));
  shot_id ← lift (sg_get shot (lit "id"));
  task_id ← lift (sg_get task (lit "id"));
  project_id ← lift (sg_get project (lit "id"));
  description ← lift (sg_get internal_version (lit "description"));
  user ← call_sg o (CResolveEntity sg_authorization);
  rate_text ← lift (getitem (py_split_ws (clip_frame_rate clip)) 0);
  rate ← lift (float_of o rate_text);
  reel_name ← lift (obj_name reel);
  let version_data := VDict
    [(lit "code", VStr (clip_name clip));
     (lit "entity", entity_link "Shot" shot_id);
     (lit "sg_task", entity_link "Task" task_id);
     (lit "project", entity_link "Project" project_id);
     (lit "description", description);
     (lit "user", user);
     (lit "sg_status_list", VStr (lit "rev"));
     (lit "sg_first_frame", VInt 1001);
     (lit "sg_last_frame", VInt (clip_duration clip + 999));
     (lit "frame_count", VInt (clip_duration clip - 1));
     (lit "sg_movie_aspect_ratio", VFloat (clip_ratio clip));
     (lit "sg_uploaded_movie_frame_rate", VFloat rate);
     (lit "sg_movie_has_slate", VBool true);
     (lit "sg_path_to_movie",
      VStr (path_join (path_join (path_join path reel_name) (lit "h264"))
                      (clip_name clip ++ lit ".mov")))] in
  version ← call_sg o (CCreate shotgrid (lit "Version") version_data);
  if sg_truthy version then
    show_in_console o
      (lit "Client Delivery: Shotgrid review version created for "
       ++ clip_name clip) None None;;
    mret (versions ++ [version])
  else mret versions.

Definition create_versions (reel : PyObject) (project : sgval) (path : pystr)
    (sg_authorization : handle) : M (list sgval) :=
  shotgrid ← call_obj o (CCreateSgConnection sg_authorization);
  clips ← lift (obj_clips reel);
  for_fold clips
    (create_version shotgrid reel project path sg_authorization) [].

(** The body of the loop of [send_h264s_to_shotgrid] for one version. *)
Definition send_h264 (shotgrid : handle) (generic_path : pystr)
    (version : sgval) : M unit :=
  code ← lift (sg_get version (lit "code") ≫= sg_str);
  let h264_path := py_replace (lit "VERSION_NAME") code generic_path in
  try_except
    (id ← lift (sg_get version (lit "id"));
     call_ o (CUpload shotgrid (lit "Version") id h264_path
                (lit "sg_uploaded_movie")))
    (call_ o (CSleep 1);;
     id ← lift (sg_get version (lit "id"));
     call_ o (CUpload shotgrid (lit "Version") id h264_path
                (lit "sg_uploaded_movie")));;
  code ← lift (sg_get version (lit "code") ≫= sg_str);
  show_in_console o (lit "Client Delivery: Movie uploaded to version " ++ code)
    None None.

Definition send_h264s_to_shotgrid (reel : PyObject) (versions : list sgval)
    (path : pystr) (sg_authorization : handle) : M unit :=
  exporter ← call_obj o CNewExporter;
  call_ o (CSetAttr (Obj exporter) "foreground" (ABool true));;
  call_ o (CExport exporter (obj_ref reel) H264_PRESET path);;
  shotgrid ← call_obj o (CCreateSgConnection sg_authorization);
  reel_name ← lift (obj_name reel);
  let generic_path :=
    path_join (path_join (path_join path reel_name) (lit "h264"))
              (lit "VERSION_NAME.mov") in
  for_each versions (send_h264 shotgrid generic_path).

Definition export_editorial_files (reel : PyObject) (path : pystr) : M unit :=
  exporter ← call_obj o CNewExporter;
  call_ o (CSetAttr (Obj exporter) "foreground" (ABool true));;
  call_ o (CExport exporter (obj_ref reel) DNX36_PRESET path);;
  show_in_console o (lit "Client Delivery: DNx36 Check Files Exported")
    None None.

Definition create_playlist (name : pystr) (versions : list sgval)
    (project : sgval) (sg_authorization : handle) : M unit :=
  shotgrid ← call_obj o (CCreateSgConnection sg_authorization);
  project_id ← lift (sg_get project (lit "id"));
  version_links ← lift (mapM (fun version =>
      id ← sg_get version (lit "id"); mret (entity_link "Version" id))
    versions);
  let playlist_data := VDict
    [(lit "code", VStr name);
     (lit "project", entity_link "Project" project_id);
     (lit "versions", VList version_links)] in
  call_ o (CCreate shotgrid (lit "Playlist") playlist_data);;
  show_in_console o
    (lit "Client Delivery: Playlist " ++ [34%N] ++ name ++ [34%N]
     ++ lit " created") None None.

Definition create_client_delivery (selection : list PyObject) : M unit :=
  mezzanines_reel ← lift (getitem selection 0);
  call_ o (CBrowserShow (lit "/data") true (lit "Select Destination"));;
  chosen ← browser_selection o;
  export_path ← lift (getitem chosen 0);
  if negb (truthy (PyStr export_path)) then
    show_in_console o (lit "Playlist export cancelled: no path selected")
      (Some (lit "error")) (Some 5)
  else
    flame_engine ← current_engine o;
    match flame_engine with
    | None =>
        show_in_console o
          (lit "Playlist export cancelled: project must be linked to ShotGrid")
          (Some (lit "error")) (Some 5)
    | Some engine =>
        sg_auth ← call_obj o CGetAuthenticatedUser;
        let project := engine_project engine in
        export_editorial_files mezzanines_reel export_path;;
        sg_versions ← create_versions mezzanines_reel project export_path
                        sg_auth;
        send_h264s_to_shotgrid mezzanines_reel sg_versions export_path
          sg_auth;;
        name ← lift (obj_name mezzanines_reel);
        create_playlist name sg_versions project sg_auth
    end.

Definition scope_reel (selection : list PyObject) : result bool :=
  if 1 <? len selection then Ok false
  else
    first ← getitem selection 0;
    if negb (is_reel first) then Ok false
    else
      name ← obj_name first;
      if py_in (lit "comp_submissions") name then Ok true else Ok false.

Definition get_media_panel_custom_ui_actions : list ActionGroup :=
  [{| group_name := lit "MTI";
      actions :=
        [{| action_name := lit "Create Client Delivery Playlist";
            isVisible := scope_reel;
            execute := create_client_delivery;
            minimumVersion := None |}] |}].

End Script.
End Playlist.

(** ** create_shot_masters.py *)

Module Masters.

(** [sequence.versions[v].tracks[t]] and the segments below it. *)
Definition track_ref (sequence : ref) (v t : Z) : ref :=
  Item (Attr (Item (Attr sequence "versions") v) "tracks") t.

Definition segment_ref (sequence : ref) (v t s : Z) : ref :=
  Item (Attr (track_ref sequence v t) "segments") s.

(** [os.path.exists(p)]. *)
Definition path_exists (fs : gmap pystr fsnode) (p : pystr) : bool :=
  bool_decide (is_Some (fs !! p)).

(** [q] is [p] or lies below it. *)
Definition under (p q : pystr) : bool :=
  bool_decide (q = p) || startswith (p ++ lit "/") q.

(** [shutil.rmtree(p)]: a directory goes with everything below it. *)
Definition rmtree (p : pystr) (fs : gmap pystr fsnode)
  : result (gmap pystr fsnode) :=
  match fs !! p with
  | Some Dir => Ok (filter (fun kv => under p kv.1 = false) fs)
  | Some (File _) => Raise NotADirectoryError
  | None => Raise FileNotFoundError
  end.

(** The lines 277-282 of [generate_slate] are pure; they are embedded as
    [replace_token], [update_setup] and [fill_slate_setup] below. *)

Definition ascii_convert (text_to_convert : pystr) : pystr :=
  let text_to_convert :=
    py_replace [8221%N] [34%N] (py_replace [8220%N] [34%N] text_to_convert) in
  let ascii_list :=
    fold_left (fun ascii_list char =>
                 let ascii_num := ord char in
                 if negb (ascii_num =? 194) then ascii_list ++ [ascii_num]
                 else ascii_list)
              text_to_convert [] in
  py_join (lit " ") (List.map str_int ascii_list).

Definition replace_token (token : pystr) (value : pyval)
    (text_lines : dict Z pystr) : dict Z pystr :=
  let value := if negb (truthy value) then lit " "
               else match value with PyStr s => s | PyNone => [] end in
  let char_count := len value in
  let pattern := ascii_convert token in
  let pattern_replacement := ascii_convert value in
  fold_left (fun new_lines '(index, line) =>
               if py_in pattern line then
                 dict_set (index - 1)
                   (lit "TextLength " ++ str_int char_count ++ [10%N])
                   (dict_set index
                      (py_replace pattern pattern_replacement line) new_lines)
               else new_lines)
            text_lines [].

Definition update_setup (setup : list pystr) (new_lines : dict Z pystr)
  : result (list pystr) :=
  rfold (fun setup '(index, value) => setitem setup index value)
        new_lines setup.

(** [text_lines] of [generate_slate]. *)
Definition text_lines_of (slate_setup : list pystr) : dict Z pystr :=
  filter (fun '(_, line) => startswith (lit "Text") line = true)
         (enumerate slate_setup).

(** The token loop of [generate_slate]. *)
Definition fill_slate_setup (slate_setup : list pystr)
    (slate_info : dict pystr pyval) : result (list pystr) :=
  let text_lines := text_lines_of slate_setup in
  rfold (fun slate_setup '(token, value) =>
           let new_lines := replace_token token value text_lines in
           update_setup slate_setup new_lines)
        slate_info slate_setup.

(** [obj.versions] of a selected entry. *)
Definition obj_versions (x : PyObject) : result (list PyVersion) :=
  match x with
  | ObjSequence s => Ok (clip_versions s)
  | ObjClip c => Ok (clip_versions c)
  | _ => Raise AttributeError
  end.

Definition collect_sequence_segments (sequence : PyObject)
  : result (list PySegment) :=
  versions ← obj_versions sequence;
  let segments :=
    version ← versions; track ← version_tracks version;
    track_segments track in
  mret (filter (fun segment => seg_type segment = lit "Video Segment")
               segments).

Definition scope_sequence (selection : list PyObject) : result bool :=
  if negb (len selection =? 1) then Ok false
  else
    first ← getitem selection 0;
    if negb (is_sequence first) then Ok false
    else
      name ← obj_name first;
      if negb (endswith (lit "comp_submissions") name) then Ok false
      else Ok true.

(** [f'{v}'] for a string-or-None value. *)
Definition format_val (v : pyval) : pystr :=
  match v with
  | PyNone => lit "None"
  | PyStr s => s
  end.

Section Script.
Context (o : Oracle).

Definition SCRIPT_PATH : pystr := script_path o.

Definition TEMP_FOLDER : pystr := path_join SCRIPT_PATH (lit "temp").

Definition SLATE_BG_PATH : pystr :=
  default
    (path_join (path_join SCRIPT_PATH (lit "slate_bg_samples"))
               (lit "mti_slate_bg_RESOLUTION.dpx"))
    (env_slate_bg_path o).

Definition SLATE_TEMPLATE_PATH : pystr :=
  default
    (path_join (path_join (path_join SCRIPT_PATH (lit "setups"))
                          (lit "slate_examples"))
               (lit "slate_template_RESOLUTION.ttg"))
    (env_slate_template_path o).

Definition MEZZANINE_PRESET : pystr :=
  path_join (path_join SCRIPT_PATH (lit "export_presets"))
            (lit "Deliverable Mezzanines.xml").

Definition THUMBNAIL_SETUP : pystr :=
  path_join (path_join SCRIPT_PATH (lit "setups"))
            (lit "timeline_thumbnail.action").

Definition delete_temp_folder : M unit :=
  fs ← get_fs;
  if path_exists fs TEMP_FOLDER then
    fs' ← lift (rmtree TEMP_FOLDER fs);
    put_fs fs'
  else mret tt.

Definition write_slate_ttg (setup_lines : list pystr) (file_name : pystr)
  : M pystr :=
  fs ← get_fs;
  (if negb (path_exists fs TEMP_FOLDER)
   then put_fs (<[TEMP_FOLDER := Dir]> fs)
   else mret tt);;
  let ttg_path := path_join TEMP_FOLDER (file_name ++ lit ".ttg") in
  fs ← get_fs;
  put_fs (<[ttg_path := File (concat setup_lines)]> fs);;
  mret ttg_path.

Definition load_slate_setup (resolution : pystr) : M (list pystr) :=
  fs ← get_fs;
  match fs !! py_replace (lit "RESOLUTION") resolution SLATE_TEMPLATE_PATH with
  | Some (File content) => mret (py_readlines content)
  | Some Dir => raise IsADirectoryError
  | None => raise FileNotFoundError
  end.

Definition generate_slate (shot_sequence : PyClip)
    (slate_info : dict pystr pyval) : M handle :=
  resolution ← lift (v ← dict_get (lit "<RESOLUTION>") slate_info;
                     match v with PyStr s => Ok s | PyNone => Raise AttributeError end);
  slate_setup ← load_slate_setup resolution;
  slate_setup ← lift (fill_slate_setup slate_setup slate_info);
  code ← lift (dict_get (lit "<CODE>") slate_info);
  new_setup_path ← write_slate_ttg slate_setup
                     (format_val code ++ lit "-" ++ resolution);
  slate ← call_obj o (CCreateEffect
             (segment_ref (Obj (clip_id shot_sequence)) 0 0 0) (lit "Text"));
  call_ o (CLoadSetup (Obj slate) new_setup_path);;
  mret slate.

Definition get_slate_info (shot : PySegment) (shotgrid : handle)
  : M (dict pystr pyval) :=
  let version_name := seg_name shot in
  shot_entry ← call_sg o (CFindOne shotgrid (lit "Shot")
      [VList [VStr (lit "code"); VStr (lit "is"); VStr (seg_shot_name shot)]]
      (Some [lit "description"]));
  version_entry ← call_sg o (CFindOne shotgrid (lit "Version")
      [VList [VStr (lit "code"); VStr (lit "is"); VStr version_name]]
      (Some [lit "user"; lit "description"]));
  let version_components := py_split 95%N version_name in
  let slate_info : dict pystr pyval := [] in
  let slate_info := dict_set (lit "<CODE>") (PyStr (seg_shot_name shot))
                      slate_info in
  description ← lift (sg_get shot_entry (lit "description") ≫= sg_text);
  let slate_info := dict_set (lit "<DESCRIPTION>") description slate_info in
  type ← lift (getitem version_components (-2));
  let slate_info := dict_set (lit "<TYPE>") (PyStr type) slate_info in
  version ← lift (getitem version_components (-1));
  let slate_info := dict_set (lit "<VERSION>") (PyStr version) slate_info in
  today ← call_str o (CToday (lit "%-m/%-d/%Y"));
  let slate_info := dict_set (lit "<CURRENT_DATE>") (PyStr today) slate_info in
  artist ← lift (user ← sg_get version_entry (lit "user");
                 sg_get user (lit "name") ≫= sg_text);
  let slate_info := dict_set (lit "<ARTIST>") artist slate_info in
  let slate_info := dict_set (lit "<DURATION>")
      (PyStr (str_int (seg_source_duration shot) ++ lit " frames"))
      slate_info in
  let slate_info := dict_set (lit "<HANDLES>")
      (PyStr (str_int (seg_head shot) ++ lit " frames")) slate_info in
  let slate_info := dict_set (lit "<FILE_NAME>")
      (PyStr (version_name ++ lit ".mov")) slate_info in
  notes ← lift (sg_get version_entry (lit "description") ≫= sg_text);
  let slate_info := dict_set (lit "<NOTES>") notes slate_info in
  mret slate_info.

Definition extract_thumbnail (shot : PySegment) (destination_reel : PyReel)
    (effects : bool) : M PyClip :=
  thumb_clip ← call_clip o (CMatch (Obj (seg_id shot))
                  (Obj (reel_id destination_reel)) (Some effects));
  call_ o (CSetAttr (Obj (clip_id thumb_clip)) "in_mark"
             (AInt (seg_head shot + 1)));;
  call_ o (CSetAttr (Obj (clip_id thumb_clip)) "out_mark"
             (AInt (seg_head shot + 2)));;
  mret thumb_clip.

Definition create_offline_sequence (shot : PySegment) (sequence_reel : PyReel)
    (temp_reel : PyReel) : M PyClip :=
  match_clip ← call_clip o (CMatch (Obj (seg_id shot))
                  (Obj (reel_id temp_reel)) (Some true));
  offline_sequence ← call_clip o (CCreateSequence (Obj (reel_id sequence_reel))
      (clip_name match_clip) 1920 1080 16 (lit "P") (lit "23.976 fps")
      (clip_start_time match_clip) 0);
  call_ o (COverwrite (Obj (clip_id offline_sequence))
             (Obj (clip_id match_clip)) None None);;
  mret offline_sequence.

Definition insert_slate_frame (sequence : PyClip) (shot : PySegment)
    (bg : PyClip) (thumbnail_clip : PyClip) : M PyClip :=
  let seq := Obj (clip_id sequence) in
  call_ o (COverwrite seq (Obj (clip_id bg)) (Some (MkPyTime 0))
             (Some (track_ref seq 0 0)));;
  new_track ← call_obj o (CCreateTrack (Item (Attr seq "versions") 0));
  call_ o (COverwrite seq (Obj (clip_id thumbnail_clip))
             (Some (MkPyTime (1 - seg_head shot))) (Some (Obj new_track)));;
  let thumb_segment := segment_ref seq 0 1 0 in
  thumbnail ← call_obj o (CCreateEffect thumb_segment (lit "Action"));
  call_ o (CSetAttr (Item (Attr thumb_segment "effects") 0) "bypass"
             (ABool false));;
  call_ o (CLoadSetup (Obj thumbnail) THUMBNAIL_SETUP);;
  mret sequence.

Definition export_mezzanines (reel : PyReel) (path : pystr) : M pystr :=
  exporter ← call_obj o CNewExporter;
  call_ o (CSetAttr (Obj exporter) "foreground" (ABool true));;
  call_ o (CExport exporter (Obj (reel_id reel)) MEZZANINE_PRESET path);;
  mret (path_join path (reel_name reel)).

Definition get_sequences_folders (reel_group : ref)
  : M (dict pystr PyFolder) :=
  let workspace := Attr (Attr reel_group "parent") "parent" in
  libraries ← call_libraries o (CGetLibraries workspace);
  match List.find (fun library =>
                     py_in (lit "Shot Sequences") (library_name library))
                  libraries with
  | Some library =>
      mret (fold_left (fun d folder => dict_set (folder_name folder) folder d)
                      (library_folders library) [])
  | None =>
      sequences_library ← call_obj o
        (CCreateLibrary (Attr (Attr reel_group "parent") "parent")
           (lit "Shot Sequences"));
      online ← call_folder o
        (CCreateFolder (Obj sequences_library) (lit "online"));
      offline ← call_folder o
        (CCreateFolder (Obj sequences_library) (lit "offline"));
      mret [(lit "online", online); (lit "offline", offline)]
  end.

(** What the loop of [build_shot_masters_from_sequence] reads and assigns. *)
Record LoopVars := {
  resolutions : list pystr;
  shot_names : dict pystr pystr }.

(** The body of that loop for one shot. *)
Definition build_shot_master (engine : Engine) (shotgrid : handle)
    (temp_reel offline_reel online_reel : PyReel) (offline_bg : PyClip)
    (vars : LoopVars) (shot : PySegment) : M LoopVars :=
  let shot_names :=
    dict_set (seg_name shot) (seg_shot_name shot) (shot_names vars) in
  online_clip ← call_clip o (CMatch (Obj (seg_id shot))
                   (Obj (reel_id online_reel)) None);
  online_master ← call_clip o (COpenAsSequence (Obj (clip_id online_clip)));
  offline_master ← create_offline_sequence shot offline_reel temp_reel;
  let resolution := str_int (clip_width online_master) ++ lit "x"
                    ++ str_int (clip_height online_master) in
  '(online_bg, resolutions) ←
    (if negb (bool_decide (resolution ∈ resolutions vars)) then
       imported ← call_clips o
         (CImportClips (py_replace (lit "RESOLUTION") resolution SLATE_BG_PATH)
            (Obj (reel_id temp_reel)));
       online_bg ← lift (getitem imported 0);
       mret (online_bg, resolutions vars ++ [resolution])
     else
       clips ← call_clips o (CGetClips (Obj (reel_id temp_reel)));
       online_bg ← lift (getitem
         (filter (fun clip => endswith resolution (clip_name clip) = true)
                 clips) 0);
       mret (online_bg, resolutions vars));
  online_thumbnail_clip ← extract_thumbnail shot temp_reel false;
  offline_thumbnail_clip ← extract_thumbnail shot temp_reel true;
  insert_slate_frame online_master shot online_bg online_thumbnail_clip;;
  insert_slate_frame offline_master shot offline_bg offline_thumbnail_clip;;
  slate_info ← get_slate_info shot shotgrid;
  project_name ← lift (sg_get (engine_project engine) (lit "name")
                       ≫= sg_text);
  let slate_info := dict_set (lit "<PROJECT>") project_name slate_info in
  let slate_info := dict_set (lit "<RESOLUTION>") (PyStr resolution)
                      slate_info in
  colour_space ← call_str o (CGetColourSpace (Obj (clip_id online_master)));
  let slate_info := dict_set (lit "<COLOR_SPACE>") (PyStr colour_space)
                      slate_info in
  generate_slate online_master slate_info;;
  let slate_info := dict_set (lit "<RESOLUTION>") (PyStr (lit "1920x1080"))
                      slate_info in
  let slate_info := dict_set (lit "<COLOR_SPACE>") (PyStr (lit "Rec.709"))
                      slate_info in
  generate_slate offline_master slate_info;;
  mret {| resolutions := resolutions; shot_names := shot_names |}.

Definition build_shot_masters_from_sequence (selection : list PyObject)
  : M unit :=
  flame_engine ← current_engine o;
  match flame_engine with
  | None => mret tt
  | Some engine =>
      sg_auth ← call_obj o CGetAuthenticatedUser;
      shotgrid ← call_obj o (CCreateSgConnection sg_auth);
      sequence ← lift (getitem selection 0);
      let reel_group := Attr (Attr (obj_ref sequence) "parent") "parent" in
      temp_reel ← call_reel o (CCreateReel reel_group (lit "slate elements"));
      submission_name ← lift (obj_name sequence);
      offline_reel ← call_reel o (CCreateReel reel_group submission_name);
      online_reel ← call_reel o (CCreateReel reel_group
          (py_replace (lit "comp_submissions") (lit "mti") submission_name));
      imported ← call_clips o
        (CImportClips
           (py_replace (lit "RESOLUTION") (lit "1920x1080") SLATE_BG_PATH)
           (Obj (reel_id temp_reel)));
      offline_bg ← lift (getitem imported 0);
      shots ← lift (collect_sequence_segments sequence);
      vars ← for_fold shots
        (build_shot_master engine shotgrid temp_reel offline_reel online_reel
           offline_bg)
        {| resolutions := []; shot_names := [] |};
      call_ o (CDelete (Obj (reel_id temp_reel)));;
      delete_temp_folder;;
      archive_library ← get_sequences_folders reel_group;
      call_ o (CBrowserShow (lit "/data") true (lit "Select Destination"));;
      chosen ← browser_selection o;
      mezzanines_path ← lift (getitem chosen 0);
      if negb (truthy (PyStr mezzanines_path)) then
        show_in_console o (lit "Mezzanine export cancelled")
          (Some (lit "error")) (Some 5)
      else
        online_mezzanines ← export_mezzanines online_reel mezzanines_path;
        offline_mezzanines ← export_mezzanines offline_reel mezzanines_path;
        call_ o (CScheduleIdleEvent
                   (ImportOnlineMezzanines online_reel archive_library
                      online_mezzanines) 1);;
        call_ o (CScheduleIdleEvent
                   (ImportOfflineMezzanines offline_reel archive_library
                      offline_mezzanines (shot_names vars)) 1)
  end.

(** The bodies of the two scheduled closures. *)
Definition run_callback (f : callback) : M unit :=
  match f with
  | ImportOnlineMezzanines online_reel archive_library online_mezzanines =>
      folder ← lift (dict_get (lit "online") archive_library);
      call_ o (CMove (Attr (Obj (reel_id online_reel)) "sequences")
                 (Obj (folder_id folder)));;
      call_ o (CImportClips online_mezzanines (Obj (reel_id online_reel)))
  | ImportOfflineMezzanines offline_reel archive_library offline_mezzanines
      shot_names =>
      folder ← lift (dict_get (lit "offline") archive_library);
      call_ o (CMove (Attr (Obj (reel_id offline_reel)) "sequences")
                 (Obj (folder_id folder)));;
      call_ o (CImportClips offline_mezzanines (Obj (reel_id offline_reel)));;
      clips ← call_clips o (CGetClips (Obj (reel_id offline_reel)));
      for_each clips (fun clip =>
        shot_name ← lift (dict_get (clip_name clip) shot_names);
        call_ o (CSetAttr (segment_ref (Obj (clip_id clip)) 0 0 0)
                   "shot_name" (AStr shot_name)))
  end.

Definition get_media_panel_custom_ui_actions : list ActionGroup :=
  [{| group_name := lit "MTI";
      actions :=
        [{| action_name := lit "Create Shot Masters";
            isVisible := scope_sequence;
            execute := build_shot_masters_from_sequence;
            minimumVersion := Some (lit "2023") |}] |}].

End Script.
End Masters.

(** * Properties *)

(** ** Reasoning about runs: what a computation appends to the log *)

Section Runs.
Context (o : Oracle).

(** [spec m R]: from every state, [m] extends the log by some events [evs]
    and relates its outcome to them by [R]. *)
Definition spec {A} (m : M A) (R : result A -> list Event -> Prop) : Prop :=
  forall s, exists evs,
    st_trace (m s).2 = st_trace s ++ evs /\ R (m s).1 evs.

Lemma spec_weaken {A} (m : M A) (R R' : result A -> list Event -> Prop) :
  spec m R -> (forall r evs, R r evs -> R' r evs) -> spec m R'.
Proof.
  intros Hm Himp s. destruct (Hm s) as (evs & Ht & HR).
  exists evs. split; [exact Ht | apply Himp, HR].
Qed.

Lemma spec_ret {A} (a : A) :
  spec (mret a) (fun r evs => r = Ok a /\ evs = []).
Proof. intros s. exists []. rewrite app_nil_r. done. Qed.

Lemma spec_lift {A} (r0 : result A) :
  spec (lift r0) (fun r evs => r = r0 /\ evs = []).
Proof. intros s. exists []. rewrite app_nil_r. done. Qed.

Lemma spec_raise {A} (e : exn) :
  spec (raise e : M A) (fun r evs => r = Raise e /\ evs = []).
Proof. intros s. exists []. rewrite app_nil_r. done. Qed.

Lemma spec_get_fs :
  spec get_fs (fun r evs => (exists fs, r = Ok fs) /\ evs = []).
Proof. intros s. exists []. rewrite app_nil_r. cbn. eauto. Qed.

Lemma spec_put_fs fs :
  spec (put_fs fs) (fun r evs => r = Ok tt /\ evs = []).
Proof. intros s. exists []. rewrite app_nil_r. done. Qed.

Lemma spec_call (c : Call) :
  spec (call o c) (fun r evs => evs = [{| ev_call := c; ev_out := r |}]).
Proof. intros s. eexists. cbn. split; reflexivity. Qed.

Lemma spec_bind {A B} (m : M A) (k : A -> M B) R1 R2 :
  spec m R1 -> (forall a, spec (k a) (R2 a)) ->
  spec (m ≫= k)
    (fun r evs =>
       (exists e, r = Raise e /\ R1 (Raise e) evs) \/
       (exists a evs1 evs2,
           evs = evs1 ++ evs2 /\ R1 (Ok a) evs1 /\ R2 a r evs2)).
Proof.
  intros Hm Hk s. destruct (Hm s) as (evs1 & Ht1 & HR1).
  unfold mbind, M_bind, bind.
  destruct (m s) as [[a|e] s1] eqn:Ems; cbn in *.
  - destruct (Hk a s1) as (evs2 & Ht2 & HR2).
    exists (evs1 ++ evs2). split.
    + rewrite Ht2, Ht1, app_assoc. reflexivity.
    + right. exists a, evs1, evs2. done.
  - exists evs1. split; [exact Ht1 | left; eauto].
Qed.

Lemma spec_try_except {A} (m handler : M A) R1 R2 :
  spec m R1 -> spec handler R2 ->
  spec (try_except m handler)
    (fun r evs =>
       (exists a, r = Ok a /\ R1 (Ok a) evs) \/
       (exists e evs1 evs2,
           evs = evs1 ++ evs2 /\ R1 (Raise e) evs1 /\ R2 r evs2)).
Proof.
  intros Hm Hh s. destruct (Hm s) as (evs1 & Ht1 & HR1).
  unfold try_except.
  destruct (m s) as [[a|e] s1] eqn:Ems; cbn in *.
  - exists evs1. split; [exact Ht1 | left; eauto].
  - destruct (Hh s1) as (evs2 & Ht2 & HR2).
    exists (evs1 ++ evs2). split.
    + rewrite Ht2, Ht1, app_assoc. reflexivity.
    + right. exists e, evs1, evs2. done.
Qed.

(** *** Properties of every single event *)

(** [every Q m]: each event [m] logs satisfies [Q]. *)
Definition every {A} (Q : Event -> Prop) (m : M A) : Prop :=
  spec m (fun _ evs => Forall Q evs).

Lemma every_ret {A} Q (a : A) : every Q (mret a).
Proof.
  eapply spec_weaken; [apply spec_ret |].
  intros r evs [_ ->]. constructor.
Qed.

Lemma every_lift {A} Q (r0 : result A) : every Q (lift r0).
Proof.
  eapply spec_weaken; [apply spec_lift |].
  intros r evs [_ ->]. constructor.
Qed.

Lemma every_raise {A} Q (e : exn) : every Q (raise e : M A).
Proof.
  eapply spec_weaken; [apply spec_raise |].
  intros r evs [_ ->]. constructor.
Qed.

Lemma every_get_fs Q : every Q get_fs.
Proof.
  eapply spec_weaken; [apply spec_get_fs |].
  intros r evs [_ ->]. constructor.
Qed.

Lemma every_put_fs Q fs : every Q (put_fs fs).
Proof.
  eapply spec_weaken; [apply spec_put_fs |].
  intros r evs [_ ->]. constructor.
Qed.

Lemma every_call Q (c : Call) :
  (forall out, Q {| ev_call := c; ev_out := out |}) -> every Q (call o c).
Proof.
  intros HQ. eapply spec_weaken; [apply spec_call |].
  intros r evs ->. repeat constructor. apply HQ.
Qed.

Lemma every_bind {A B} Q (m : M A) (k : A -> M B) :
  every Q m -> (forall a, every Q (k a)) -> every Q (m ≫= k).
Proof.
  intros Hm Hk.
  eapply spec_weaken;
    [apply (spec_bind m k _ (fun _ _ evs => Forall Q evs) Hm Hk) |].
  cbn. intros r evs [(e & _ & H) | (a & evs1 & evs2 & -> & H1 & H2)].
  - exact H.
  - apply Forall_app. done.
Qed.

Lemma every_bind_lift {A B} Q (r0 : result A) (k : A -> M B) :
  (forall a, r0 = Ok a -> every Q (k a)) -> every Q (lift r0 ≫= k).
Proof.
  intros Hk. destruct r0 as [a|e].
  - intros s. destruct (Hk a eq_refl s) as (evs & Ht & HR).
    exists evs. split; [exact Ht | exact HR].
  - intros s. exists []. rewrite app_nil_r. split; [reflexivity | constructor].
Qed.

Lemma every_try_except {A} Q (m handler : M A) :
  every Q m -> every Q handler -> every Q (try_except m handler).
Proof.
  intros Hm Hh. eapply spec_weaken; [apply (spec_try_except _ _ _ _ Hm Hh) |].
  cbn. intros r evs [(a & _ & H) | (e & evs1 & evs2 & -> & H1 & H2)].
  - exact H.
  - apply Forall_app. done.
Qed.

Lemma every_for_each {A} Q (l : list A) (body : A -> M unit) :
  (forall x, x ∈ l -> every Q (body x)) -> every Q (for_each l body).
Proof.
  induction l as [|x l IH]; intros Hb; cbn.
  - apply (every_ret Q tt).
  - apply (every_bind Q (body x) (fun _ => for_each l body)).
    + apply Hb. left.
    + intros _. apply IH. intros y Hy. apply Hb. by right.
Qed.

Lemma every_for_fold {A S} Q (l : list A) (body : S -> A -> M S) (acc : S) :
  (forall acc x, x ∈ l -> every Q (body acc x)) ->
  every Q (for_fold l body acc).
Proof.
  revert acc. induction l as [|x l IH]; intros acc Hb; cbn.
  - apply (every_ret Q acc).
  - apply (every_bind Q (body acc x) (fun acc' => for_fold l body acc')).
    + apply Hb. left.
    + intros acc'. apply IH. intros acc'' y Hy. apply Hb. by right.
Qed.

End Runs.

(** Unfolds the typed calls and walks through a computation, one rule of
    [every] at a time. *)
Ltac every_walk :=
  unfold show_in_console;
  unfold call_, call_obj, call_sg, call_clip, call_clips, call_reel,
    call_folder, call_str, call_libraries, current_engine,
    browser_selection;
  repeat lazymatch goal with
    | |- every _ (mbind _ (lift _)) => apply every_bind_lift; intros ? ?
    | |- every _ (mbind _ _) => apply every_bind; [| intros ?]
    | |- every _ (mret _) => apply every_ret
    | |- every _ (ret _) => apply every_ret
    | |- every _ (lift _) => apply every_lift
    | |- every _ (raise _) => apply every_raise
    | |- every _ get_fs => apply every_get_fs
    | |- every _ (put_fs _) => apply every_put_fs
    | |- every _ (try_except _ _) => apply every_try_except
    | |- every _ (call _ _) => apply every_call; intros ?; cbn
    | |- every _ (match ?x with _ => _ end) => destruct x
    | |- every _ (let '(_, _) := ?x in _) => destruct x
    end.

(** ** Python indexing *)

Lemma getitem_0 {A} (x : A) (l : list A) : getitem (x :: l) 0 = Ok x.
Proof.
  unfold getitem, len. cbn [length].
  change (0 <? 0) with false. cbv iota.
  replace ((0 <=? 0) && (0 <? Z.of_nat (S (length l)))) with true.
  - reflexivity.
  - symmetry. apply andb_true_iff. split; [reflexivity | apply Z.ltb_lt; lia].
Qed.

Lemma getitem_nil {A} (i : Z) : getitem (@nil A) i = Raise IndexError.
Proof.
  unfold getitem, len. cbn [length].
  destruct (i <? 0) eqn:E.
  - replace ((0 <=? Z.of_nat 0 + i) && (Z.of_nat 0 + i <? Z.of_nat 0))
      with false; [reflexivity |].
    symmetry. apply andb_false_iff. left. apply Z.leb_gt.
    apply Z.ltb_lt in E. lia.
  - replace ((0 <=? i) && (i <? Z.of_nat 0)) with false; [reflexivity |].
    symmetry. apply andb_false_iff. right. apply Z.ltb_ge.
    apply Z.ltb_ge in E. lia.
Qed.

(** ** The visibility predicates (C8) *)

(** C8. [scope_reel] rejects a selection of more than one entry, then indexes
    [selection[0]]: on the empty selection it raises [IndexError] and on a
    non-empty one it returns a boolean, so it is total exactly on the
    non-empty selections; [scope_sequence] first asks for exactly one entry
    and returns a boolean on every selection. *)
Theorem scope_reel_partial_scope_sequence_total (selection : list PyObject) :
  (Playlist.scope_reel selection = Raise IndexError <-> selection = []) /\
  ((exists b, Playlist.scope_reel selection = Ok b) <-> selection <> []) /\
  Playlist.scope_reel selection =
    match selection with
    | [] => Raise IndexError
    | [ObjReel r] => Ok (py_in (lit "comp_submissions") (reel_name r))
    | _ => Ok false
    end /\
  Masters.scope_sequence selection =
    Ok match selection with
       | [ObjSequence s] => endswith (lit "comp_submissions") (clip_name s)
       | _ => false
       end.
Proof.
  assert (Hreel : Playlist.scope_reel selection =
    match selection with
    | [] => Raise IndexError
    | [ObjReel r] => Ok (py_in (lit "comp_submissions") (reel_name r))
    | _ => Ok false
    end).
  { destruct selection as [|x [|y rest]]; [reflexivity | |].
    - unfold Playlist.scope_reel. rewrite getitem_0.
      change (1 <? len [x]) with false.
      destruct x; cbn; try reflexivity.
      destruct (py_in _ _); reflexivity.
    - unfold Playlist.scope_reel, len. cbn [length].
      replace (1 <? Z.of_nat (S (S (length rest)))) with true;
        [destruct x; reflexivity |].
      symmetry. apply Z.ltb_lt. lia. }
  split; [| split; [| split; [exact Hreel |]]].
  - rewrite Hreel. destruct selection as [|x [|y rest]]; [done | |].
    + destruct x; split; congruence.
    + destruct x; split; congruence.
  - rewrite Hreel. destruct selection as [|x [|y rest]].
    + split; [intros [b Hb]; congruence | congruence].
    + destruct x; split; eauto; congruence.
    + destruct x; split; eauto; congruence.
  - destruct selection as [|x [|y rest]]; [reflexivity | |].
    + unfold Masters.scope_sequence. rewrite getitem_0.
      change (len [x] =? 1) with true.
      destruct x; cbn; try reflexivity.
      destruct (endswith _ _); reflexivity.
    + unfold Masters.scope_sequence, len. cbn [length].
      replace (Z.of_nat (S (S (length rest))) =? 1) with false;
        [destruct x; reflexivity |].
      symmetry. apply Z.eqb_neq. lia.
Qed.

(** ** Strings: literals, [str], [replace], [split] and [join] *)

Lemma lit_inj (a b : string) : lit a = lit b -> a = b.
Proof.
  unfold lit. revert b.
  induction a as [|x a IH]; intros [|y b] H; cbn in H; try discriminate.
  - reflexivity.
  - injection H as Hxy Hab. f_equal.
    + rewrite <- (ascii_N_embedding x), <- (ascii_N_embedding y).
      by rewrite Hxy.
    + by apply IH.
Qed.

Lemma str_int_inj (m n : Z) : str_int m = str_int n -> m = n.
Proof. intros H. apply lit_inj in H. by apply (inj pretty). Qed.

(** A string of the characters [str] can produce: no blank in it. *)
Definition blank_free (s : string) : Prop :=
  Forall (fun a => a <> " "%char) (list_ascii_of_string s).

Lemma pretty_N_char_not_blank (x : N) : pretty_N_char x <> " "%char.
Proof. unfold pretty_N_char. repeat case_match; discriminate. Qed.

Lemma pretty_N_go_blank_free (x : N) (s : string) :
  blank_free s -> blank_free (pretty_N_go x s).
Proof.
  revert s. induction (N.lt_wf_0 x) as [x _ IH]; intros s Hs.
  assert (x = 0 \/ 0 < x)%N as [-> | Hpos] by lia.
  - by rewrite pretty_N_go_0.
  - rewrite pretty_N_go_step by done. apply IH.
    + by apply N.div_lt.
    + constructor; [apply pretty_N_char_not_blank | exact Hs].
Qed.

Lemma pretty_N_blank_free (x : N) : blank_free (pretty x).
Proof.
  unfold pretty, pretty_N. case_decide.
  - repeat constructor. discriminate.
  - apply pretty_N_go_blank_free. constructor.
Qed.

Lemma pretty_Z_blank_free (x : Z) : blank_free (pretty x).
Proof.
  destruct x as [|p|p]; unfold pretty, pretty_Z.
  - repeat constructor. discriminate.
  - apply (pretty_N_blank_free (Npos p)).
  - constructor; [discriminate | apply (pretty_N_blank_free (Npos p))].
Qed.

Lemma str_int_no_blank (n : Z) : 32%N ∉ str_int n.
Proof.
  unfold str_int, lit. pose proof (pretty_Z_blank_free n) as H.
  unfold blank_free in H.
  induction H as [|a l Ha _ IH]; cbn.
  - apply not_elem_of_nil.
  - apply not_elem_of_cons. split; [| exact IH].
    intros Heq. apply Ha.
    rewrite <- (ascii_N_embedding a), <- Heq. reflexivity.
Qed.

(** Replacing one character by another is a map over the string. *)
Lemma py_replace_char (a b : char) (s : pystr) :
  py_replace [a] [b] s = List.map (fun c => if (c =? a)%N then b else c) s.
Proof.
  unfold py_replace. induction s as [|c s IH]; [reflexivity |].
  cbn [replace_from startswith List.map length].
  destruct (N.eqb_spec c a) as [-> | Hne].
  - rewrite N.eqb_refl. cbn. f_equal. exact IH.
  - replace (a =? c)%N with false by (symmetry; apply N.eqb_neq; congruence).
    cbn. f_equal. exact IH.
Qed.

Lemma py_split_no_sep (c : char) (p : pystr) :
  c ∉ p -> py_split c p = [p].
Proof.
  induction p as [|a p IH]; intros Hc; [reflexivity |].
  apply not_elem_of_cons in Hc as [Hne Hc]. cbn.
  destruct (a =? c)%N eqn:E; [apply N.eqb_eq in E; congruence |].
  by rewrite IH.
Qed.

Lemma py_split_app_sep (c : char) (p s : pystr) :
  c ∉ p -> py_split c (p ++ c :: s) = p :: py_split c s.
Proof.
  induction p as [|a p IH]; intros Hc; cbn.
  - by rewrite N.eqb_refl.
  - apply not_elem_of_cons in Hc as [Hne Hc].
    destruct (a =? c)%N eqn:E; [apply N.eqb_eq in E; congruence |].
    by rewrite IH.
Qed.

(** Splitting a join gives the parts back when no part holds the
    separator. *)
Lemma py_split_join (c : char) (parts : list pystr) :
  parts <> [] -> Forall (fun p => c ∉ p) parts ->
  py_split c (py_join [c] parts) = parts.
Proof.
  intros Hne Hall. induction Hall as [|p rest Hp Hrest IH]; [done |].
  destruct rest as [|q rest].
  - cbn. by apply py_split_no_sep.
  - change (py_join [c] (p :: q :: rest))
      with (p ++ c :: py_join [c] (q :: rest)).
    rewrite py_split_app_sep by done. f_equal. by apply IH.
Qed.

(** ** [ascii_convert] (C9) *)

(** The loop of [ascii_convert] is a filter. *)
Lemma ascii_list_filter (text : pystr) (acc : list Z) :
  fold_left (fun ascii_list char =>
               let ascii_num := ord char in
               if negb (ascii_num =? 194) then ascii_list ++ [ascii_num]
               else ascii_list) text acc
  = acc ++ filter (fun n => n <> 194) (List.map ord text).
Proof.
  revert acc. induction text as [|c text IH]; intros acc.
  - cbn. by rewrite app_nil_r.
  - cbn [fold_left List.map]. rewrite IH.
    destruct (ord c =? 194) eqn:E; cbn [negb].
    + apply Z.eqb_eq in E. rewrite filter_cons_False by (intros H; done).
      reflexivity.
    + apply Z.eqb_neq in E. rewrite filter_cons_True by done.
      by rewrite <- app_assoc.
Qed.

(** The curly quotes become the straight one. *)
Definition straighten (c : char) : char :=
  if (c =? 8220)%N || (c =? 8221)%N then 34%N else c.

(** C9. For every string, [ascii_convert] returns the decimal code points,
    joined by single blanks, of the string with both curly quotes replaced
    by the straight quote and every character of code point 194 dropped;
    194 is not among these code points, no blank-separated token of the
    output is [194], and the empty string gives the empty string. *)
Theorem ascii_convert_code_points (text : pystr) :
  let codes :=
    filter (fun n => n <> 194) (List.map (fun c => ord (straighten c)) text) in
  Masters.ascii_convert text = py_join (lit " ") (List.map str_int codes) /\
  (194 ∉ codes) /\
  (str_int 194 ∉ py_split 32%N (Masters.ascii_convert text)) /\
  Masters.ascii_convert [] = [].
Proof.
  intros codes.
  assert (Hconv : Masters.ascii_convert text
                  = py_join (lit " ") (List.map str_int codes)).
  { unfold Masters.ascii_convert. rewrite ascii_list_filter.
    rewrite !py_replace_char, List.map_map, List.map_map. cbn [app].
    subst codes. do 3 f_equal. apply List.map_ext. intros c.
    unfold straighten. f_equal.
    destruct (c =? 8220)%N eqn:E1; cbn; [reflexivity |].
    destruct (c =? 8221)%N; reflexivity. }
  assert (Hcodes : 194 ∉ codes).
  { subst codes. intros H. apply list_elem_of_filter in H as [H _]. done. }
  split; [exact Hconv |]. split; [exact Hcodes |]. split; [| reflexivity].
  rewrite Hconv. change (lit " ") with [32%N].
  destruct (decide (codes = [])) as [-> | Hne].
  - cbn. intros H. apply list_elem_of_singleton in H. discriminate H.
  - rewrite py_split_join.
    + intros H. apply list_elem_of_In, List.in_map_iff in H as (n & Hn & Hin).
      apply str_int_inj in Hn as ->. apply Hcodes, list_elem_of_In, Hin.
    + destruct codes; [done | discriminate].
    + apply Forall_forall. intros p Hp.
      apply list_elem_of_In, List.in_map_iff in Hp as (n & <- & _).
      apply str_int_no_blank.
Qed.

(** ** Exceptions are not recovered from, except by one retry (C1) *)























Definition event (c : Call) (out : result Ret) : Event :=
  {| ev_call := c; ev_out := out |}.

Definition as_unit (out : result Ret) : result unit :=
  match out with
  | Ok _ => Ok tt
  | Raise e => Raise e
  end.







(** ** Runs that return: weakest preconditions *)

(** [wp m s Q]: if [m] returns [a] from [s], ending in [s'], then
    [Q a s'].  Nothing is asked of a run that raises. *)
Definition wp {A} (m : M A) (s : State) (Q : A -> State -> Prop) : Prop :=
  match m s with
  | (Ok a, s') => Q a s'
  | (Raise _, _) => True
  end.

(** The state after a call. *)
Definition logged (s : State) (c : Call) (out : result Ret) : State :=
  {| st_trace := st_trace s ++ [event c out]; st_fs := st_fs s |}.

Section Wp.
Context (o : Oracle).
Implicit Types s : State.

Lemma wp_ret {A} (a : A) s (Q : A -> State -> Prop) :
  Q a s -> wp (mret a) s Q.
Proof. done. Qed.

Lemma wp_raise {A} (e : exn) s (Q : A -> State -> Prop) :
  wp (raise e) s Q.
Proof. done. Qed.

Lemma wp_lift {A} (r : result A) s (Q : A -> State -> Prop) :
  (forall a, r = Ok a -> Q a s) -> wp (lift r) s Q.
Proof. intros H. unfold wp, lift. destruct r; [by apply H | done]. Qed.

Lemma wp_bind {A B} (m : M A) (k : A -> M B) s (Q : B -> State -> Prop) :
  wp m s (fun a s' => wp (k a) s' Q) -> wp (m ≫= k) s Q.
Proof.
  unfold wp, mbind, M_bind, bind. by destruct (m s) as [[a|e] s'].
Qed.

Lemma wp_conseq {A} (m : M A) s (Q Q' : A -> State -> Prop) :
  wp m s Q -> (forall a s', Q a s' -> Q' a s') -> wp m s Q'.
Proof.
  unfold wp. destruct (m s) as [[a|e] s']; [| done]. intros H HQ. by apply HQ.
Qed.

Lemma wp_get_fs s (Q : gmap pystr fsnode -> State -> Prop) :
  Q (st_fs s) s -> wp get_fs s Q.
Proof. done. Qed.

Lemma wp_put_fs fs s (Q : unit -> State -> Prop) :
  Q tt {| st_trace := st_trace s; st_fs := fs |} -> wp (put_fs fs) s Q.
Proof. done. Qed.

Lemma wp_call (c : Call) s (Q : Ret -> State -> Prop) :
  (forall r, Q r (logged s c (Ok r))) -> wp (call o c) s Q.
Proof.
  intros H. unfold wp, call.
  destruct (respond o (st_trace s) c) as [r|e]; [apply H | done].
Qed.

Lemma wp_call_ (c : Call) s (Q : unit -> State -> Prop) :
  (forall r, Q tt (logged s c (Ok r))) -> wp (call_ o c) s Q.
Proof.
  intros H. unfold call_. apply wp_bind, wp_call. intros r. apply H.
Qed.

Lemma wp_call_obj (c : Call) s (Q : handle -> State -> Prop) :
  (forall h, Q h (logged s c (Ok (RObj h)))) -> wp (call_obj o c) s Q.
Proof.
  intros H. unfold call_obj. apply wp_bind, wp_call. intros []; try done.
  apply H.
Qed.

Lemma wp_call_sg (c : Call) s (Q : sgval -> State -> Prop) :
  (forall v, Q v (logged s c (Ok (RSg v)))) -> wp (call_sg o c) s Q.
Proof.
  intros H. unfold call_sg. apply wp_bind, wp_call. intros []; try done.
  apply H.
Qed.

Lemma wp_call_clip (c : Call) s (Q : PyClip -> State -> Prop) :
  (forall x, Q x (logged s c (Ok (RClip x)))) -> wp (call_clip o c) s Q.
Proof.
  intros H. unfold call_clip. apply wp_bind, wp_call. intros []; try done.
  apply H.
Qed.

Lemma wp_call_clips (c : Call) s (Q : list PyClip -> State -> Prop) :
  (forall x, Q x (logged s c (Ok (RClips x)))) -> wp (call_clips o c) s Q.
Proof.
  intros H. unfold call_clips. apply wp_bind, wp_call. intros []; try done.
  apply H.
Qed.

Lemma wp_call_reel (c : Call) s (Q : PyReel -> State -> Prop) :
  (forall x, Q x (logged s c (Ok (RReel x)))) -> wp (call_reel o c) s Q.
Proof.
  intros H. unfold call_reel. apply wp_bind, wp_call. intros []; try done.
  apply H.
Qed.

Lemma wp_call_folder (c : Call) s (Q : PyFolder -> State -> Prop) :
  (forall x, Q x (logged s c (Ok (RFolder x)))) -> wp (call_folder o c) s Q.
Proof.
  intros H. unfold call_folder. apply wp_bind, wp_call. intros []; try done.
  apply H.
Qed.

Lemma wp_call_str (c : Call) s (Q : pystr -> State -> Prop) :
  (forall x, Q x (logged s c (Ok (RStr x)))) -> wp (call_str o c) s Q.
Proof.
  intros H. unfold call_str. apply wp_bind, wp_call. intros []; try done.
  apply H.
Qed.

Lemma wp_call_libraries (c : Call) s (Q : list PyLibrary -> State -> Prop) :
  (forall x, Q x (logged s c (Ok (RLibraries x)))) ->
  wp (call_libraries o c) s Q.
Proof.
  intros H. unfold call_libraries. apply wp_bind, wp_call.
  intros []; try done. apply H.
Qed.

Lemma wp_browser_selection s (Q : list pystr -> State -> Prop) :
  (forall x, Q x (logged s CBrowserSelection (Ok (RStrs x)))) ->
  wp (browser_selection o) s Q.
Proof.
  intros H. unfold browser_selection. apply wp_bind, wp_call.
  intros []; try done. apply H.
Qed.

Lemma wp_current_engine s (Q : option Engine -> State -> Prop) :
  Q None (logged s CCurrentEngine (Ok RNone)) ->
  (forall e, Q (Some e) (logged s CCurrentEngine (Ok (REngine e)))) ->
  wp (current_engine o) s Q.
Proof.
  intros H1 H2. unfold current_engine. apply wp_bind, wp_call.
  intros []; try done. apply H2.
Qed.

Lemma wp_show_in_console msg type duration s (Q : unit -> State -> Prop) :
  (forall r, Q tt (logged s (CShowInConsole msg type duration) (Ok r))) ->
  wp (show_in_console o msg type duration) s Q.
Proof. apply wp_call_. Qed.

(** [okspec m R]: when [m] returns [a], the events it logged are related to
    [a] by [R]. *)
Definition okspec {A} (m : M A) (R : A -> list Event -> Prop) : Prop :=
  forall s, wp m s (fun a s' =>
    exists evs, st_trace s' = st_trace s ++ evs /\ R a evs).

Lemma wp_okspec {A} (m : M A) R s (Q : A -> State -> Prop) :
  okspec m R ->
  (forall a s' evs, st_trace s' = st_trace s ++ evs -> R a evs -> Q a s') ->
  wp m s Q.
Proof.
  intros Hm HQ. eapply wp_conseq; [apply Hm |].
  intros a s' (evs & Ht & HR). by eapply HQ.
Qed.

Lemma okspec_of_spec {A} (m : M A) (R : result A -> list Event -> Prop) :
  spec m R -> okspec m (fun a evs => R (Ok a) evs).
Proof.
  intros Hm s. unfold wp. destruct (Hm s) as (evs & Ht & HR).
  destruct (m s) as [[a|e] s']; [| done]. by exists evs.
Qed.

Lemma okspec_run {A} (m : M A) R s a s' :
  okspec m R -> m s = (Ok a, s') ->
  exists evs, st_trace s' = st_trace s ++ evs /\ R a evs.
Proof. intros Hm Hrun. specialize (Hm s). unfold wp in Hm. by rewrite Hrun in Hm. Qed.

End Wp.

(** One step of a walk through a computation that returns. *)
Ltac wp_step :=
  cbv beta iota;
  lazymatch goal with
  | |- wp (mbind _ _) _ _ => apply wp_bind
  | |- wp (mret _) _ _ => apply wp_ret
  | |- wp (ret _) _ _ => apply wp_ret
  | |- wp (raise _) _ _ => apply wp_raise
  | |- wp (lift _) _ _ => apply wp_lift; intros ? ?
  | |- wp get_fs _ _ => apply wp_get_fs
  | |- wp (put_fs _) _ _ => apply wp_put_fs
  | |- wp (call_ _ _) _ _ => apply wp_call_; intros ?
  | |- wp (call_obj _ _) _ _ => apply wp_call_obj; intros ?
  | |- wp (call_sg _ _) _ _ => apply wp_call_sg; intros ?
  | |- wp (call_clip _ _) _ _ => apply wp_call_clip; intros ?
  | |- wp (call_clips _ _) _ _ => apply wp_call_clips; intros ?
  | |- wp (call_reel _ _) _ _ => apply wp_call_reel; intros ?
  | |- wp (call_folder _ _) _ _ => apply wp_call_folder; intros ?
  | |- wp (call_str _ _) _ _ => apply wp_call_str; intros ?
  | |- wp (call_libraries _ _) _ _ => apply wp_call_libraries; intros ?
  | |- wp (browser_selection _) _ _ => apply wp_browser_selection; intros ?
  | |- wp (current_engine _) _ _ => apply wp_current_engine; [| intros ?]
  | |- wp (show_in_console _ _ _ _) _ _ =>
      apply wp_show_in_console; intros ?
  | |- wp (call _ _) _ _ => apply wp_call; intros ?
  | |- wp (match ?x with _ => _ end) _ _ => destruct x eqn:?
  end.

Ltac wp_walk := repeat wp_step.

(** Closes [exists evs, st_trace s' = st_trace s ++ evs /\ _] by collecting
    the events logged on the way to [s']. *)
Ltac trace_done :=
  cbn [logged st_trace st_fs];
  repeat match goal with
    | H : st_trace _ = _ ++ _ |- _ =>
        rewrite H; clear H; cbn [logged st_trace st_fs]
    end;
  rewrite <- ?app_assoc;
  eexists; split; [reflexivity |].

(** ** Versions and the playlist (C5) *)

(** The records created on ShotGrid, in the order of the log: entity type,
    data sent, answer. *)
Definition creates (evs : list Event) : list (pystr * sgval * result Ret) :=
  omap (fun ev =>
          match ev_call ev with
          | CCreate _ entity data => Some (entity, data, ev_out ev)
          | _ => None
          end) evs.

Lemma creates_app evs1 evs2 : creates (evs1 ++ evs2) = creates evs1 ++ creates evs2.
Proof. apply omap_app. Qed.

(** The creation of one Version: what was sent and what came back. *)
Definition version_created (made : sgval * sgval) : pystr * sgval * result Ret :=
  (lit "Version", made.1, Ok (RSg made.2)).

(** The data sent for a clip carries the clip's name as [code]. *)
Definition made_for (clip : PyClip) (made : sgval * sgval) : Prop :=
  sg_get made.1 (lit "code") = Ok (VStr (clip_name clip)).

Lemma create_version_okspec o shotgrid reel project path auth versions clip :
  okspec (Playlist.create_version o shotgrid reel project path auth versions
            clip)
    (fun versions' evs =>
       exists made,
         creates evs = [version_created made] /\ made_for clip made /\
         versions' = versions ++ filter (fun v => sg_truthy v = true) [made.2]).
Proof.
  intros s. unfold Playlist.create_version. wp_walk.
  - trace_done. eexists (_, _). split; [reflexivity |]. split; [reflexivity |].
    cbn [snd]. rewrite filter_cons_True by done. reflexivity.
  - trace_done. eexists (_, _). split; [reflexivity |]. split; [reflexivity |].
    cbn [snd]. rewrite filter_cons_False by congruence.
    by rewrite filter_nil, app_nil_r.
Qed.

Lemma create_versions_loop_okspec o shotgrid reel project path auth clips :
  forall versions,
  okspec (for_fold clips
            (Playlist.create_version o shotgrid reel project path auth)
            versions)
    (fun versions' evs =>
       exists mades,
         creates evs = version_created <$> mades /\
         Forall2 made_for clips mades /\
         versions' = versions
                     ++ filter (fun v => sg_truthy v = true) (snd <$> mades)).
Proof.
  induction clips as [|clip clips IH]; intros versions s; cbn [for_fold].
  - apply wp_ret. exists []. rewrite app_nil_r. split; [reflexivity |].
    exists []. cbn. by rewrite app_nil_r.
  - apply wp_bind.
    eapply wp_okspec; [apply create_version_okspec |].
    intros versions1 s1 evs1 Ht1 (made & Hc1 & Hmade & ->).
    eapply wp_okspec; [apply IH |].
    intros versions2 s2 evs2 Ht2 (mades & Hc2 & Hmades & ->).
    trace_done. exists (made :: mades).
    rewrite creates_app, Hc1, Hc2. split; [reflexivity |].
    split; [by constructor |].
    rewrite fmap_cons. f_equal.
    change (made.2 :: (snd <$> mades)) with ([made.2] ++ (snd <$> mades)).
    by rewrite filter_app.
Qed.

Lemma create_versions_okspec o reel project path auth :
  okspec (Playlist.create_versions o reel project path auth)
    (fun versions evs =>
       exists clips mades,
         obj_clips reel = Ok clips /\
         creates evs = version_created <$> mades /\
         Forall2 made_for clips mades /\
         versions = filter (fun v => sg_truthy v = true) (snd <$> mades)).
Proof.
  intros s. unfold Playlist.create_versions. wp_walk.
  eapply wp_okspec; [apply create_versions_loop_okspec |].
  intros versions s1 evs1 Ht1 (mades & Hc & Hmades & ->).
  trace_done. exists a, mades. rewrite creates_app, Hc. done.
Qed.

(** ** The frame range of a review version (C10) *)

(** The record built for a clip: it carries the clip's name, and its frame
    fields come from the duration of that clip. *)
Definition frames_of (clip : PyClip) (data : sgval) : Prop :=
  sg_get data (lit "code") = Ok (VStr (clip_name clip)) /\
  exists first last count,
    sg_get data (lit "sg_first_frame") = Ok (VInt first) /\
    sg_get data (lit "sg_last_frame") = Ok (VInt last) /\
    sg_get data (lit "frame_count") = Ok (VInt count) /\
    first = 1001 /\
    last = clip_duration clip + 999 /\
    count = clip_duration clip - 1 /\
    last - first + 1 = count.

(** What C10 says of a [create] call made in the turn of a clip. *)
Definition frames_ok (clip : PyClip) (ev : Event) : Prop :=
  match ev_call ev with
  | CCreate _ entity data => entity = lit "Version" /\ frames_of clip data
  | _ => True
  end.

Lemma frames_of_record (clip : PyClip) (entity task project description
    user aspect rate path : sgval) :
  frames_of clip
    (VDict
       [(lit "code", VStr (clip_name clip));
        (lit "entity", entity);
        (lit "sg_task", task);
        (lit "project", project);
        (lit "description", description);
        (lit "user", user);
        (lit "sg_status_list", VStr (lit "rev"));
        (lit "sg_first_frame", VInt 1001);
        (lit "sg_last_frame", VInt (clip_duration clip + 999));
        (lit "frame_count", VInt (clip_duration clip - 1));
        (lit "sg_movie_aspect_ratio", aspect);
        (lit "sg_uploaded_movie_frame_rate", rate);
        (lit "sg_movie_has_slate", VBool true);
        (lit "sg_path_to_movie", path)]).
Proof.
  split; [vm_compute; reflexivity |].
  exists 1001, (clip_duration clip + 999), (clip_duration clip - 1).
  do 3 (split; [vm_compute; reflexivity |]).
  do 3 (split; [reflexivity |]). lia.
Qed.

Lemma create_version_frames o shotgrid reel project path auth versions clip :
  okspec (Playlist.create_version o shotgrid reel project path auth versions
            clip)
    (fun _ evs =>
       exists made,
         creates evs = [version_created made] /\ frames_of clip made.1).
Proof.
  intros s. unfold Playlist.create_version. wp_walk.
  all: trace_done; eexists (_, _); split; [reflexivity |].
  all: apply frames_of_record.
Qed.

Lemma create_versions_loop_frames o shotgrid reel project path auth clips :
  forall versions,
  okspec (for_fold clips
            (Playlist.create_version o shotgrid reel project path auth)
            versions)
    (fun _ evs =>
       exists mades,
         creates evs = version_created <$> mades /\
         Forall2 (fun clip made => frames_of clip made.1) clips mades).
Proof.
  induction clips as [|clip clips IH]; intros versions s; cbn [for_fold].
  - apply wp_ret. exists []. rewrite app_nil_r. split; [reflexivity |].
    by exists [].
  - apply wp_bind.
    eapply wp_okspec; [apply create_version_frames |].
    intros versions1 s1 evs1 Ht1 (made & Hc1 & Hmade).
    eapply wp_okspec; [apply IH |].
    intros versions2 s2 evs2 Ht2 (mades & Hc2 & Hmades).
    trace_done. exists (made :: mades).
    rewrite creates_app, Hc1, Hc2. split; [reflexivity | by constructor].
Qed.

(** C10. Every record [create_versions] sends to [shotgrid.create] is a
    Version built in the turn of one clip: it carries that clip's name, its
    [sg_first_frame] is 1001, its [sg_last_frame] that clip's duration plus
    999 and its [frame_count] that clip's duration minus 1, so that
    [sg_last_frame - sg_first_frame + 1 = frame_count].  When
    [create_versions] returns, the records created are those of the clips
    of the reel, one for each clip and in the order of the clips. *)
Theorem create_versions_frame_range (o : Oracle) (reel : PyObject)
    (project : sgval) (path : pystr) (sg_authorization : handle) :
  (forall shotgrid versions clip,
      every (frames_ok clip)
            (Playlist.create_version o shotgrid reel project path
               sg_authorization versions clip)) /\
  (forall s versions s' evs,
      Playlist.create_versions o reel project path sg_authorization s
      = (Ok versions, s') ->
      st_trace s' = st_trace s ++ evs ->
      exists clips mades,
        obj_clips reel = Ok clips /\
        creates evs = version_created <$> mades /\
        Forall2 (fun clip made => frames_of clip made.1) clips mades).
Proof.
  split.
  - intros shotgrid versions clip. unfold Playlist.create_version.
    every_walk; try exact I.
    all: split; [reflexivity | apply frames_of_record].
  - intros s versions s' evs Hrun Htrace.
    assert (Hspec : okspec (Playlist.create_versions o reel project path
                              sg_authorization)
      (fun _ evs =>
         exists clips mades,
           obj_clips reel = Ok clips /\
           creates evs = version_created <$> mades /\
           Forall2 (fun clip made => frames_of clip made.1) clips mades)).
    { intros s0. unfold Playlist.create_versions. wp_walk.
      eapply wp_okspec; [apply create_versions_loop_frames |].
      intros versions1 s1 evs1 Ht1 (mades & Hc & Hmades).
      trace_done. eexists _, mades. rewrite creates_app, Hc.
      split; [eassumption |]. split; [reflexivity | exact Hmades]. }
    destruct (okspec_run _ _ _ _ _ Hspec Hrun) as (evs' & Htrace' & Hdone).
    rewrite Htrace in Htrace'. apply app_inv_head in Htrace' as <-.
    exact Hdone.
Qed.

(** The [versions] entry of the playlist: a link to each version's [id]. *)
Definition version_links (versions : list sgval) : result (list sgval) :=
  mapM (fun version =>
          id ← sg_get version (lit "id");
          mret (Playlist.entity_link "Version" id)) versions.

Lemma create_playlist_okspec o name versions project auth :
  okspec (Playlist.create_playlist o name versions project auth)
    (fun _ evs =>
       exists project_id links r,
         sg_get project (lit "id") = Ok project_id /\
         version_links versions = Ok links /\
         creates evs =
           [(lit "Playlist",
             VDict [(lit "code", VStr name);
                    (lit "project",
                     Playlist.entity_link "Project" project_id);
                    (lit "versions", VList links)],
             Ok r)]).
Proof.
  intros s. unfold Playlist.create_playlist. wp_walk.
  trace_done. eexists _, _, _. split; [eassumption |].
  split; [eassumption | reflexivity].
Qed.

(** Neither the exports nor the uploads create a record. *)
Definition not_a_create (ev : Event) : Prop :=
  match ev_call ev with
  | CCreate _ _ _ => False
  | _ => True
  end.

Lemma creates_none evs : Forall not_a_create evs -> creates evs = [].
Proof.
  induction 1 as [|ev evs Hev _ IH]; [reflexivity |].
  unfold creates in *. cbn. unfold not_a_create in Hev.
  destruct (ev_call ev); try done.
Qed.


Lemma send_h264s_no_create o reel versions path auth :
  every not_a_create
        (Playlist.send_h264s_to_shotgrid o reel versions path auth).
Proof.
  unfold Playlist.send_h264s_to_shotgrid.
  every_walk; try exact I.
  apply every_for_each. intros version _. unfold Playlist.send_h264.
  every_walk; exact I.
Qed.

(** The project is linked to ShotGrid: [current_engine] gave an engine.  The
    script asks for the engine only after a destination path was chosen. *)
Definition linked (evs : list Event) : Prop :=
  exists engine, event CCurrentEngine (Ok (REngine engine)) ∈ evs.



Ltac not_in_log H :=
  repeat (apply elem_of_cons in H as [H | H]; [discriminate H |]);
  by apply elem_of_nil in H.



(** ** The temporary folder (C7) *)

Lemma under_refl (p : pystr) : Masters.under p p = true.
Proof. unfold Masters.under. by rewrite bool_decide_eq_true_2. Qed.







(** ** One retry, and no other (C1) *)













(** ** A concrete host, to run the scripts on *)

Module Demo.

Definition project : sgval :=
  VDict [(lit "id", VInt 7); (lit "name", VStr (lit "demo"))].

Definition entity (id : Z) : sgval :=
  VDict [(lit "id", VInt id);
         (lit "description", VStr (lit "first pass"));
         (lit "user", VDict [(lit "name", VStr (lit "artist"))])].

Definition clip (id : handle) (name : pystr) (width height : Z) : PyClip :=
  {| clip_id := id; clip_name := name;
     clip_versions :=
       [{| version_tracks :=
             [{| track_segments :=
                   [{| seg_id := S id; seg_type := lit "Video Segment";
                       seg_name := name; seg_shot_name := lit "sh010";
                       seg_head := 8; seg_source_duration := 48 |}] |}] |}];
     clip_duration := 65; clip_ratio := 1%Qc;
     clip_frame_rate := lit "23.976 fps";
     clip_width := width; clip_height := height; clip_start_time := 1001 |}.

(** Was the last call a sleep? *)
Definition after_sleep (history : list Event) : bool :=
  match last history with
  | Some ev => match ev_call ev with CSleep _ => true | _ => false end
  | None => false
  end.

(** The answers of the host.  An upload fails unless it follows a sleep, so
    every first attempt raises and every retry returns. *)
Definition respond (history : list Event) (c : Call) : result Ret :=
  let fresh := (100 + length history)%nat in
  match c with
  | CCurrentEngine => Ok (REngine {| engine_project := project |})
  | CGetAuthenticatedUser => Ok (RObj 1%nat)
  | CCreateSgConnection _ => Ok (RObj 2%nat)
  | CResolveEntity _ => Ok (RSg (entity 3))
  | CFindOne _ _ _ _ => Ok (RSg (entity 11))
  | CCreate _ _ data =>
      Ok (RSg (VDict [(lit "id", VInt (Z.of_nat fresh));
                      (lit "code",
                       match sg_get data (lit "code") with
                       | Ok code => code
                       | Raise _ => VNone
                       end)]))
  | CUpload _ _ _ _ _ =>
      if after_sleep history then Ok RNone else Raise (HostError 503)
  | CBrowserSelection => Ok (RStrs [lit "/data/out"])
  | CNewExporter => Ok (RObj fresh)
  | CImportClips path _ => Ok (RClips [clip fresh path 1920 1080])
  | CCreateReel _ name =>
      Ok (RReel {| reel_id := fresh; reel_name := name; reel_clips := [] |})
  | CGetClips _ => Ok (RClips [clip fresh (lit "bg_3840x2160") 3840 2160])
  | CMatch _ _ _ => Ok (RClip (clip fresh (lit "sh010_comp_v003") 3840 2160))
  | COpenAsSequence _ =>
      Ok (RClip (clip fresh (lit "sh010_comp_v003") 3840 2160))
  | CGetColourSpace _ => Ok (RStr (lit "ACEScg"))
  | CCreateSequence _ name width height _ _ _ _ _ =>
      Ok (RClip (clip fresh name width height))
  | CCreateTrack _ | CCreateEffect _ _ | CCreateLibrary _ _ =>
      Ok (RObj fresh)
  | CGetLibraries _ => Ok (RLibraries [])
  | CCreateFolder _ name =>
      Ok (RFolder {| folder_id := fresh; folder_name := name |})
  | CToday _ => Ok (RStr (lit "11/3/2026"))
  | _ => Ok RNone
  end.

Definition oracle : Oracle :=
  {| Host.respond := respond;
     float_of := fun _ => Ok 1%Qc;
     script_path := lit "/opt/hooks";
     env_slate_bg_path := None;
     env_slate_template_path := None |}.

(** A slate template: a line that is not text, and two text lines, each
    after the line that holds its length.  The text lines spell [<CODE>] and
    [<NOTES>]. *)
Definition template : pystr :=
  lit "FontSize 40" ++ [10%N]
  ++ lit "TextLength 6" ++ [10%N]
  ++ lit "Text 60 67 79 68 69 62" ++ [10%N]
  ++ lit "TextLength 7" ++ [10%N]
  ++ lit "Text 60 78 79 84 69 83 62" ++ [10%N].

(** The disk before the scripts run: the two templates. *)
Definition disk : gmap pystr fsnode :=
  <[lit "/opt/hooks/setups/slate_examples/slate_template_3840x2160.ttg"
      := File template]>
  (<[lit "/opt/hooks/setups/slate_examples/slate_template_1920x1080.ttg"
      := File template]> ∅).

Definition start : State := {| st_trace := []; st_fs := disk |}.

(** A reel of two offline masters, and an editorial sequence of one shot. *)
Definition reel : PyReel :=
  {| reel_id := 10%nat; reel_name := lit "ep1_comp_submissions";
     reel_clips := [clip 20%nat (lit "sh010_comp_v003") 1920 1080;
                    clip 30%nat (lit "sh020_comp_v001") 1920 1080] |}.

Definition sequence : PyClip := clip 40%nat (lit "ep1_comp_submissions") 3840 2160.

End Demo.

Example demo_delivery_returns :
  (Playlist.create_client_delivery Demo.oracle [ObjReel Demo.reel]
     Demo.start).1 = Ok tt.
Proof. vm_compute. reflexivity. Qed.

Example demo_build_returns :
  (Masters.build_shot_masters_from_sequence Demo.oracle
     [ObjSequence Demo.sequence] Demo.start).1 = Ok tt.
Proof. vm_compute. reflexivity. Qed.

(** Finds an event in a computed log. *)
Ltac in_log :=
  vm_compute;
  repeat first [apply list_elem_of_here | apply list_elem_of_further].





(** ** The events of the steps of [build_shot_masters_from_sequence] *)

Section Steps.
Context (o : Oracle).

(** [create_offline_sequence]: match the shot into the temporary reel with
    its timeline effects, create the offline sequence, overwrite the matched
    clip into it. *)
Definition offline_sequence_events (shot : PySegment)
    (sequence_reel temp_reel : PyReel) (match_clip offline_sequence : PyClip)
    (r : Ret) : list Event :=
  [event (CMatch (Obj (seg_id shot)) (Obj (reel_id temp_reel)) (Some true))
         (Ok (RClip match_clip));
   event (CCreateSequence (Obj (reel_id sequence_reel))
            (clip_name match_clip) 1920 1080 16 (lit "P") (lit "23.976 fps")
            (clip_start_time match_clip) 0)
         (Ok (RClip offline_sequence));
   event (COverwrite (Obj (clip_id offline_sequence))
            (Obj (clip_id match_clip)) None None)
         (Ok r)].

Lemma create_offline_sequence_okspec shot sequence_reel temp_reel :
  okspec (Masters.create_offline_sequence o shot sequence_reel temp_reel)
    (fun offline_sequence evs =>
       exists match_clip r,
         evs = offline_sequence_events shot sequence_reel temp_reel
                 match_clip offline_sequence r).
Proof.
  intros s. unfold Masters.create_offline_sequence. wp_walk.
  trace_done. eexists _, _. reflexivity.
Qed.

(** [extract_thumbnail]: match the shot and mark one frame, from
    [head + 1] to [head + 2]. *)
Definition thumbnail_events (shot : PySegment) (destination_reel : PyReel)
    (effects : bool) (thumb_clip : PyClip) (r1 r2 : Ret) : list Event :=
  [event (CMatch (Obj (seg_id shot)) (Obj (reel_id destination_reel))
            (Some effects))
         (Ok (RClip thumb_clip));
   event (CSetAttr (Obj (clip_id thumb_clip)) "in_mark"
            (AInt (seg_head shot + 1)))
         (Ok r1);
   event (CSetAttr (Obj (clip_id thumb_clip)) "out_mark"
            (AInt (seg_head shot + 2)))
         (Ok r2)].

Lemma extract_thumbnail_okspec shot destination_reel effects :
  okspec (Masters.extract_thumbnail o shot destination_reel effects)
    (fun thumb_clip evs =>
       exists r1 r2,
         evs = thumbnail_events shot destination_reel effects thumb_clip
                 r1 r2).
Proof.
  intros s. unfold Masters.extract_thumbnail. wp_walk.
  trace_done. eexists _, _. reflexivity.
Qed.

(** [insert_slate_frame]: the background onto track 1 at time 0, a new
    track, the thumbnail onto it, an Action effect on the thumbnail. *)
Definition slate_frame_events (sequence : PyClip) (shot : PySegment)
    (bg thumbnail_clip : PyClip) (new_track thumbnail : handle)
    (r1 r2 r3 r4 : Ret) : list Event :=
  let seq := Obj (clip_id sequence) in
  [event (COverwrite seq (Obj (clip_id bg)) (Some (MkPyTime 0))
            (Some (Masters.track_ref seq 0 0)))
         (Ok r1);
   event (CCreateTrack (Item (Attr seq "versions") 0)) (Ok (RObj new_track));
   event (COverwrite seq (Obj (clip_id thumbnail_clip))
            (Some (MkPyTime (1 - seg_head shot))) (Some (Obj new_track)))
         (Ok r2);
   event (CCreateEffect (Masters.segment_ref seq 0 1 0) (lit "Action"))
         (Ok (RObj thumbnail));
   event (CSetAttr (Item (Attr (Masters.segment_ref seq 0 1 0) "effects") 0)
            "bypass" (ABool false))
         (Ok r3);
   event (CLoadSetup (Obj thumbnail) (Masters.THUMBNAIL_SETUP o)) (Ok r4)].

Lemma insert_slate_frame_okspec sequence shot bg thumbnail_clip :
  okspec (Masters.insert_slate_frame o sequence shot bg thumbnail_clip)
    (fun _ evs =>
       exists new_track thumbnail r1 r2 r3 r4,
         evs = slate_frame_events sequence shot bg thumbnail_clip new_track
                 thumbnail r1 r2 r3 r4).
Proof.
  intros s. unfold Masters.insert_slate_frame. wp_walk.
  trace_done. eexists _, _, _, _, _, _. reflexivity.
Qed.

(** [get_slate_info]: the shot and the version are looked up on ShotGrid
    and the date is read. *)
Definition slate_info_events (shot : PySegment) (shotgrid : handle)
    (shot_entry version_entry : sgval) (today : pystr) : list Event :=
  [event (CFindOne shotgrid (lit "Shot")
            [VList [VStr (lit "code"); VStr (lit "is");
                    VStr (seg_shot_name shot)]]
            (Some [lit "description"]))
         (Ok (RSg shot_entry));
   event (CFindOne shotgrid (lit "Version")
            [VList [VStr (lit "code"); VStr (lit "is");
                    VStr (seg_name shot)]]
            (Some [lit "user"; lit "description"]))
         (Ok (RSg version_entry));
   event (CToday (lit "%-m/%-d/%Y")) (Ok (RStr today))].

Lemma get_slate_info_okspec shot shotgrid :
  okspec (Masters.get_slate_info o shot shotgrid)
    (fun _ evs =>
       exists shot_entry version_entry today,
         evs = slate_info_events shot shotgrid shot_entry version_entry
                 today).
Proof.
  intros s. unfold Masters.get_slate_info. wp_walk.
  trace_done. eexists _, _, _. reflexivity.
Qed.

(** [generate_slate]: a Text effect on the first segment of track 1, loaded
    from the setup written for this shot. *)
Definition slate_text_events (shot_sequence : PyClip) (slate : handle)
    (new_setup_path : pystr) (r : Ret) : list Event :=
  [event (CCreateEffect
            (Masters.segment_ref (Obj (clip_id shot_sequence)) 0 0 0)
            (lit "Text"))
         (Ok (RObj slate));
   event (CLoadSetup (Obj slate) new_setup_path) (Ok r)].

(** The setup file [generate_slate] writes for a shot. *)
Definition slate_setup_path (slate_info : dict pystr pyval) : result pystr :=
  resolution ← (v ← dict_get (lit "<RESOLUTION>") slate_info;
                match v with
                | PyStr s => Ok s
                | PyNone => Raise AttributeError
                end);
  code ← dict_get (lit "<CODE>") slate_info;
  mret (path_join (Masters.TEMP_FOLDER o)
          ((Masters.format_val code ++ lit "-" ++ resolution) ++ lit ".ttg")).

(** [generate_slate] reads the template of the resolution, fills it from the
    slate info, writes the result into the temporary folder and loads it
    into a Text effect on the first segment of track 1. *)
Lemma generate_slate_wp shot_sequence slate_info (s : State)
    (Q : handle -> State -> Prop) :
  (forall slate s' resolution template filled path r,
      dict_get (lit "<RESOLUTION>") slate_info = Ok (PyStr resolution) ->
      st_fs s !! py_replace (lit "RESOLUTION") resolution
                   (Masters.SLATE_TEMPLATE_PATH o) = Some (File template) ->
      Masters.fill_slate_setup (py_readlines template) slate_info
        = Ok filled ->
      slate_setup_path slate_info = Ok path ->
      st_fs s' !! path = Some (File (concat filled)) ->
      st_trace s' = st_trace s
                    ++ slate_text_events shot_sequence slate path r ->
      Q slate s') ->
  wp (Masters.generate_slate o shot_sequence slate_info) s Q.
Proof.
  intros HQ.
  unfold Masters.generate_slate, Masters.load_slate_setup,
    Masters.write_slate_ttg.
  wp_walk.
  all: match goal with
       | H : (_ ≫= _) = Ok _ |- _ =>
           let E := fresh "E" in
           destruct (dict_get (lit "<RESOLUTION>") slate_info) as [[|res]|] eqn:E;
           try discriminate H; injection H as ->
       end.
  all: eapply HQ; [reflexivity | eassumption | eassumption | | |].
  all: try (unfold slate_setup_path;
            repeat match goal with H : dict_get _ _ = _ |- _ =>
                     rewrite H; clear H end;
            reflexivity).
  all: try (cbn [logged st_fs]; apply lookup_insert_eq).
  all: cbn [logged st_trace]; rewrite <- app_assoc; reflexivity.
Qed.

Lemma generate_slate_okspec shot_sequence slate_info :
  okspec (Masters.generate_slate o shot_sequence slate_info)
    (fun slate evs =>
       exists path r,
         slate_setup_path slate_info = Ok path /\
         evs = slate_text_events shot_sequence slate path r).
Proof.
  intros s. apply generate_slate_wp.
  intros slate s' resolution template filled path r _ _ _ Hpath _ Ht.
  eexists. split; [exact Ht |]. by exists path, r.
Qed.

End Steps.

(** ** One shot of the loop: two masters, each with its slate (C3, C4) *)

(** An event that makes no sequence. *)
Definition no_new_sequence (ev : Event) : Prop :=
  match ev_call ev with
  | COpenAsSequence _ | CCreateSequence _ _ _ _ _ _ _ _ _ => False
  | _ => True
  end.

(** What C4 says of the events of one shot: the shot is matched into the
    online reel and opened as a sequence, the online master; the offline
    master is created at 1920x1080, 16 bit, progressive, 23.976 fps in the
    offline reel and the matched clip is overwritten into it; nothing else
    makes a sequence. *)
Definition masters_made (offline_reel online_reel temp_reel : PyReel)
    (shot : PySegment) (online_master offline_master : PyClip)
    (block : list Event) : Prop :=
  exists online_clip match_clip r rest,
    block =
      event (CMatch (Obj (seg_id shot)) (Obj (reel_id online_reel)) None)
            (Ok (RClip online_clip))
      :: event (COpenAsSequence (Obj (clip_id online_clip)))
               (Ok (RClip online_master))
      :: offline_sequence_events shot offline_reel temp_reel match_clip
           offline_master r
      ++ rest /\
    Forall no_new_sequence rest.

(** What C3 says of one master: a thumbnail of one frame is cut from the
    shot, the slate background is overwritten onto track 1 at time 0, the
    thumbnail goes onto a new track, and a Text effect loaded from the
    shot's setup is put on the first segment of track 1; in this order. *)
Definition slate_burned_in (o : Oracle) (temp_reel : PyReel)
    (shot : PySegment) (master : PyClip) (block : list Event) : Prop :=
  exists effects thumb bg new_track thumbnail slate path,
  exists r1 r2 r3 r4 r5 r6 r7,
    thumbnail_events shot temp_reel effects thumb r1 r2
    ++ slate_frame_events o master shot bg thumb new_track thumbnail
         r3 r4 r5 r6
    ++ slate_text_events master slate path r7
    `sublist_of` block.

Definition shot_block (o : Oracle) (offline_reel online_reel temp_reel : PyReel)
    (shot : PySegment) (block : list Event) : Prop :=
  exists online_master offline_master,
    masters_made offline_reel online_reel temp_reel shot online_master
      offline_master block /\
    slate_burned_in o temp_reel shot online_master block /\
    slate_burned_in o temp_reel shot offline_master block.

(** Decides [l1 `sublist_of` l2] on written-out lists. *)
Ltac sublist_walk :=
  repeat first [apply sublist_nil | apply sublist_skip | apply sublist_cons].

Lemma build_shot_master_okspec o engine shotgrid temp_reel offline_reel
    online_reel offline_bg vars shot :
  okspec (Masters.build_shot_master o engine shotgrid temp_reel offline_reel
            online_reel offline_bg vars shot)
    (fun _ evs => shot_block o offline_reel online_reel temp_reel shot evs).
Proof.
  intros s. unfold Masters.build_shot_master. wp_walk.
  eapply wp_okspec; [apply create_offline_sequence_okspec |].
  intros offline_master s1 evs1 Ht1 (match_clip & r & ->).
  apply wp_bind.
  eapply (wp_okspec _ (fun _ evs => exists ev, evs = [ev] /\ no_new_sequence ev)).
  { intros s'. wp_walk; trace_done; eexists; split; reflexivity || exact I. }
  intros [online_bg resolutions] s2 evs2 Ht2 (bg_event & -> & Hbg).
  apply wp_bind.
  eapply wp_okspec; [apply extract_thumbnail_okspec |].
  intros online_thumb s3 evs3 Ht3 (ra & rb & ->).
  apply wp_bind.
  eapply wp_okspec; [apply extract_thumbnail_okspec |].
  intros offline_thumb s4 evs4 Ht4 (rc & rd & ->).
  apply wp_bind.
  eapply wp_okspec; [apply insert_slate_frame_okspec |].
  intros u5 s5 evs5 Ht5 (track1 & fx1 & re & rf & rg & rh & ->).
  apply wp_bind.
  eapply wp_okspec; [apply insert_slate_frame_okspec |].
  intros u6 s6 evs6 Ht6 (track2 & fx2 & ri & rj & rk & rl & ->).
  apply wp_bind.
  eapply wp_okspec; [apply get_slate_info_okspec |].
  intros slate_info s7 evs7 Ht7 (shot_entry & version_entry & today & ->).
  wp_walk.
  eapply wp_okspec; [apply generate_slate_okspec |].
  intros slate1 s8 evs8 Ht8 (path1 & rm & _ & ->).
  apply wp_bind.
  eapply wp_okspec; [apply generate_slate_okspec |].
  intros slate2 s9 evs9 Ht9 (path2 & rn & _ & ->).
  apply wp_ret. trace_done.
  exists x0, offline_master. split; [| split].
  - eexists _, _, _, _. split; [reflexivity |].
    unfold thumbnail_events, slate_frame_events, slate_info_events,
      slate_text_events.
    cbn [app]. repeat (constructor; [first [exact I | exact Hbg] |]).
    constructor.
  - exists false, online_thumb, online_bg, track1, fx1, slate1, path1.
    exists ra, rb, re, rf, rg, rh, rm.
    unfold offline_sequence_events, thumbnail_events, slate_frame_events,
      slate_info_events, slate_text_events.
    cbn [app]. sublist_walk.
  - exists true, offline_thumb, offline_bg, track2, fx2, slate2, path2.
    exists rc, rd, ri, rj, rk, rl, rn.
    unfold offline_sequence_events, thumbnail_events, slate_frame_events,
      slate_info_events, slate_text_events.
    cbn [app]. sublist_walk.
Qed.

(** ** The whole run of [build_shot_masters_from_sequence] *)

Lemma for_fold_blocks {A S} (P : A -> list Event -> Prop) (l : list A)
    (body : S -> A -> M S) :
  (forall acc x, okspec (body acc x) (fun _ evs => P x evs)) ->
  forall acc,
  okspec (for_fold l body acc)
    (fun _ evs => exists blocks, evs = concat blocks /\ Forall2 P l blocks).
Proof.
  intros Hbody. induction l as [|x l IH]; intros acc s; cbn [for_fold].
  - apply wp_ret. exists []. rewrite app_nil_r. split; [reflexivity |].
    exists []. split; [reflexivity | constructor].
  - apply wp_bind.
    eapply wp_okspec; [apply Hbody |].
    intros acc1 s1 evs1 Ht1 HP.
    eapply wp_okspec; [apply IH |].
    intros acc2 s2 evs2 Ht2 (blocks & -> & Hblocks).
    trace_done. exists (evs1 :: blocks). split; [reflexivity |].
    by constructor.
Qed.

Lemma delete_temp_folder_okspec o :
  okspec (Masters.delete_temp_folder o) (fun _ evs => evs = []).
Proof.
  intros s. unfold Masters.delete_temp_folder.
  wp_walk; exists []; by rewrite app_nil_r.
Qed.

(** The workspace of a reel group. *)
Definition workspace_of (reel_group : ref) : ref :=
  Attr (Attr reel_group "parent") "parent".

(** [get_sequences_folders]: the folders of the first library whose name
    holds [Shot Sequences], by name; or, when there is none, a new library
    of that name with a new [online] and a new [offline] folder. *)
Definition archive_fetched (reel_group : ref)
    (archive_library : dict pystr PyFolder) (evs : list Event) : Prop :=
  exists libraries,
    match List.find (fun library =>
                       py_in (lit "Shot Sequences") (library_name library))
                    libraries with
    | Some library =>
        evs = [event (CGetLibraries (workspace_of reel_group))
                     (Ok (RLibraries libraries))] /\
        archive_library =
          fold_left (fun d folder => dict_set (folder_name folder) folder d)
                    (library_folders library) []
    | None =>
        exists sequences_library online offline,
          evs = [event (CGetLibraries (workspace_of reel_group))
                       (Ok (RLibraries libraries));
                 event (CCreateLibrary (workspace_of reel_group)
                          (lit "Shot Sequences"))
                       (Ok (RObj sequences_library));
                 event (CCreateFolder (Obj sequences_library) (lit "online"))
                       (Ok (RFolder online));
                 event (CCreateFolder (Obj sequences_library) (lit "offline"))
                       (Ok (RFolder offline))] /\
          archive_library = [(lit "online", online); (lit "offline", offline)]
    end.

Lemma get_sequences_folders_okspec o reel_group :
  okspec (Masters.get_sequences_folders o reel_group)
    (archive_fetched reel_group).
Proof.
  intros s. unfold Masters.get_sequences_folders. wp_walk.
  - trace_done. exists x.
    match goal with H : List.find _ _ = _ |- _ => rewrite H end. done.
  - trace_done. exists x.
    match goal with H : List.find _ _ = _ |- _ => rewrite H end.
    eexists _, _, _. done.
Qed.

(** [export_mezzanines]: one foreground export of the reel with the
    mezzanine preset; the result is the folder of the reel below the
    chosen path. *)
Definition export_events (o : Oracle) (reel : PyReel) (path : pystr)
    (exporter : handle) (r1 r2 : Ret) : list Event :=
  [event CNewExporter (Ok (RObj exporter));
   event (CSetAttr (Obj exporter) "foreground" (ABool true)) (Ok r1);
   event (CExport exporter (Obj (reel_id reel)) (Masters.MEZZANINE_PRESET o)
            path)
         (Ok r2)].

Lemma export_mezzanines_okspec o reel path :
  okspec (Masters.export_mezzanines o reel path)
    (fun mezzanines evs =>
       mezzanines = path_join path (reel_name reel) /\
       exists exporter r1 r2, evs = export_events o reel path exporter r1 r2).
Proof.
  intros s. unfold Masters.export_mezzanines. wp_walk.
  trace_done. split; [reflexivity |]. eexists _, _, _. reflexivity.
Qed.

(** The reel group of the selected sequence: [sequence.parent.parent]. *)
Definition reel_group_of (sequence : PyObject) : ref :=
  Attr (Attr (obj_ref sequence) "parent") "parent".

(** The calls before the loop: the engine, the ShotGrid connection, the
    three reels and the offline slate background. *)
Definition setup_events (o : Oracle) (sequence : PyObject)
    (submission_name : pystr) (engine : Engine) (sg_auth shotgrid : handle)
    (temp_reel offline_reel online_reel : PyReel) (imported : list PyClip)
  : list Event :=
  [event CCurrentEngine (Ok (REngine engine));
   event CGetAuthenticatedUser (Ok (RObj sg_auth));
   event (CCreateSgConnection sg_auth) (Ok (RObj shotgrid));
   event (CCreateReel (reel_group_of sequence) (lit "slate elements"))
         (Ok (RReel temp_reel));
   event (CCreateReel (reel_group_of sequence) submission_name)
         (Ok (RReel offline_reel));
   event (CCreateReel (reel_group_of sequence)
            (py_replace (lit "comp_submissions") (lit "mti") submission_name))
         (Ok (RReel online_reel));
   event (CImportClips
            (py_replace (lit "RESOLUTION") (lit "1920x1080")
               (Masters.SLATE_BG_PATH o))
            (Obj (reel_id temp_reel)))
         (Ok (RClips imported))].

(** The calls after the destination was asked for: a message when no path
    was chosen; otherwise the export of the online and of the offline reel
    and the two scheduled closures. *)
Definition mezzanines_ending (o : Oracle) (online_reel offline_reel : PyReel)
    (archive_library : dict pystr PyFolder) (mezzanines_path : pystr)
    (ending : list Event) : Prop :=
  if negb (truthy (PyStr mezzanines_path)) then
    exists r,
      ending = [event (CShowInConsole (lit "Mezzanine export cancelled")
                         (Some (lit "error")) (Some 5)) (Ok r)]
  else
    exists exporter1 exporter2 shot_names r1 r2 r3 r4 r5 r6,
      ending =
        export_events o online_reel mezzanines_path exporter1 r1 r2
        ++ export_events o offline_reel mezzanines_path exporter2 r3 r4
        ++ [event (CScheduleIdleEvent
                     (ImportOnlineMezzanines online_reel archive_library
                        (path_join mezzanines_path (reel_name online_reel)))
                     1) (Ok r5);
            event (CScheduleIdleEvent
                     (ImportOfflineMezzanines offline_reel archive_library
                        (path_join mezzanines_path (reel_name offline_reel))
                        shot_names)
                     1) (Ok r6)].

(** The log of a run that returned with the project linked. *)
Definition build_completed (o : Oracle) (selection : list PyObject)
    (evs : list Event) : Prop :=
  exists sequence submission_name shots engine sg_auth shotgrid,
  exists temp_reel offline_reel online_reel imported blocks,
  exists archive_library library_events chosen mezzanines_path ending r1 r2,
    getitem selection 0 = Ok sequence /\
    obj_name sequence = Ok submission_name /\
    Masters.collect_sequence_segments sequence = Ok shots /\
    evs = setup_events o sequence submission_name engine sg_auth shotgrid
            temp_reel offline_reel online_reel imported
          ++ concat blocks
          ++ event (CDelete (Obj (reel_id temp_reel))) (Ok r1)
          :: library_events
          ++ event (CBrowserShow (lit "/data") true (lit "Select Destination"))
                   (Ok r2)
          :: event CBrowserSelection (Ok (RStrs chosen))
          :: ending /\
    Forall2 (shot_block o offline_reel online_reel temp_reel) shots blocks /\
    archive_fetched (reel_group_of sequence) archive_library library_events /\
    getitem chosen 0 = Ok mezzanines_path /\
    mezzanines_ending o online_reel offline_reel archive_library
      mezzanines_path ending.

Lemma build_shot_masters_okspec o selection :
  okspec (Masters.build_shot_masters_from_sequence o selection)
    (fun _ evs => linked evs -> build_completed o selection evs).
Proof.
  intros s. unfold Masters.build_shot_masters_from_sequence. wp_walk.
  { trace_done. intros [engine Hlog]. not_in_log Hlog. }
  eapply wp_okspec;
    [apply (for_fold_blocks (shot_block o x0 x1 x)); intros;
     apply build_shot_master_okspec |].
  intros vars s1 evs1 Ht1 (blocks & -> & Hblocks).
  wp_walk.
  eapply wp_okspec; [apply delete_temp_folder_okspec |].
  intros u2 s2 evs2 Ht2 ->.
  apply wp_bind.
  eapply wp_okspec; [apply get_sequences_folders_okspec |].
  intros archive_library s3 evs3 Ht3 Harchive.
  wp_walk.
  - trace_done. intros _.
    unfold build_completed.
    eexists _, _, _, _, _, _. eexists _, _, _, _, _.
    eexists _, _, _, _, _, _, _.
    split; [eassumption |]. split; [eassumption |]. split; [eassumption |].
    split; [unfold setup_events, reel_group_of; cbn [app]; reflexivity |].
    split; [exact Hblocks |]. split; [exact Harchive |].
    split; [eassumption |].
    unfold mezzanines_ending.
    match goal with H : negb _ = true |- _ => rewrite H end.
    eexists. reflexivity.
  - eapply wp_okspec; [apply export_mezzanines_okspec |].
    intros online_mezzanines s4 evs4 Ht4 (-> & ex1 & ra & rb & ->).
    apply wp_bind.
    eapply wp_okspec; [apply export_mezzanines_okspec |].
    intros offline_mezzanines s5 evs5 Ht5 (-> & ex2 & rc & rd & ->).
    wp_walk.
    trace_done. intros _.
    unfold build_completed.
    eexists _, _, _, _, _, _. eexists _, _, _, _, _.
    eexists _, _, _, _, _, _, _.
    split; [eassumption |]. split; [eassumption |]. split; [eassumption |].
    split; [unfold setup_events, reel_group_of; cbn [app]; reflexivity |].
    split; [exact Hblocks |]. split; [exact Harchive |].
    split; [eassumption |].
    unfold mezzanines_ending.
    match goal with H : negb _ = false |- _ => rewrite H end.
    eexists _, _, _, _, _, _, _, _, _. reflexivity.
Qed.

(** ** Two masters for every video segment (C4) *)











(** ** Where the mezzanines go (C6) *)

(** The claim as the specification words it: when a scheduled import runs,
    the mezzanines are imported into the library folder. *)
Definition mezzanines_imported_into_folders : Prop :=
  forall o online_reel archive_library online_mezzanines folder s,
    dict_get (lit "online") archive_library = Ok folder ->
    forall path destination out,
      event (CImportClips path destination) out
        ∈ st_trace (Masters.run_callback o
                      (ImportOnlineMezzanines online_reel archive_library
                         online_mezzanines) s).2 ->
      destination = Obj (folder_id folder).

(** The import goes into the reel: with a reel of identity 7 and an
    [online] folder of identity 9 the closure moves the sequences of the
    reel to object 9 and imports the mezzanines into object 7. *)
Lemma mezzanines_not_imported_into_folders :
  let online_reel :=
    {| reel_id := 7%nat; reel_name := lit "ep1_mti"; reel_clips := [] |} in
  let folder := {| folder_id := 9%nat; folder_name := lit "online" |} in
  let run :=
    Masters.run_callback Demo.oracle
      (ImportOnlineMezzanines online_reel [(lit "online", folder)]
         (lit "/data/out/ep1_mti")) Demo.start in
  ev_call <$> st_trace run.2
    = [CMove (Attr (Obj 7%nat) "sequences") (Obj 9%nat);
       CImportClips (lit "/data/out/ep1_mti") (Obj 7%nat)] /\
  ~ mezzanines_imported_into_folders.
Proof.
  intros online_reel folder run.
  split; [vm_compute; reflexivity |].
  intros Hclaim.
  assert (Hin : event (CImportClips (lit "/data/out/ep1_mti") (Obj 7%nat))
                       (Ok (RClips [Demo.clip 101%nat
                                      (lit "/data/out/ep1_mti") 1920 1080]))
                 ∈ st_trace run.2).
  { in_log. }
  specialize (Hclaim Demo.oracle online_reel [(lit "online", folder)]
                (lit "/data/out/ep1_mti") folder Demo.start eq_refl _ _ _ Hin).
  discriminate Hclaim.
Qed.

(** The closures, when they return: the sequences of the reel are moved
    into the folder of the archive library, and the mezzanines are imported
    into the reel. *)
Definition reimport_events (reel : PyReel) (folder : PyFolder)
    (mezzanines : pystr) (r1 r2 : Ret) : list Event :=
  [event (CMove (Attr (Obj (reel_id reel)) "sequences")
            (Obj (folder_id folder)))
         (Ok r1);
   event (CImportClips mezzanines (Obj (reel_id reel))) (Ok r2)].

Lemma run_callback_online_okspec o online_reel archive_library mezzanines :
  okspec (Masters.run_callback o
            (ImportOnlineMezzanines online_reel archive_library mezzanines))
    (fun _ evs =>
       exists folder r1 r2,
         dict_get (lit "online") archive_library = Ok folder /\
         evs = reimport_events online_reel folder mezzanines r1 r2).
Proof.
  intros s. unfold Masters.run_callback. wp_walk.
  trace_done. eexists _, _, _. split; [eassumption | reflexivity].
Qed.

(** Setting the shot name of every clip found in the offline reel. *)
Definition no_move_or_import (ev : Event) : Prop :=
  match ev_call ev with
  | CMove _ _ | CImportClips _ _ => False
  | _ => True
  end.

Lemma run_callback_offline_okspec o offline_reel archive_library mezzanines
    shot_names :
  okspec (Masters.run_callback o
            (ImportOfflineMezzanines offline_reel archive_library mezzanines
               shot_names))
    (fun _ evs =>
       exists folder r1 r2 rest,
         dict_get (lit "offline") archive_library = Ok folder /\
         evs = reimport_events offline_reel folder mezzanines r1 r2 ++ rest /\
         Forall no_move_or_import rest).
Proof.
  intros s. unfold Masters.run_callback. wp_walk.
  eapply wp_okspec.
  { apply okspec_of_spec.
    apply (every_for_each no_move_or_import). intros clip _.
    every_walk; exact I. }
  intros u1 s1 evs1 Ht1 Hrest.
  trace_done. eexists _, _, _, _. split; [eassumption |].
  split; [unfold reimport_events; cbn [app]; reflexivity |].
  constructor; [exact I | exact Hrest].
Qed.

(** What the amended C6 says of a run: its log starts with the calls that
    create the reels, the offline reel under the name of the sequence and
    the online reel under that name with [comp_submissions] replaced by
    [mti]; after the loop and the deletion of the temporary reel the
    archive folders are fetched or created; then the destination is asked
    for and, when one is chosen, these two reels are exported and the two
    closures are scheduled, the online one with the online reel and the
    offline one with the offline reel, each with the archive folders and
    the folder of its rendered mezzanines. *)
Definition mezzanines_scheduled (o : Oracle) (selection : list PyObject)
    (evs : list Event) : Prop :=
  exists sequence submission_name engine sg_auth shotgrid,
  exists temp_reel offline_reel online_reel imported loop r1,
  exists archive_library library_events r2 chosen mezzanines_path ending,
    getitem selection 0 = Ok sequence /\
    obj_name sequence = Ok submission_name /\
    evs = setup_events o sequence submission_name engine sg_auth shotgrid
            temp_reel offline_reel online_reel imported
          ++ loop
          ++ event (CDelete (Obj (reel_id temp_reel))) (Ok r1)
          :: library_events
          ++ event (CBrowserShow (lit "/data") true (lit "Select Destination"))
                   (Ok r2)
          :: event CBrowserSelection (Ok (RStrs chosen))
          :: ending /\
    archive_fetched (reel_group_of sequence) archive_library library_events /\
    getitem chosen 0 = Ok mezzanines_path /\
    mezzanines_ending o online_reel offline_reel archive_library
      mezzanines_path ending.

(** C6, amended. On a run that returns with the project linked, the folders
    of the [Shot Sequences] library are fetched, or the library is created
    with an [online] and an [offline] folder when there is none; when a
    destination is chosen the online and the offline reel, as the run
    created them, are exported and two closures are scheduled, each with
    its own reel.  A closure that returns has moved the
    sequences of its reel into the [online], respectively [offline], folder
    and has imported the rendered mezzanines into the reel itself (the
    offline one then sets shot names on the clips of the reel). *)
Theorem mezzanines_reimported_into_reels (o : Oracle) :
  (forall selection s s' evs,
      Masters.build_shot_masters_from_sequence o selection s = (Ok tt, s') ->
      st_trace s' = st_trace s ++ evs ->
      linked evs ->
      mezzanines_scheduled o selection evs) /\
  (forall online_reel archive_library mezzanines s s',
      Masters.run_callback o
        (ImportOnlineMezzanines online_reel archive_library mezzanines) s
        = (Ok tt, s') ->
      exists folder r1 r2,
        dict_get (lit "online") archive_library = Ok folder /\
        st_trace s' = st_trace s
                      ++ reimport_events online_reel folder mezzanines r1 r2) /\
  (forall offline_reel archive_library mezzanines shot_names s s',
      Masters.run_callback o
        (ImportOfflineMezzanines offline_reel archive_library mezzanines
           shot_names) s
        = (Ok tt, s') ->
      exists folder r1 r2 rest,
        dict_get (lit "offline") archive_library = Ok folder /\
        st_trace s' = st_trace s
                      ++ reimport_events offline_reel folder mezzanines r1 r2
                      ++ rest /\
        Forall no_move_or_import rest).
Proof.
  split; [| split].
  - intros selection s s' evs Hrun Htrace Hlinked.
    destruct (okspec_run _ _ _ _ _ (build_shot_masters_okspec o selection)
                Hrun) as (evs' & Htrace' & Hdone).
    rewrite Htrace in Htrace'. apply app_inv_head in Htrace' as <-.
    destruct (Hdone Hlinked)
      as (sequence & name & shots & engine & sg_auth & shotgrid & temp_reel
          & offline_reel & online_reel & imported & blocks & archive
          & library_events & chosen & path & ending & r1 & r2
          & Hsel & Hname & Hshots & -> & Hblocks & Harchive & Hpath
          & Hending).
    exists sequence, name, engine, sg_auth, shotgrid.
    exists temp_reel, offline_reel, online_reel, imported, (concat blocks), r1.
    exists archive, library_events, r2, chosen, path, ending.
    done.
  - intros online_reel archive mezzanines s s' Hrun.
    destruct (okspec_run _ _ _ _ _
                (run_callback_online_okspec o online_reel archive mezzanines)
                Hrun) as (evs & Ht & folder & r1 & r2 & Hfolder & ->).
    by exists folder, r1, r2.
  - intros offline_reel archive mezzanines shot_names s s' Hrun.
    destruct (okspec_run _ _ _ _ _
                (run_callback_offline_okspec o offline_reel archive
                   mezzanines shot_names)
                Hrun)
      as (evs & Ht & folder & r1 & r2 & rest & Hfolder & -> & Hrest).
    by exists folder, r1, r2, rest.
Qed.


Lemma mezzanines_reimported_into_reels_witness :
  let run := Masters.build_shot_masters_from_sequence Demo.oracle
               [ObjSequence Demo.sequence] Demo.start in
  run = (Ok tt, run.2) /\ linked (st_trace run.2) /\
  mezzanines_scheduled Demo.oracle [ObjSequence Demo.sequence]
    (st_trace run.2).
Proof.
  intros run.
  assert (Hreturns : run.1 = Ok tt) by (vm_compute; reflexivity).
  assert (Hrun : run = (Ok tt, run.2))
    by (rewrite <- Hreturns; apply surjective_pairing).
  assert (Htrace : st_trace run.2 = st_trace Demo.start ++ st_trace run.2)
    by (vm_compute; reflexivity).
  assert (Hlinked : linked (st_trace run.2)).
  { exists {| engine_project := Demo.project |}. in_log. }
  split; [exact Hrun |]. split; [exact Hlinked |].
  exact (proj1 (mezzanines_reimported_into_reels Demo.oracle)
           [ObjSequence Demo.sequence] Demo.start run.2 (st_trace run.2)
           Hrun Htrace Hlinked).
Defined.

(** ** Token substitution (C2) *)

(** The value [replace_token] works with: a value that is false ([None] or
    the empty string) is shown as one blank. *)
Definition shown (value : pyval) : pystr :=
  if negb (truthy value) then lit " "
  else match value with PyStr s => s | PyNone => [] end.

(** The two lines [replace_token] computes for a matching text line. *)
Definition substituted (token : pystr) (value : pyval) (line : pystr)
  : pystr :=
  py_replace (Masters.ascii_convert token)
    (Masters.ascii_convert (shown value)) line.

Definition text_length (value : pyval) : pystr :=
  lit "TextLength " ++ str_int (len (shown value)) ++ [10%N].

(** A line of the template that starts with [Text] and holds the code points
    of the token. *)
Definition holds_token (token line : pystr) : Prop :=
  startswith (lit "Text") line = true /\
  py_in (Masters.ascii_convert token) line = true.

(** Line [i] of the template holds the token of the [k]-th pair. *)
Definition hit (setup : list pystr) (slate_info : dict pystr pyval)
    (k i : nat) : Prop :=
  exists token value line,
    slate_info !! k = Some (token, value) /\
    setup !! i = Some line /\ holds_token token line.

(** ** Dictionaries and item assignment *)

Lemma dict_set_entries {K V} `{EqDecision K} (k : K) (v : V) (d : dict K V)
    k' v' :
  (k', v') ∈ dict_set k v d -> (k' = k /\ v' = v) \/ (k', v') ∈ d.
Proof.
  induction d as [|[k0 v0] d IH]; cbn.
  - intros Hin%list_elem_of_singleton. left. by inversion Hin.
  - destruct (decide (k0 = k)) as [->|Hne].
    + intros [Hin|Hin]%elem_of_cons.
      * left. by inversion Hin.
      * right. by apply list_elem_of_further.
    + intros [Hin|Hin]%elem_of_cons.
      * right. rewrite Hin. apply list_elem_of_here.
      * destruct (IH Hin) as [?|?]; [by left |].
        right. by apply list_elem_of_further.
Qed.

Lemma dict_set_keys {K V} `{EqDecision K} (k : K) (v : V) (d : dict K V) k' :
  k' ∈ (dict_set k v d).*1 <-> k' = k \/ k' ∈ d.*1.
Proof.
  induction d as [|[k0 v0] d IH]; cbn.
  - rewrite list_elem_of_singleton. rewrite elem_of_nil. tauto.
  - destruct (decide (k0 = k)) as [->|Hne]; cbn.
    + rewrite !elem_of_cons. tauto.
    + rewrite !elem_of_cons, IH. tauto.
Qed.

Lemma setitem_in_range {A} (l : list A) (i : nat) (x : A) :
  (i < length l)%nat -> setitem l (Z.of_nat i) x = Ok (<[i := x]> l).
Proof.
  intros Hi. unfold setitem, len.
  replace (Z.of_nat i <? 0) with false by (symmetry; apply Z.ltb_ge; lia).
  replace (0 <=? Z.of_nat i) with true by (symmetry; apply Z.leb_le; lia).
  replace (Z.of_nat i <? Z.of_nat (length l)) with true
    by (symmetry; apply Z.ltb_lt; lia).
  cbn. by rewrite Nat2Z.id.
Qed.

(** [update_setup] with indices inside the list: the length is kept, a line
    whose index is no key is kept, and a line whose index is a key holds one
    of the values the dict has for it. *)
Lemma update_setup_spec (new_lines : dict Z pystr) :
  forall setup : list pystr,
    (forall k, k ∈ new_lines.*1 -> 0 <= k < Z.of_nat (length setup)) ->
    exists setup',
      Masters.update_setup setup new_lines = Ok setup' /\
      length setup' = length setup /\
      forall j : nat,
        (Z.of_nat j ∉ new_lines.*1 -> setup' !! j = setup !! j) /\
        (Z.of_nat j ∈ new_lines.*1 ->
         exists v, (Z.of_nat j, v) ∈ new_lines /\ setup' !! j = Some v).
Proof.
  unfold Masters.update_setup.
  induction new_lines as [|[k v] d IH]; intros setup Hrange.
  - exists setup. cbn. split; [reflexivity |]. split; [reflexivity |].
    intros j. split; [reflexivity |]. by intros ?%elem_of_nil.
  - assert (Hk : 0 <= k < Z.of_nat (length setup))
      by (apply Hrange; cbn; apply list_elem_of_here).
    assert (Hset : setitem setup k v = Ok (<[Z.to_nat k := v]> setup)).
    { rewrite <- (Z2Nat.id k) at 1 by lia. apply setitem_in_range. lia. }
    destruct (IH (<[Z.to_nat k := v]> setup)) as (setup' & Hrun & Hlen & Hl).
    { intros k' Hk'. rewrite length_insert. apply Hrange. cbn.
      by apply list_elem_of_further. }
    exists setup'. cbn [rfold]. rewrite Hset. cbn [rbind].
    split; [exact Hrun |].
    split; [by rewrite Hlen, length_insert |].
    intros j. destruct (Hl j) as [Hout Hin]. split.
    + intros Hj. cbn in Hj. rewrite elem_of_cons in Hj.
      rewrite Hout by tauto.
      apply list_lookup_insert_ne. intros <-. apply Hj. left. lia.
    + intros Hj. cbn in Hj. rewrite elem_of_cons in Hj.
      destruct (decide (Z.of_nat j ∈ d.*1)) as [Hd|Hd].
      * destruct (Hin Hd) as (v' & Hv' & Hlook).
        exists v'. split; [by apply list_elem_of_further | exact Hlook].
      * destruct Hj as [Hj|Hj]; [| contradiction].
        exists v. split; [rewrite Hj; apply list_elem_of_here |].
        rewrite (Hout Hd). subst k. rewrite Nat2Z.id.
        apply list_lookup_insert_eq. lia.
Qed.

(** ** The lines [replace_token] returns *)

(** The text lines are the lines of the template that start with [Text],
    under their line numbers. *)
Lemma text_lines_of_entries (setup : list pystr) (index : Z) (line : pystr) :
  (index, line) ∈ Masters.text_lines_of setup <->
  exists i : nat, index = Z.of_nat i /\ setup !! i = Some line /\
                  startswith (lit "Text") line = true.
Proof.
  unfold Masters.text_lines_of, enumerate.
  rewrite list_elem_of_filter, elem_of_lookup_imap. split.
  - intros (Hstart & i & line' & Heq & Hi). inversion Heq; subst. eauto.
  - intros (i & -> & Hi & Hstart). eauto.
Qed.

Section NewLines.
Variables (pattern replacement length_line : pystr).

Let step (new_lines : dict Z pystr) (entry : Z * pystr) : dict Z pystr :=
  let '(index, line) := entry in
  if py_in pattern line then
    dict_set (index - 1) length_line
      (dict_set index (py_replace pattern replacement line) new_lines)
  else new_lines.

Lemma new_lines_entries text_lines : forall d0 k v,
  (k, v) ∈ fold_left step text_lines d0 ->
  (k, v) ∈ d0 \/
  exists index line,
    (index, line) ∈ text_lines /\ py_in pattern line = true /\
    ((k = index /\ v = py_replace pattern replacement line) \/
     (k = index - 1 /\ v = length_line)).
Proof.
  induction text_lines as [|[index line] tl IH]; intros d0 k v; cbn.
  - by left.
  - intros [Hin|(index' & line' & Hin & Hp & Hcase)]%IH.
    + destruct (py_in pattern line) eqn:Hp; [| by left].
      apply dict_set_entries in Hin as [[-> ->]|Hin].
      { right. exists index, line.
        split; [apply list_elem_of_here |]. split; [exact Hp |]. by right. }
      apply dict_set_entries in Hin as [[-> ->]|Hin]; [| by left].
      right. exists index, line.
      split; [apply list_elem_of_here |]. split; [exact Hp |]. by left.
    + right. exists index', line'.
      split; [by apply list_elem_of_further |]. by split.
Qed.

Lemma new_lines_keys text_lines : forall d0 k,
  k ∈ (fold_left step text_lines d0).*1 <->
  k ∈ d0.*1 \/
  exists index line,
    (index, line) ∈ text_lines /\ py_in pattern line = true /\
    (k = index \/ k = index - 1).
Proof.
  induction text_lines as [|[index line] tl IH]; intros d0 k; cbn.
  - split; [by left |]. intros [?|(? & ? & []%elem_of_nil & _)]. done.
  - rewrite IH. split.
    + intros [Hin|(index' & line' & Hin & Hp & Hcase)].
      * destruct (py_in pattern line) eqn:Hp; [| by left].
        rewrite !dict_set_keys in Hin.
        destruct Hin as [->|[->|Hin]]; [| | by left].
        -- right. exists index, line.
           split; [apply list_elem_of_here |]. split; [exact Hp |].
           by right.
        -- right. exists index, line.
           split; [apply list_elem_of_here |]. split; [exact Hp |].
           by left.
      * right. exists index', line'.
        split; [by apply list_elem_of_further |]. by split.
    + intros [Hin|(index' & line' & Hin & Hp & Hcase)].
      * left. destruct (py_in pattern line); [| exact Hin].
        rewrite !dict_set_keys. tauto.
      * apply elem_of_cons in Hin as [Heq|Hin].
        -- inversion Heq; subst. left. rewrite Hp.
           rewrite !dict_set_keys. tauto.
        -- right. exists index', line'. by split.
Qed.
End NewLines.

(** The entries of [replace_token]: each belongs to a text line that holds
    the pattern, and is either the line with the pattern replaced, under the
    number of the line, or the [TextLength] line, under the number before. *)
Lemma replace_token_entries token value (setup : list pystr) k v :
  (k, v) ∈ Masters.replace_token token value (Masters.text_lines_of setup) ->
  exists (i : nat) line,
    setup !! i = Some line /\ holds_token token line /\
    ((k = Z.of_nat i /\ v = substituted token value line) \/
     (k = Z.of_nat i - 1 /\ v = text_length value)).
Proof.
  intros Hin. apply new_lines_entries in Hin
    as [[]%elem_of_nil|(index & line & Htl & Hp & Hcase)].
  apply text_lines_of_entries in Htl as (i & -> & Hi & Hstart).
  exists i, line. split; [exact Hi |]. split; [by split |]. exact Hcase.
Qed.

Lemma replace_token_keys token value (setup : list pystr) k :
  k ∈ (Masters.replace_token token value (Masters.text_lines_of setup)).*1 <->
  exists (i : nat) line,
    setup !! i = Some line /\ holds_token token line /\
    (k = Z.of_nat i \/ k = Z.of_nat i - 1).
Proof.
  unfold Masters.replace_token. rewrite new_lines_keys. split.
  - intros [[]%elem_of_nil|(index & line & Htl & Hp & Hcase)].
    apply text_lines_of_entries in Htl as (i & -> & Hi & Hstart).
    exists i, line. split; [exact Hi |]. split; [by split |]. exact Hcase.
  - intros (i & line & Hi & [Hstart Hp] & Hcase). right.
    exists (Z.of_nat i), line. split; [| by split].
    apply text_lines_of_entries. eauto.
Qed.

(** ** The token loop *)

(** A template is laid out for its pairs when no line is written twice: a
    line that holds a token is not the first line, holds the token of one
    pair only, and is not directly followed by a line that holds a token. *)
Definition tidy (setup : list pystr) (slate_info : dict pystr pyval) : Prop :=
  (forall k, ~ hit setup slate_info k 0) /\
  (forall k1 k2 i,
      hit setup slate_info k1 i -> hit setup slate_info k2 i -> k1 = k2) /\
  (forall k1 k2 i,
      hit setup slate_info k1 i -> ~ hit setup slate_info k2 (S i)).

(** No pair concerns line [j]: neither the line nor the next holds a token. *)
Definition untouched (setup : list pystr) (slate_info : dict pystr pyval)
    (j : nat) : Prop :=
  forall k, ~ hit setup slate_info k j /\ ~ hit setup slate_info k (S j).

Lemma hit_head setup token value slate_info i line :
  setup !! i = Some line -> holds_token token line ->
  hit setup ((token, value) :: slate_info) 0 i.
Proof. intros Hi Hh. by exists token, value, line. Qed.

Lemma hit_tail setup item slate_info k i :
  hit setup slate_info k i -> hit setup (item :: slate_info) (S k) i.
Proof. by intros H. Qed.

Lemma tidy_tail setup item slate_info :
  tidy setup (item :: slate_info) -> tidy setup slate_info.
Proof.
  intros (Hfirst & Hone & Hnext). split; [| split].
  - intros k Hk. by apply (Hfirst (S k)), hit_tail.
  - intros k1 k2 i H1 H2.
    assert (S k1 = S k2) by (by apply (Hone _ _ i); apply hit_tail).
    congruence.
  - intros k1 k2 i H1 H2.
    by apply (Hnext (S k1) (S k2) i); apply hit_tail.
Qed.

Lemma fill_loop (setup : list pystr) : forall slate_info,
  tidy setup slate_info ->
  forall cur : list pystr,
    length cur = length setup ->
    exists filled,
      rfold (fun slate_setup '(token, value) =>
               let new_lines :=
                 Masters.replace_token token value
                   (Masters.text_lines_of setup) in
               Masters.update_setup slate_setup new_lines)
            slate_info cur = Ok filled /\
      length filled = length setup /\
      (forall k token value i line,
          slate_info !! k = Some (token, value) ->
          setup !! i = Some line -> holds_token token line ->
          filled !! i = Some (substituted token value line) /\
          filled !! pred i = Some (text_length value)) /\
      (forall j, untouched setup slate_info j -> filled !! j = cur !! j).
Proof.
  induction slate_info as [|[token value] l IH]; intros Htidy cur Hlen.
  { exists cur. cbn. split; [reflexivity |]. split; [exact Hlen |].
    split; [intros k ? ? ? ? Hk; by destruct k | done]. }
  pose proof Htidy as (Hfirst & Hone & Hnext).
  set (d := Masters.replace_token token value (Masters.text_lines_of setup)).
  destruct (update_setup_spec d cur) as (cur1 & Hrun1 & Hlen1 & Hl1).
  { intros k (i & line & Hi & Hh & Hcase)%replace_token_keys.
    pose proof (lookup_lt_Some _ _ _ Hi) as Hlt.
    assert (i <> 0%nat).
    { intros ->. apply (Hfirst 0%nat). by eapply hit_head. }
    rewrite Hlen. lia. }
  destruct (IH (tidy_tail _ _ _ Htidy) cur1)
    as (filled & Hrun & Hlenf & Hhit & Hkeep).
  { by rewrite Hlen1. }
  exists filled. cbn [rfold]. fold d. rewrite Hrun1. cbn [rbind].
  split; [exact Hrun |]. split; [exact Hlenf |]. split.
  - intros [|k] token' value' i line Hk Hi Hh; [| by eapply Hhit].
    cbn in Hk. inversion Hk; subst token' value'. clear Hk.
    pose proof (hit_head setup token value l i line Hi Hh) as Hhead.
    assert (Hi0 : i <> 0%nat) by (intros ->; by apply (Hfirst 0%nat)).
    split.
    + rewrite Hkeep.
      2:{ intros k. split; intros Hk%(hit_tail _ (token, value)).
          - by pose proof (Hone _ _ _ Hhead Hk).
          - by apply (Hnext _ _ _ Hhead Hk). }
      destruct (proj2 (Hl1 i)) as (v & Hv & ->).
      { apply replace_token_keys. exists i, line. auto. }
      apply replace_token_entries in Hv
        as (i' & line' & Hi' & Hh' & [[Heq ->]|[Heq ->]]).
      * apply Nat2Z.inj in Heq. subst i'. congruence.
      * exfalso. apply (Hnext 0%nat 0%nat i Hhead).
        replace (S i) with i' by lia. by eapply hit_head.
    + rewrite Hkeep.
      2:{ intros k. split; intros Hk%(hit_tail _ (token, value)).
          - apply (Hnext _ 0%nat _ Hk). by replace (S (pred i)) with i by lia.
          - replace (S (pred i)) with i in Hk by lia.
            by pose proof (Hone _ _ _ Hhead Hk). }
      destruct (proj2 (Hl1 (pred i))) as (v & Hv & ->).
      { apply replace_token_keys. exists i, line.
        split; [exact Hi |]. split; [exact Hh |]. right. lia. }
      apply replace_token_entries in Hv
        as (i' & line' & Hi' & Hh' & [[Heq ->]|[Heq ->]]).
      * exfalso.
        apply (Hnext 0%nat 0%nat i' (hit_head _ _ value l _ _ Hi' Hh')).
        by replace (S i') with i by lia.
      * reflexivity.
  - intros j Hj. rewrite Hkeep.
    2:{ intros k. destruct (Hj (S k)) as [H1 H2].
        split; intros Hk%(hit_tail _ (token, value)); tauto. }
    apply (proj1 (Hl1 j)).
    intros (i & line & Hi & Hh & Hcase)%replace_token_keys.
    destruct (Hj 0%nat) as [H1 H2].
    pose proof (hit_head setup token value l i line Hi Hh) as Hhead.
    destruct Hcase as [Heq|Heq].
    + apply Nat2Z.inj in Heq. by subst.
    + apply H2. by replace (S j) with i by lia.
Qed.

(** The layout can be checked by running over the pairs and the lines. *)
Definition hitb (setup : list pystr) (slate_info : dict pystr pyval)
    (k i : nat) : bool :=
  match slate_info !! k, setup !! i with
  | Some (token, _), Some line =>
      startswith (lit "Text") line
      && py_in (Masters.ascii_convert token) line
  | _, _ => false
  end.

Definition tidyb (setup : list pystr) (slate_info : dict pystr pyval) : bool :=
  forallb (fun k1 =>
             negb (hitb setup slate_info k1 0)
             && forallb (fun i =>
                  negb (hitb setup slate_info k1 i)
                  || forallb (fun k2 =>
                       (negb (hitb setup slate_info k2 i) || (k1 =? k2)%nat)
                       && negb (hitb setup slate_info k2 (S i)))
                     (seq 0 (length slate_info)))
                (seq 0 (length setup)))
          (seq 0 (length slate_info)).

Lemma hit_hitb setup slate_info k i :
  hit setup slate_info k i ->
  hitb setup slate_info k i = true /\
  In k (seq 0 (length slate_info)) /\ In i (seq 0 (length setup)).
Proof.
  intros (token & value & line & Hk & Hi & Hstart & Hp).
  unfold hitb. rewrite Hk, Hi, Hstart, Hp. split; [reflexivity |].
  apply lookup_lt_Some in Hk, Hi. rewrite !in_seq. lia.
Qed.

Lemma tidyb_tidy setup slate_info :
  tidyb setup slate_info = true -> tidy setup slate_info.
Proof.
  unfold tidyb. rewrite forallb_forall. intros Hb.
  assert (Hpair : forall k1 k2 i,
             hit setup slate_info k1 i ->
             In k2 (seq 0 (length slate_info)) ->
             (negb (hitb setup slate_info k2 i) || (k1 =? k2)%nat)
             && negb (hitb setup slate_info k2 (S i)) = true).
  { intros k1 k2 i (Hb1 & Hk1 & Hi)%hit_hitb Hk2.
    apply Hb in Hk1 as [_ Hlines]%andb_prop.
    rewrite forallb_forall in Hlines. specialize (Hlines i Hi).
    rewrite Hb1 in Hlines. cbn in Hlines.
    rewrite forallb_forall in Hlines. by apply Hlines. }
  split; [| split].
  - intros k (Hbk & Hk & _)%hit_hitb.
    apply Hb in Hk as [Hfirst _]%andb_prop. by rewrite Hbk in Hfirst.
  - intros k1 k2 i H1 (Hb2 & Hk2 & _)%hit_hitb.
    specialize (Hpair k1 k2 i H1 Hk2). rewrite Hb2 in Hpair.
    apply andb_prop in Hpair as [Heq _]. by apply Nat.eqb_eq.
  - intros k1 k2 i H1 H2.
    assert (Hk2 : In k2 (seq 0 (length slate_info))).
    { destruct H2 as (? & ? & ? & Hk%lookup_lt_Some & _).
      rewrite in_seq. lia. }
    specialize (Hpair k1 k2 i H1 Hk2).
    apply hit_hitb in H2 as (Hb2 & _). rewrite Hb2 in Hpair.
    apply andb_prop in Hpair as [_ Hno]. discriminate Hno.
Qed.

(** The layout matters.  The text lines are read once, before the loop, so
    on a line that holds two tokens the line written for the second pair
    starts again from the template; and the line before the first line is,
    for Python, the last one. *)
Example two_tokens_on_a_line :
  Masters.fill_slate_setup
    [lit "TextLength 7" ++ [10%N]; lit "Text 60 65 62 32 60 66 62" ++ [10%N]]
    [(lit "<A>", PyStr (lit "x")); (lit "<B>", PyStr (lit "y"))]
  = Ok [lit "TextLength 1" ++ [10%N]; lit "Text 60 65 62 32 121" ++ [10%N]].
Proof. vm_compute; reflexivity. Qed.

Example token_on_the_first_line :
  Masters.fill_slate_setup
    [lit "Text 60 65 62" ++ [10%N]; lit "FontSize 40" ++ [10%N]]
    [(lit "<A>", PyStr (lit "x"))]
  = Ok [lit "Text 120" ++ [10%N]; lit "TextLength 1" ++ [10%N]].
Proof. vm_compute; reflexivity. Qed.

(** ** The claim (C2) *)

(** The claim as the specification words it: the pattern is replaced by the
    code points of the value, and the line before is set to the length of
    the value. *)
Definition substitution_as_stated : Prop :=
  forall setup slate_info filled,
    Masters.fill_slate_setup setup slate_info = Ok filled ->
    forall token value (i : nat) line,
      (token, PyStr value) ∈ slate_info ->
      setup !! i = Some line -> holds_token token line ->
      filled !! i
        = Some (py_replace (Masters.ascii_convert token)
                  (Masters.ascii_convert value) line) /\
      filled !! pred i
        = Some (lit "TextLength " ++ str_int (len value) ++ [10%N]).

(** An empty value is written as one blank: with [<CODE>] mapped to the
    empty string the text line becomes [Text 32] and the line before it
    [TextLength 1], where the claim asks for [Text ] and [TextLength 0]. *)
Lemma empty_value_written_as_blank :
  let setup := py_readlines Demo.template in
  let slate_info := [(lit "<CODE>", PyStr [])] in
  tidyb setup slate_info = true /\
  Masters.fill_slate_setup setup slate_info
    = Ok [lit "FontSize 40" ++ [10%N];
          lit "TextLength 1" ++ [10%N];
          lit "Text 32" ++ [10%N];
          lit "TextLength 7" ++ [10%N];
          lit "Text 60 78 79 84 69 83 62" ++ [10%N]] /\
  ~ substitution_as_stated.
Proof.
  intros setup slate_info.
  assert (Hrun : Masters.fill_slate_setup setup slate_info
                 = Ok [lit "FontSize 40" ++ [10%N];
                       lit "TextLength 1" ++ [10%N];
                       lit "Text 32" ++ [10%N];
                       lit "TextLength 7" ++ [10%N];
                       lit "Text 60 78 79 84 69 83 62" ++ [10%N]])
    by (vm_compute; reflexivity).
  split; [vm_compute; reflexivity |]. split; [exact Hrun |].
  intros Hclaim.
  destruct (Hclaim setup slate_info _ Hrun (lit "<CODE>") [] 2%nat
              (lit "Text 60 67 79 68 69 62" ++ [10%N])) as [Hline _].
  - apply list_elem_of_here.
  - vm_compute; reflexivity.
  - split; vm_compute; reflexivity.
  - vm_compute in Hline. discriminate Hline.
Qed.

(** C2, amended. Token substitution in [generate_slate] is search and
    replace over the code points of the template, read from the disk in
    text mode (a carriage return, alone or before a line feed, is read as a
    line feed), and the lines it yields are what is written to the setup
    file of the shot in the temporary folder.  On a template
    where no line is written twice (a line that starts with [Text] and holds
    the code points of a token is not the first line, holds the token of one
    pair only, and is not directly followed by another such line), the loop
    returns as many lines as it was given, and for every (token, value) pair
    of the slate info, a value that is [None] or empty counting as one
    blank: on every line that starts with [Text] and holds the code points
    of the token, these are replaced by the code points of the value, and
    the line before is set to [TextLength] and the length of the value; a
    line that neither holds a token nor precedes one that does is kept. *)
Theorem token_substitution :
  (forall setup slate_info,
      tidy setup slate_info ->
      exists filled,
        Masters.fill_slate_setup setup slate_info = Ok filled /\
        length filled = length setup /\
        (forall token value (i : nat) line,
            (token, value) ∈ slate_info ->
            setup !! i = Some line ->
            startswith (lit "Text") line = true ->
            py_in (Masters.ascii_convert token) line = true ->
            filled !! i
              = Some (py_replace (Masters.ascii_convert token)
                        (Masters.ascii_convert (shown value)) line) /\
            filled !! pred i
              = Some (lit "TextLength " ++ str_int (len (shown value))
                      ++ [10%N])) /\
        (forall j, untouched setup slate_info j ->
                   filled !! j = setup !! j)) /\
  (forall o shot_sequence slate_info s slate s',
      Masters.generate_slate o shot_sequence slate_info s = (Ok slate, s') ->
      exists resolution template filled path,
        dict_get (lit "<RESOLUTION>") slate_info = Ok (PyStr resolution) /\
        st_fs s !! py_replace (lit "RESOLUTION") resolution
                     (Masters.SLATE_TEMPLATE_PATH o)
          = Some (File template) /\
        Masters.fill_slate_setup (py_readlines template) slate_info
          = Ok filled /\
        slate_setup_path o slate_info = Ok path /\
        st_fs s' !! path = Some (File (concat filled))).
Proof.
  split.
  - intros setup slate_info Htidy.
    destruct (fill_loop setup slate_info Htidy setup eq_refl)
      as (filled & Hrun & Hlen & Hhit & Hkeep).
    exists filled. split; [exact Hrun |]. split; [exact Hlen |].
    split; [| exact Hkeep].
    intros token value i line [k Hk]%list_elem_of_lookup_1 Hi Hstart Hp.
    by apply (Hhit k token value i line).
  - intros o shot_sequence slate_info s slate s' Hrun.
    pose proof (generate_slate_wp o shot_sequence slate_info s
                  (fun _ s' =>
                     exists resolution template filled path,
                       dict_get (lit "<RESOLUTION>") slate_info
                         = Ok (PyStr resolution) /\
                       st_fs s !! py_replace (lit "RESOLUTION") resolution
                                    (Masters.SLATE_TEMPLATE_PATH o)
                         = Some (File template) /\
                       Masters.fill_slate_setup (py_readlines template)
                         slate_info = Ok filled /\
                       slate_setup_path o slate_info = Ok path /\
                       st_fs s' !! path = Some (File (concat filled))))
      as Hwp.
    unfold wp in Hwp. rewrite Hrun in Hwp. apply Hwp.
    intros slate0 s0 resolution template filled path r H1 H2 H3 H4 H5 _.
    by exists resolution, template, filled, path.
Qed.

Lemma token_substitution_witness :
  let setup := py_readlines Demo.template in
  let slate_info := [(lit "<CODE>", PyStr (lit "sh010"));
                     (lit "<NOTES>", PyNone)] in
  tidy setup slate_info /\
  exists filled,
    Masters.fill_slate_setup setup slate_info = Ok filled /\
    filled !! 1%nat = Some (lit "TextLength 5" ++ [10%N]) /\
    filled !! 2%nat = Some (lit "Text 115 104 48 49 48" ++ [10%N]) /\
    filled !! 3%nat = Some (lit "TextLength 1" ++ [10%N]) /\
    filled !! 4%nat = Some (lit "Text 32" ++ [10%N]).
Proof.
  intros setup slate_info.
  assert (Htidy : tidy setup slate_info)
    by (apply tidyb_tidy; vm_compute; reflexivity).
  split; [exact Htidy |].
  destruct (proj1 token_substitution setup slate_info Htidy)
    as (filled & Hrun & _ & Hhit & _).
  exists filled. split; [exact Hrun |].
  destruct (Hhit (lit "<CODE>") (PyStr (lit "sh010")) 2%nat
              (lit "Text 60 67 79 68 69 62" ++ [10%N]))
    as [Hcode Hcode_length];
    [apply list_elem_of_here | vm_compute; reflexivity ..|].
  destruct (Hhit (lit "<NOTES>") PyNone 4%nat
              (lit "Text 60 78 79 84 69 83 62" ++ [10%N]))
    as [Hnotes Hnotes_length];
    [apply list_elem_of_further, list_elem_of_here
    | vm_compute; reflexivity ..|].
  split; [etrans; [exact Hcode_length | vm_compute; reflexivity] |].
  split; [etrans; [exact Hcode | vm_compute; reflexivity] |].
  split; [etrans; [exact Hnotes_length | vm_compute; reflexivity] |].
  etrans; [exact Hnotes | vm_compute; reflexivity].
Defined.

(** * Further properties of the two scripts *)

(** ** Strings: prefixes, occurrences and [replace] *)

Lemma startswith_prefix (p s : pystr) :
  startswith p s = true <-> exists r, s = p ++ r.
Proof.
  revert s. induction p as [|a p IH]; intros s; cbn.
  - split; [intros _; by exists s | done].
  - destruct s as [|b s].
    + split; [done | intros [r Hr]; discriminate].
    + rewrite andb_true_iff, N.eqb_eq, IH. split.
      * intros [-> [r ->]]. by exists r.
      * intros [r [= -> ->]]. split; [done | by exists r].
Qed.

Lemma py_in_occurs (p s : pystr) :
  py_in p s = true <-> exists a b, s = a ++ p ++ b.
Proof.
  split.
  - induction s as [|c s IH]; cbn; rewrite orb_true_iff.
    + intros [H|H]; [| done].
      apply startswith_prefix in H as [r Hr]. by exists [], r.
    + intros [H|H].
      * apply startswith_prefix in H as [r Hr]. by exists [], r.
      * destruct (IH H) as (a & b & ->). by exists (c :: a), b.
  - intros (a & b & ->). induction a as [|c a IH].
    + assert (H : startswith p (p ++ b) = true)
        by (apply startswith_prefix; by exists b).
      cbn [app]. destruct (p ++ b); cbn; by rewrite H.
    + cbn. rewrite IH. apply orb_true_r.
Qed.

Lemma replace_from_skip (old new x r : pystr) :
  replace_from old new (x ++ r) (length x) = replace_from old new r 0.
Proof.
  induction x as [|c x IH]; [| exact IH].
  cbn. by destruct r.
Qed.

(** Where [old] starts, [replace] puts [new] and goes on behind the match. *)
Lemma py_replace_match (old new r : pystr) :
  old <> [] -> py_replace old new (old ++ r) = new ++ py_replace old new r.
Proof.
  destruct old as [|c old]; [done |]. intros _.
  unfold py_replace. cbn [app replace_from].
  assert (H : startswith (c :: old) (c :: old ++ r) = true)
    by (apply startswith_prefix; by exists r).
  rewrite H. f_equal. cbn [length]. rewrite Nat.sub_1_r. cbn [Nat.pred].
  apply replace_from_skip.
Qed.

(** Elsewhere it copies the character. *)
Lemma py_replace_copy (old new : pystr) (c : char) (s : pystr) :
  old <> [] -> startswith old (c :: s) = false ->
  py_replace old new (c :: s) = c :: py_replace old new s.
Proof.
  destruct old as [|c0 old]; [done |]. intros _ H.
  unfold py_replace. cbn [replace_from]. by rewrite H.
Qed.

(** No occurrence of [old] in [p ++ r] starts inside [p]. *)
Definition clear_of (old p r : pystr) : Prop :=
  forall a b, p = a ++ b -> b <> [] -> startswith old (b ++ r) = false.

Lemma py_replace_clear (old new p r : pystr) :
  old <> [] -> clear_of old p r ->
  py_replace old new (p ++ r) = p ++ py_replace old new r.
Proof.
  intros Hold. induction p as [|c p IH]; intros Hclear; [reflexivity |].
  cbn [app]. rewrite py_replace_copy; [| done |].
  - f_equal. apply IH. intros a b -> Hb. by apply (Hclear (c :: a) b).
  - by apply (Hclear [] (c :: p)).
Qed.

(** A pattern without the character [c] that starts [b ++ c :: r] starts
    [b]. *)
Lemma startswith_before (old b r : pystr) (c : char) :
  c ∉ old -> startswith old (b ++ c :: r) = true -> startswith old b = true.
Proof.
  revert b. induction old as [|x old IH]; intros b Hc; [done |].
  apply not_elem_of_cons in Hc as [Hx Hc].
  destruct b as [|y b]; cbn.
  - rewrite andb_true_iff, N.eqb_eq. intros [-> _]. done.
  - rewrite !andb_true_iff. intros [-> H]. split; [done | by apply IH].
Qed.

Lemma clear_of_absent (old p r : pystr) (c : char) :
  c ∉ old -> py_in old p = false -> clear_of old p (c :: r).
Proof.
  intros Hc Hin a b -> Hb.
  destruct (startswith old (b ++ c :: r)) eqn:E; [| reflexivity].
  apply startswith_before in E; [| done].
  apply startswith_prefix in E as [t ->].
  assert (py_in old (a ++ old ++ t) = true)
    by (apply py_in_occurs; by exists a, t).
  congruence.
Qed.

(** ** The movie of a version: the path recorded and the path uploaded *)

(** [os.path.join] behind a folder name that is not empty and does not end
    in a slash. *)
Lemma path_join_plain (a b : pystr) :
  a <> [] -> endswith (lit "/") a = false -> startswith (lit "/") b = false ->
  path_join a b = a ++ lit "/" ++ b.
Proof.
  intros Ha Hend Hb. unfold path_join. rewrite Hb, Hend.
  by rewrite bool_decide_eq_false_2.
Qed.

(** The folder the H.264 movies of a reel are rendered to. *)
Definition movie_folder (path reel_name : pystr) : pystr :=
  path_join (path_join path reel_name) (lit "h264").

(** The movie of the version called [name]. *)
Definition movie_path (path reel_name name : pystr) : pystr :=
  path_join (movie_folder path reel_name) (name ++ lit ".mov").

Lemma movie_folder_plain (path reel_name : pystr) :
  movie_folder path reel_name <> [] /\
  endswith (lit "/") (movie_folder path reel_name) = false.
Proof.
  unfold movie_folder. generalize (path_join path reel_name). intros x.
  unfold path_join.
  change (startswith (lit "/") (lit "h264")) with false. cbv iota.
  assert (Hend : forall y, endswith (lit "/") (y ++ lit "h264") = false).
  { intros y. unfold endswith. by rewrite rev_app_distr. }
  destruct (bool_decide (x = []) || endswith (lit "/") x).
  - split; [by destruct x | apply Hend].
  - split; [by destruct x |]. rewrite app_assoc. apply Hend.
Qed.

Lemma generic_path_replaced (path reel_name name : pystr) :
  py_in (lit "VERSION_NAME") (movie_folder path reel_name) = false ->
  startswith (lit "/") name = false ->
  py_replace (lit "VERSION_NAME") name
    (path_join (movie_folder path reel_name) (lit "VERSION_NAME.mov"))
  = movie_path path reel_name name.
Proof.
  intros Habsent Hname. unfold movie_path.
  destruct (movie_folder_plain path reel_name) as [Hne Hend].
  assert (Hmov : startswith (lit "/") (name ++ lit ".mov") = false)
    by (destruct name as [|c name]; [reflexivity | exact Hname]).
  rewrite (path_join_plain _ (lit "VERSION_NAME.mov")) by done.
  rewrite (path_join_plain _ (name ++ lit ".mov")) by done.
  change (lit "/" ++ lit "VERSION_NAME.mov")
    with (47%N :: lit "VERSION_NAME" ++ lit ".mov").
  change (lit "/" ++ name ++ lit ".mov") with (47%N :: name ++ lit ".mov").
  rewrite py_replace_clear; [| done |].
  - by f_equal.
  - apply clear_of_absent; [| exact Habsent].
    vm_compute. intros H. by repeat (apply elem_of_cons in H as [H|H];
      [discriminate H |]); apply elem_of_nil in H.
Qed.

(** The path a created Version records for its movie. *)
Definition records_movie (movie : pystr) (ev : Event) : Prop :=
  match ev_call ev with
  | CCreate _ _ data =>
      sg_get data (lit "sg_path_to_movie") = Ok (VStr movie)
  | _ => True
  end.

(** The path an upload sends: the movie of one of the versions. *)
Definition uploads_movie_of (path reel_name : pystr) (versions : list sgval)
    (ev : Event) : Prop :=
  match ev_call ev with
  | CUpload _ _ id h264_path _ =>
      exists version code,
        (version ∈ versions) /\
        sg_get version (lit "code") = Ok (VStr code) /\
        sg_get version (lit "id") = Ok id /\
        h264_path = movie_path path reel_name code
  | _ => True
  end.

(** The movie recorded on the Version of a clip is the file that is uploaded
    for a version of the same name: [create_versions] joins the clip's name
    to the folder of the movies, [send_h264s_to_shotgrid] replaces
    [VERSION_NAME] in a generic path.  The two agree when [VERSION_NAME]
    does not occur in the folder and no version's name starts with a
    slash. *)
Theorem recorded_movie_is_uploaded (o : Oracle) (reel : PyObject)
    (path reel_name : pystr) (sg_authorization : handle) :
  obj_name reel = Ok reel_name ->
  py_in (lit "VERSION_NAME") (movie_folder path reel_name) = false ->
  (forall shotgrid project versions clip,
      every (records_movie (movie_path path reel_name (clip_name clip)))
            (Playlist.create_version o shotgrid reel project path
               sg_authorization versions clip)) /\
  (forall versions,
      Forall (fun version =>
                forall code, sg_get version (lit "code") = Ok (VStr code) ->
                             startswith (lit "/") code = false) versions ->
      every (uploads_movie_of path reel_name versions)
            (Playlist.send_h264s_to_shotgrid o reel versions path
               sg_authorization)).
Proof.
  intros Hreel Habsent. split.
  - intros shotgrid project versions clip.
    unfold Playlist.create_version. rewrite Hreel.
    every_walk; try exact I.
    all: match goal with H : Ok _ = Ok _ |- _ => injection H as <- end.
    all: reflexivity.
  - intros versions Hnames.
    unfold Playlist.send_h264s_to_shotgrid. rewrite Hreel.
    every_walk; try exact I.
    match goal with H : Ok _ = Ok _ |- _ => injection H as <- end.
    apply every_for_each. intros version Hin.
    rewrite Forall_forall in Hnames. specialize (Hnames version Hin).
    unfold Playlist.send_h264.
    destruct (sg_get version (lit "code")) as [[| | | |code| |]|e] eqn:Hcode;
      cbn [mbind result_bind rbind sg_str];
      try (apply every_bind; [apply every_lift | intros ?; every_walk; exact I]).
    all: try (apply (every_bind_lift _ (Raise _)); intros ? [=]).
    apply every_bind_lift. intros ? [= <-].
    change (path_join (path_join (path_join path reel_name) (lit "h264"))
              (lit "VERSION_NAME.mov"))
      with (path_join (movie_folder path reel_name) (lit "VERSION_NAME.mov")).
    rewrite generic_path_replaced by auto.
    every_walk; try exact I.
    all: exists version, code; done.
Qed.

Lemma recorded_movie_is_uploaded_witness :
  let versions :=
    [VDict [(lit "id", VInt 113); (lit "code", VStr (lit "sh010_comp_v003"))]]
  in
  obj_name (ObjReel Demo.reel) = Ok (lit "ep1_comp_submissions") /\
  py_in (lit "VERSION_NAME")
        (movie_folder (lit "/data/out") (lit "ep1_comp_submissions")) = false /\
  every (uploads_movie_of (lit "/data/out") (lit "ep1_comp_submissions")
           versions)
        (Playlist.send_h264s_to_shotgrid Demo.oracle (ObjReel Demo.reel)
           versions (lit "/data/out") 1%nat).
Proof.
  intros versions.
  assert (Hreel : obj_name (ObjReel Demo.reel)
                  = Ok (lit "ep1_comp_submissions")) by reflexivity.
  assert (Habsent : py_in (lit "VERSION_NAME")
                      (movie_folder (lit "/data/out")
                         (lit "ep1_comp_submissions")) = false)
    by (vm_compute; reflexivity).
  split; [exact Hreel |]. split; [exact Habsent |].
  apply (proj2 (recorded_movie_is_uploaded Demo.oracle (ObjReel Demo.reel)
                  (lit "/data/out") (lit "ep1_comp_submissions") 1%nat
                  Hreel Habsent)).
  repeat constructor. intros code [= <-]. reflexivity.
Defined.

(** ** [update_setup]: indices in and out of range *)

(** The place in a list of [n] items a Python index stands for. *)
Definition slot (n : nat) (index : Z) : nat :=
  Z.to_nat (if index <? 0 then Z.of_nat n + index else index).

(** The indices a list of [n] items accepts: from [-n] to [n - 1]. *)
Definition index_ok (n : nat) (index : Z) : bool :=
  (- Z.of_nat n <=? index) && (index <? Z.of_nat n).

(** The lines of a dict written into a setup, one after the other. *)
Definition apply_lines (setup : list pystr) (new_lines : dict Z pystr)
  : list pystr :=
  fold_left (fun l '(index, value) => <[slot (length setup) index := value]> l)
            new_lines setup.

Lemma setitem_index_ok {A} (l : list A) (index : Z) (x : A) :
  setitem l index x =
    if index_ok (length l) index
    then Ok (<[slot (length l) index := x]> l)
    else Raise IndexError.
Proof.
  unfold setitem, index_ok, slot, len.
  destruct (Z.ltb_spec index 0);
    destruct (Z.leb_spec (- Z.of_nat (length l)) index);
    destruct (Z.ltb_spec index (Z.of_nat (length l))); cbn [andb];
    repeat match goal with
      | |- context [?a <=? ?b] => destruct (Z.leb_spec a b)
      | |- context [?a <? ?b] => destruct (Z.ltb_spec a b)
      end; cbn [andb]; try reflexivity; lia.
Qed.

Lemma update_setup_from (n : nat) (new_lines : dict Z pystr) :
  forall cur : list pystr,
    length cur = n ->
    Masters.update_setup cur new_lines =
      if forallb (index_ok n) new_lines.*1
      then Ok (fold_left (fun l '(index, value) => <[slot n index := value]> l)
                         new_lines cur)
      else Raise IndexError.
Proof.
  unfold Masters.update_setup.
  induction new_lines as [|[index value] d IH]; intros cur Hlen;
    [reflexivity |].
  cbn [rfold fmap list_fmap fst forallb fold_left].
  rewrite setitem_index_ok, Hlen.
  destruct (index_ok n index); [| reflexivity].
  cbn [rbind andb]. apply IH. by rewrite length_insert.
Qed.

Lemma length_written (n : nat) (new_lines : dict Z pystr) :
  forall cur : list pystr,
    length (fold_left (fun l '(index, value) => <[slot n index := value]> l)
                      new_lines cur)
    = length cur.
Proof.
  induction new_lines as [|[index value] d IH]; intros cur; [reflexivity |].
  cbn [fold_left]. by rewrite IH, length_insert.
Qed.

Lemma length_apply_lines (setup : list pystr) (new_lines : dict Z pystr) :
  length (apply_lines setup new_lines) = length setup.
Proof. apply length_written. Qed.

(** [update_setup] fails exactly when one of the indices is out of range,
    and then with [IndexError]; otherwise it returns the lines written in
    the order of the dict, a negative index counted from the end, and as
    many lines as it was given. *)
Theorem update_setup_bounds (setup : list pystr) (new_lines : dict Z pystr) :
  Masters.update_setup setup new_lines =
    (if forallb (index_ok (length setup)) new_lines.*1
     then Ok (apply_lines setup new_lines)
     else Raise IndexError) /\
  length (apply_lines setup new_lines) = length setup.
Proof.
  split; [by apply update_setup_from | apply length_apply_lines].
Qed.

(** ** The token loop never fails *)

Lemma replace_token_in_range token value (setup : list pystr) :
  forallb (index_ok (length setup))
    (Masters.replace_token token value (Masters.text_lines_of setup)).*1
  = true.
Proof.
  apply forallb_forall. intros index Hin.
  apply list_elem_of_In, replace_token_keys in Hin
    as (i & line & Hi & _ & Hcase).
  apply lookup_lt_Some in Hi. unfold index_ok.
  apply andb_true_iff. rewrite Z.leb_le, Z.ltb_lt. lia.
Qed.

Lemma token_loop_returns (setup : list pystr)
    (slate_info : dict pystr pyval) :
  forall cur : list pystr,
    length cur = length setup ->
    exists filled,
      rfold (fun slate_setup '(token, value) =>
               Masters.update_setup slate_setup
                 (Masters.replace_token token value
                    (Masters.text_lines_of setup)))
            slate_info cur = Ok filled /\
      length filled = length setup.
Proof.
  induction slate_info as [|[token value] l IH]; intros cur Hlen.
  - by exists cur.
  - cbn [rfold].
    rewrite (update_setup_from (length setup)) by done.
    rewrite replace_token_in_range. cbn [rbind]. apply IH.
    by rewrite length_written.
Qed.

(** For every template and every slate info the loop of [generate_slate]
    returns, with as many lines as the template has: the indices
    [replace_token] yields are line numbers of the template or one less, and
    [-1] is the last line. *)
Theorem fill_slate_setup_returns (setup : list pystr)
    (slate_info : dict pystr pyval) :
  exists filled,
    Masters.fill_slate_setup setup slate_info = Ok filled /\
    length filled = length setup.
Proof. by apply token_loop_returns. Qed.

(** ** What [replace_token] returns *)

Lemma shown_not_empty (value : pyval) : 1 <= len (shown value).
Proof.
  destruct value as [|[|c s]]; [by vm_compute | by vm_compute |].
  unfold shown, len. cbn [truthy negb length]. lia.
Qed.

(** The entries of the text lines that hold the pattern of a token. *)
Definition matching (token : pystr) (text_lines : dict Z pystr)
  : dict Z pystr :=
  filter (fun '(_, line) => py_in (Masters.ascii_convert token) line = true)
         text_lines.

(** [replace_token] returns the empty dict exactly when no text line holds
    the token.  Each entry it returns is a matching line with the pattern
    replaced, under the number of that line, or a [TextLength] line under
    the number before a matching line; the length in it is never 0, an
    empty value being written as one blank. *)
Theorem replace_token_lines (token : pystr) (value : pyval)
    (text_lines : dict Z pystr) :
  let new_lines := Masters.replace_token token value text_lines in
  (new_lines = [] <-> matching token text_lines = []) /\
  (forall index new_line,
      (index, new_line) ∈ new_lines ->
      (exists line,
          (index, line) ∈ matching token text_lines /\
          new_line = py_replace (Masters.ascii_convert token)
                       (Masters.ascii_convert (shown value)) line) \/
      (exists line n,
          (index + 1, line) ∈ matching token text_lines /\
          1 <= n /\
          new_line = lit "TextLength " ++ str_int n ++ [10%N])).
Proof.
  intros new_lines. split.
  - split.
    + intros Hempty.
      destruct (matching token text_lines) as [|[index line] m] eqn:Hm;
        [reflexivity |].
      assert (Hin : (index, line) ∈ matching token text_lines)
        by (rewrite Hm; apply list_elem_of_here).
      apply list_elem_of_filter in Hin as [Hp Hin].
      assert (Hkey : index ∈ new_lines.*1).
      { apply new_lines_keys. right. exists index, line. auto. }
      rewrite Hempty in Hkey. by apply elem_of_nil in Hkey.
    + intros Hnone.
      destruct new_lines as [|[index new_line] d] eqn:Hd; [reflexivity |].
      assert (Hkey : index ∈ new_lines.*1)
        by (subst new_lines; rewrite Hd; apply list_elem_of_here).
      apply new_lines_keys in Hkey
        as [[]%elem_of_nil | (i & line & Hin & Hp & _)].
      assert (Hm : (i, line) ∈ matching token text_lines)
        by (apply list_elem_of_filter; done).
      rewrite Hnone in Hm. by apply elem_of_nil in Hm.
  - intros index new_line Hin.
    apply new_lines_entries in Hin
      as [[]%elem_of_nil | (i & line & Hin & Hp & [[-> ->]|[-> ->]])].
    + left. exists line. split; [| reflexivity].
      apply list_elem_of_filter. done.
    + right. exists line, (len (shown value)).
      split; [| split; [apply shown_not_empty | reflexivity]].
      apply list_elem_of_filter. split; [done |].
      by replace (i - 1 + 1) with i by lia.
Qed.

(** ** A token on the first line *)

Lemma new_lines_no_match (pattern replacement length_line : pystr)
    (text_lines : dict Z pystr) (d : dict Z pystr) :
  Forall (fun '(_, line) => py_in pattern line = false) text_lines ->
  fold_left (fun new_lines '(index, line) =>
               if py_in pattern line then
                 dict_set (index - 1) length_line
                   (dict_set index (py_replace pattern replacement line)
                      new_lines)
               else new_lines) text_lines d = d.
Proof.
  induction 1 as [|[index line] tl Hline _ IH]; [reflexivity |].
  cbn [fold_left]. by rewrite Hline.
Qed.

(** When the first line of the template is the only one to hold the token,
    its [TextLength] line has the index [-1]: it is written over the last
    line of the template. *)
Theorem token_on_first_line (token : pystr) (value : pyval)
    (first : pystr) (rest : list pystr) :
  startswith (lit "Text") first = true ->
  py_in (Masters.ascii_convert token) first = true ->
  Forall (fun line => py_in (Masters.ascii_convert token) line = false) rest ->
  Masters.fill_slate_setup (first :: rest) [(token, value)]
  = Ok (<[length rest := text_length value]>
          (substituted token value first :: rest)).
Proof.
  intros Hstart Hp Hrest.
  unfold Masters.fill_slate_setup. cbv zeta. cbn [rfold].
  assert (Hlines :
    Masters.replace_token token value (Masters.text_lines_of (first :: rest))
    = [(0, substituted token value first); (-1, text_length value)]).
  { unfold Masters.replace_token, Masters.text_lines_of, enumerate.
    rewrite imap_cons. rewrite filter_cons_True by exact Hstart.
    cbn [fold_left]. rewrite Hp.
    rewrite new_lines_no_match.
    - cbn. reflexivity.
    - apply Forall_forall. intros [index line] Hin.
      apply list_elem_of_filter in Hin as [_ Hin].
      apply elem_of_lookup_imap in Hin as (i & line' & [= -> ->] & Hi).
      rewrite Forall_forall in Hrest. apply Hrest.
      by eapply list_elem_of_lookup_2. }
  rewrite Hlines.
  rewrite (update_setup_from (S (length rest))) by reflexivity.
  replace (forallb _ _) with true.
  2:{ symmetry. cbn [fmap list_fmap fst forallb]. unfold index_ok.
      rewrite !andb_true_iff, !Z.leb_le, !Z.ltb_lt. lia. }
  cbn [rbind]. f_equal. cbn [fold_left].
  replace (slot (S (length rest)) 0) with 0%nat by reflexivity.
  replace (slot (S (length rest)) (-1)) with (length rest)
    by (unfold slot; cbn [Z.ltb Z.compare]; lia).
  reflexivity.
Qed.

Lemma token_on_first_line_witness :
  Masters.fill_slate_setup
    [lit "Text 60 65 62" ++ [10%N]; lit "FontSize 40" ++ [10%N];
     lit "Kerning 0" ++ [10%N]]
    [(lit "<A>", PyStr (lit "xy"))]
  = Ok [lit "Text 120 121" ++ [10%N]; lit "FontSize 40" ++ [10%N];
        lit "TextLength 2" ++ [10%N]].
Proof.
  etrans; [apply token_on_first_line |];
    [vm_compute; reflexivity | vm_compute; reflexivity
    | repeat constructor | vm_compute; reflexivity].
Defined.

(** ** The code of a text: when two texts share it, what it keeps *)

(** The code points [ascii_convert] writes for a text. *)
Definition codes (text : pystr) : list Z :=
  filter (fun n => n <> 194) (List.map (fun c => ord (straighten c)) text).

Lemma ascii_convert_join (text : pystr) :
  Masters.ascii_convert text
  = py_join (lit " ") (List.map str_int (codes text)).
Proof.
  unfold Masters.ascii_convert, codes. rewrite ascii_list_filter.
  rewrite !py_replace_char, List.map_map, List.map_map. cbn [app].
  do 3 f_equal. apply List.map_ext. intros ch.
  unfold straighten. f_equal.
  destruct (ch =? 8220)%N eqn:E1; cbn; [reflexivity |].
  destruct (ch =? 8221)%N; reflexivity.
Qed.

Lemma codes_app (s t : pystr) : codes (s ++ t) = codes s ++ codes t.
Proof. unfold codes. by rewrite List.map_app, filter_app. Qed.

Lemma pretty_N_go_longer (x : N) (s : string) :
  (String.length s <= String.length (pretty_N_go x s))%nat.
Proof.
  revert s. induction (N.lt_wf_0 x) as [x _ IH]; intros s.
  assert (x = 0 \/ 0 < x)%N as [-> | Hpos] by lia.
  - by rewrite pretty_N_go_0.
  - rewrite pretty_N_go_step by done.
    etrans; [| apply IH; by apply N.div_lt]. cbn. lia.
Qed.

Lemma str_int_not_empty (n : Z) : str_int n <> [].
Proof.
  unfold str_int. intros H.
  assert (Hp : pretty n = EmptyString) by (by apply lit_inj).
  destruct n as [|p|p]; unfold pretty, pretty_Z in Hp; [done | | done].
  unfold pretty, pretty_positive, pretty, pretty_N in Hp.
  case_decide; [done |].
  rewrite pretty_N_go_step in Hp by lia.
  pose proof (pretty_N_go_longer (N.pos p `div` 10)
    (String (pretty_N_char (N.pos p `mod` 10)) EmptyString)) as Hlen.
  rewrite Hp in Hlen. cbn in Hlen. lia.
Qed.

Lemma py_join_not_empty (sep : pystr) (p : pystr) (parts : list pystr) :
  p <> [] -> py_join sep (p :: parts) <> [].
Proof. intros Hp. destruct parts; cbn; by destruct p. Qed.

Lemma codes_join_inj (l1 l2 : list Z) :
  py_join (lit " ") (List.map str_int l1)
  = py_join (lit " ") (List.map str_int l2) ->
  l1 = l2.
Proof.
  intros Heq.
  assert (Hparts : forall l : list Z,
             Forall (fun p => 32%N ∉ p) (List.map str_int l)).
  { intros l. apply Forall_forall. intros p Hp.
    apply list_elem_of_In, List.in_map_iff in Hp as (n & <- & _).
    apply str_int_no_blank. }
  destruct l1 as [|n1 l1], l2 as [|n2 l2]; [reflexivity | | |].
  - symmetry in Heq. cbn [List.map] in Heq.
    by apply py_join_not_empty in Heq; [| apply str_int_not_empty].
  - cbn [List.map] in Heq.
    by apply py_join_not_empty in Heq; [| apply str_int_not_empty].
  - apply (f_equal (py_split 32%N)) in Heq.
    change (lit " ") with [32%N] in Heq.
    rewrite !py_split_join in Heq by (done || apply Hparts).
    revert Heq. generalize (n1 :: l1) (n2 :: l2). clear.
    induction l as [|x l IH]; intros [|y k] H; try discriminate;
      [reflexivity |].
    cbn in H. injection H as Hxy Hlk. f_equal.
    + by apply str_int_inj.
    + by apply IH.
Qed.

(** Two texts have the same code exactly when they have the same code
    points once the curly quotes are straightened and the characters of
    code point 194 are dropped: the code can be read back. *)
Theorem ascii_convert_same_codes (text1 text2 : pystr) :
  Masters.ascii_convert text1 = Masters.ascii_convert text2 <->
  codes text1 = codes text2.
Proof.
  rewrite !ascii_convert_join. split.
  - apply codes_join_inj.
  - by intros ->.
Qed.

Lemma py_join_app (sep : pystr) (xs ys : list pystr) :
  xs <> [] -> ys <> [] ->
  py_join sep (xs ++ ys) = py_join sep xs ++ sep ++ py_join sep ys.
Proof.
  intros Hxs Hys. induction xs as [|x xs IH]; [done |].
  destruct xs as [|x' xs].
  - destruct ys; [done | reflexivity].
  - change (py_join sep ((x :: x' :: xs) ++ ys))
      with (x ++ sep ++ py_join sep ((x' :: xs) ++ ys)).
    rewrite IH by done.
    change (py_join sep (x :: x' :: xs))
      with (x ++ sep ++ py_join sep (x' :: xs)).
    by rewrite <- !app_assoc.
Qed.

Lemma py_join_occurs (sep : pystr) (xs ys zs : list pystr) :
  py_in (py_join sep ys) (py_join sep (xs ++ ys ++ zs)) = true.
Proof.
  apply py_in_occurs.
  destruct ys as [|y ys]; [by exists [], (py_join sep (xs ++ zs)) |].
  destruct xs as [|x xs], zs as [|z zs].
  - exists [], []. by rewrite !app_nil_r.
  - exists [], (sep ++ py_join sep (z :: zs)).
    rewrite !app_nil_l. by rewrite py_join_app.
  - exists (py_join sep (x :: xs) ++ sep), [].
    rewrite !app_nil_r, py_join_app by done. by rewrite <- app_assoc.
  - exists (py_join sep (x :: xs) ++ sep), (sep ++ py_join sep (z :: zs)).
    rewrite (py_join_app sep (x :: xs)) by done.
    rewrite (py_join_app sep (y :: ys)) by done.
    by rewrite <- !app_assoc.
Qed.

(** A token that occurs in a text occurs, as a code, in the code of the
    text: the search of [replace_token] over code points finds every
    occurrence of the token. *)
Theorem ascii_convert_keeps_occurrences (token text : pystr) :
  py_in token text = true ->
  py_in (Masters.ascii_convert token) (Masters.ascii_convert text) = true.
Proof.
  intros (a & b & ->)%py_in_occurs.
  rewrite !ascii_convert_join, !codes_app, !List.map_app.
  apply py_join_occurs.
Qed.

Lemma ascii_convert_keeps_occurrences_witness :
  py_in (lit "<CODE>") (lit "Shot <CODE> of the reel") = true /\
  py_in (Masters.ascii_convert (lit "<CODE>"))
        (Masters.ascii_convert (lit "Shot <CODE> of the reel")) = true.
Proof.
  split; [vm_compute; reflexivity |].
  apply ascii_convert_keeps_occurrences. vm_compute; reflexivity.
Defined.

(** ** The temporary folder and the setups written into it *)

(** [os.path.join] of anything with a name that neither starts nor ends in a
    slash is not empty and does not end in a slash. *)
Lemma path_join_name (a b : pystr) :
  b <> [] -> startswith (lit "/") b = false -> endswith (lit "/") b = false ->
  path_join a b <> [] /\ endswith (lit "/") (path_join a b) = false.
Proof.
  intros Hb Hstart Hend. unfold path_join. rewrite Hstart.
  assert (Htail : forall y, endswith (lit "/") (y ++ b) = false).
  { intros y. unfold endswith in *. rewrite rev_app_distr.
    destruct (rev b) as [|c r] eqn:Hr; [| exact Hend].
    apply (f_equal (@rev _)) in Hr. rewrite rev_involutive in Hr. done. }
  destruct (bool_decide (a = []) || endswith (lit "/") a).
  - split; [by destruct a, b | apply Htail].
  - split; [by destruct a |]. rewrite app_assoc. apply Htail.
Qed.

Lemma temp_folder_plain (o : Oracle) :
  Masters.TEMP_FOLDER o <> [] /\
  endswith (lit "/") (Masters.TEMP_FOLDER o) = false.
Proof. by apply path_join_name. Qed.

(** The setup file of a name without slash lies in the temporary folder. *)
Lemma ttg_path_under (o : Oracle) (file_name : pystr) :
  47%N ∉ file_name ->
  let ttg_path :=
    path_join (Masters.TEMP_FOLDER o) (file_name ++ lit ".ttg") in
  ttg_path = Masters.TEMP_FOLDER o ++ lit "/" ++ file_name ++ lit ".ttg" /\
  Masters.under (Masters.TEMP_FOLDER o) ttg_path = true /\
  ttg_path <> Masters.TEMP_FOLDER o.
Proof.
  intros Hname ttg_path.
  destruct (temp_folder_plain o) as [Hne Hend].
  assert (Hpath : ttg_path
            = Masters.TEMP_FOLDER o ++ lit "/" ++ file_name ++ lit ".ttg").
  { apply path_join_plain; [done | done |].
    destruct file_name as [|c name]; [reflexivity |].
    apply not_elem_of_cons in Hname as [Hc _].
    change (lit "/") with [47%N]. cbn [app startswith].
    destruct (N.eqb_spec 47 c); [congruence | reflexivity]. }
  split; [exact Hpath |]. split.
  - unfold Masters.under. rewrite Hpath. apply orb_true_iff. right.
    apply startswith_prefix. exists (file_name ++ lit ".ttg").
    by rewrite <- app_assoc.
  - rewrite Hpath. intros Heq.
    apply (f_equal (@length _)) in Heq. rewrite !length_app in Heq.
    change (length (lit "/")) with 1%nat in Heq. lia.
Qed.

(** A run of [write_slate_ttg]: the folder is made when it is missing and
    the lines are written to the file; no call is logged. *)
Lemma write_slate_ttg_run (o : Oracle) (setup_lines : list pystr)
    (file_name : pystr) (s : State) :
  let ttg_path :=
    path_join (Masters.TEMP_FOLDER o) (file_name ++ lit ".ttg") in
  Masters.write_slate_ttg o setup_lines file_name s =
    (Ok ttg_path,
     {| st_trace := st_trace s;
        st_fs := <[ttg_path := File (concat setup_lines)]>
                   (if Masters.path_exists (st_fs s) (Masters.TEMP_FOLDER o)
                    then st_fs s
                    else <[Masters.TEMP_FOLDER o := Dir]> (st_fs s)) |}).
Proof.
  unfold Masters.write_slate_ttg, mbind, M_bind, bind, get_fs, put_fs, mret,
    M_ret, ret.
  destruct (Masters.path_exists (st_fs s) (Masters.TEMP_FOLDER o)); reflexivity.
Qed.

(** A run of [delete_temp_folder], by what stands at [TEMP_FOLDER]. *)
Lemma delete_temp_folder_run (o : Oracle) (s : State) :
  Masters.delete_temp_folder o s =
    match st_fs s !! Masters.TEMP_FOLDER o with
    | Some Dir =>
        (Ok tt,
         {| st_trace := st_trace s;
            st_fs := filter (fun kv =>
                               Masters.under (Masters.TEMP_FOLDER o) kv.1
                               = false) (st_fs s) |})
    | Some (File _) => (Raise NotADirectoryError, s)
    | None => (Ok tt, s)
    end.
Proof.
  unfold Masters.delete_temp_folder, Masters.path_exists, Masters.rmtree.
  unfold mbind, M_bind, bind, get_fs, put_fs, lift. cbn.
  destruct (st_fs s !! Masters.TEMP_FOLDER o) as [[|content]|] eqn:Hp.
  - rewrite bool_decide_eq_true_2 by eauto. reflexivity.
  - rewrite bool_decide_eq_true_2 by eauto. reflexivity.
  - rewrite bool_decide_eq_false_2 by (intros [x Hx]; discriminate).
    reflexivity.
Qed.

Lemma lookup_outside (p : pystr) (fs : gmap pystr fsnode) (q : pystr) :
  filter (fun kv => Masters.under p kv.1 = false) fs !! q
  = if Masters.under p q then None else fs !! q.
Proof.
  destruct (Masters.under p q) eqn:Hq.
  - apply map_lookup_filter_None. right. intros x _. cbn. congruence.
  - destruct (fs !! q) as [x|] eqn:Hfq.
    + apply map_lookup_filter_Some. done.
    + apply map_lookup_filter_None. by left.
Qed.




(** ** A template without tokens is copied *)

Lemma concat_readlines_go (cur s : pystr) :
  concat (readlines_go cur s) = rev cur ++ s.
Proof.
  revert cur. induction s as [|ch s IH]; intros cur.
  - cbn. destruct cur as [|x cur]; [reflexivity |].
    cbn [concat]. by rewrite !app_nil_r.
  - cbn [readlines_go]. destruct (ch =? 10)%N.
    + cbn [concat]. rewrite IH. cbn [rev app].
      by rewrite <- app_assoc.
    + rewrite IH. cbn [rev]. by rewrite <- app_assoc.
Qed.

(** Writing the lines read from a file gives its text back, with the
    newlines as text mode reads them. *)
Lemma concat_readlines (s : pystr) :
  concat (py_readlines s) = universal_newlines s.
Proof. apply concat_readlines_go. Qed.

(** A text without carriage return is read as it is. *)
Lemma universal_newlines_plain (s : pystr) :
  13%N ∉ s -> universal_newlines s = s.
Proof.
  induction s as [|c s IH]; [reflexivity |].
  intros [Hc Hs]%not_elem_of_cons. cbn [universal_newlines].
  destruct (N.eqb_spec c 13) as [-> | _]; [done |].
  by rewrite IH.
Qed.

(** Where no text line holds a token, the loop changes nothing. *)
Lemma fill_slate_setup_no_token (setup : list pystr)
    (slate_info : dict pystr pyval) :
  Forall (fun line =>
            startswith (lit "Text") line = true ->
            Forall (fun '(token, _) =>
                      py_in (Masters.ascii_convert token) line = false)
                   slate_info) setup ->
  Masters.fill_slate_setup setup slate_info = Ok setup.
Proof.
  intros Hnone. unfold Masters.fill_slate_setup. cbv zeta.
  assert (Hloop : forall l, l ⊆ slate_info -> forall cur : list pystr,
    rfold (fun slate_setup '(token, value) =>
             Masters.update_setup slate_setup
               (Masters.replace_token token value
                  (Masters.text_lines_of setup))) l cur = Ok cur).
  { induction l as [|[token value] l IH]; intros Hsub cur; [reflexivity |].
    cbn [rfold]. unfold Masters.replace_token.
    rewrite new_lines_no_match.
    - cbn. apply IH. intros x Hx. apply Hsub. by right.
    - apply Forall_forall. intros [index line] Hin.
      apply text_lines_of_entries in Hin as (i & -> & Hi & Hstart).
      rewrite Forall_forall in Hnone.
      specialize (Hnone line (list_elem_of_lookup_2 _ _ _ Hi) Hstart).
      rewrite Forall_forall in Hnone.
      apply (Hnone (token, value)). apply Hsub. left. }
  by apply Hloop.
Qed.

(** When no text line of the template holds a token of the slate info, the
    setup [generate_slate] writes for the shot is the template as text mode
    reads it: character for character when the template has no carriage
    return; a carriage return, alone or before a line feed, is written as
    one line feed. *)
Theorem template_without_tokens_copied (o : Oracle) (shot_sequence : PyClip)
    (slate_info : dict pystr pyval) (s s' : State) (slate : handle)
    (resolution template : pystr) :
  Masters.generate_slate o shot_sequence slate_info s = (Ok slate, s') ->
  dict_get (lit "<RESOLUTION>") slate_info = Ok (PyStr resolution) ->
  st_fs s !! py_replace (lit "RESOLUTION") resolution
               (Masters.SLATE_TEMPLATE_PATH o) = Some (File template) ->
  Forall (fun line =>
            startswith (lit "Text") line = true ->
            Forall (fun '(token, _) =>
                      py_in (Masters.ascii_convert token) line = false)
                   slate_info) (py_readlines template) ->
  exists path,
    slate_setup_path o slate_info = Ok path /\
    st_fs s' !! path = Some (File (universal_newlines template)) /\
    (13%N ∉ template -> st_fs s' !! path = Some (File template)).
Proof.
  intros Hrun Hres Htemplate Hnone.
  pose proof (generate_slate_wp o shot_sequence slate_info s
                (fun _ s' =>
                   exists path,
                     slate_setup_path o slate_info = Ok path /\
                     st_fs s' !! path
                       = Some (File (universal_newlines template)) /\
                     (13%N ∉ template ->
                      st_fs s' !! path = Some (File template)))) as Hwp.
  unfold wp in Hwp. rewrite Hrun in Hwp. apply Hwp.
  intros slate0 s0 resolution0 template0 filled path r H1 H2 H3 H4 H5 _.
  rewrite Hres in H1. injection H1 as <-.
  rewrite Htemplate in H2. injection H2 as <-.
  rewrite (fill_slate_setup_no_token _ _ Hnone) in H3. injection H3 as <-.
  rewrite concat_readlines in H5. exists path.
  split; [exact H4 |]. split; [exact H5 |].
  intros Hplain. by rewrite universal_newlines_plain in H5.
Qed.

(** A disk with a template that holds no token and ends its first line
    with a carriage return and a line feed, for a run of
    [generate_slate]. *)
Definition plain_template : pystr :=
  lit "FontSize 40" ++ [13%N; 10%N] ++ lit "TextLength 5" ++ [10%N]
  ++ lit "Text 83 108 97 116 101".

Definition plain_disk : State :=
  {| st_trace := [];
     st_fs :=
       <[lit "/opt/hooks/setups/slate_examples/slate_template_1920x1080.ttg"
           := File plain_template]> ∅ |}.

Lemma template_without_tokens_copied_witness :
  let slate_info := [(lit "<RESOLUTION>", PyStr (lit "1920x1080"));
                     (lit "<CODE>", PyStr (lit "sh010"))] in
  let run := Masters.generate_slate Demo.oracle
               (Demo.clip 20%nat (lit "sh010_comp_v003") 1920 1080)
               slate_info plain_disk in
  exists slate,
    run = (Ok slate, run.2) /\
    st_fs run.2 !! lit "/opt/hooks/temp/sh010-1920x1080.ttg"
      = Some (File (lit "FontSize 40" ++ [10%N] ++ lit "TextLength 5"
                    ++ [10%N] ++ lit "Text 83 108 97 116 101")).
Proof.
  intros slate_info run.
  assert (Hreturns : run.1 = Ok 100%nat) by (vm_compute; reflexivity).
  assert (Hrun : run = (Ok 100%nat, run.2))
    by (rewrite <- Hreturns; apply surjective_pairing).
  exists 100%nat. split; [exact Hrun |].
  destruct (template_without_tokens_copied Demo.oracle _ slate_info
              plain_disk run.2 100%nat (lit "1920x1080") plain_template Hrun)
    as (path & Hpath & Hfile & _).
  - reflexivity.
  - vm_compute; reflexivity.
  - apply Forall_forall. intros line Hline Hstart.
    vm_compute in Hline.
    repeat (apply elem_of_cons in Hline as [-> | Hline];
            [first [discriminate Hstart
                   | repeat constructor; vm_compute; reflexivity] |]).
    by apply elem_of_nil in Hline.
  - vm_compute in Hpath. injection Hpath as <-. exact Hfile.
Defined.

(** ** Runs that stop early *)

(** Unfolds a run down to the answers of the host. *)
Ltac run_unfold :=
  unfold show_in_console, call_, call_obj, call_sg, call_clip, call_clips,
    call_reel, call_folder, call_str, call_libraries, current_engine,
    browser_selection;
  unfold mbind, M_bind, bind, mret, M_ret, ret, lift, raise, call;
  cbn [st_trace st_fs].

(** The browser of [create_client_delivery] and what it can answer. *)
Definition destination_browser : Call :=
  CBrowserShow (lit "/data") true (lit "Select Destination").

(** [create_client_delivery] with no destination: when the first entry of
    the browser's selection is the empty string, the script shows an error
    in the console and stops; nothing is exported and ShotGrid is not
    called. *)
Theorem delivery_cancelled_without_destination (o : Oracle)
    (selection : list PyObject) (s : State) (r1 : Ret) (chosen : list pystr) :
  let s1 := logged s destination_browser (Ok r1) in
  let s2 := logged s1 CBrowserSelection (Ok (RStrs chosen)) in
  let message :=
    CShowInConsole (lit "Playlist export cancelled: no path selected")
      (Some (lit "error")) (Some 5) in
  selection <> [] ->
  respond o (st_trace s) destination_browser = Ok r1 ->
  respond o (st_trace s1) CBrowserSelection = Ok (RStrs chosen) ->
  getitem chosen 0 = Ok [] ->
  Playlist.create_client_delivery o selection s
  = (as_unit (respond o (st_trace s2) message),
     logged s2 message (respond o (st_trace s2) message)).
Proof.
  intros s1 s2 message Hsel Hshow Hchosen Hpath.
  destruct selection as [|x rest]; [done |].
  unfold Playlist.create_client_delivery. rewrite getitem_0.
  run_unfold. fold destination_browser. rewrite Hshow.
  fold (event destination_browser (Ok r1)). cbn [st_trace st_fs].
  change (st_trace s ++ [event destination_browser (Ok r1)])
    with (st_trace s1).
  rewrite Hchosen. cbn [st_trace st_fs]. rewrite Hpath.
  cbn [truthy negb]. cbv iota.
  subst s2 message.
  unfold logged, event. cbn [st_trace st_fs].
  match goal with |- match ?out with _ => _ end = _ => destruct out end;
    reflexivity.
Qed.

(** A host that answers as [Demo.oracle] does, except where [answer] says
    otherwise. *)
Definition host_answering (answer : Call -> option (result Ret)) : Oracle :=
  {| respond := fun history c =>
                  default (Demo.respond history c) (answer c);
     float_of := float_of Demo.oracle;
     script_path := script_path Demo.oracle;
     env_slate_bg_path := None;
     env_slate_template_path := None |}.

(** The user closes the browser without a path. *)
Definition no_destination : Oracle :=
  host_answering (fun c => match c with
                           | CBrowserSelection => Some (Ok (RStrs [[]]))
                           | _ => None
                           end).

Lemma delivery_cancelled_without_destination_witness :
  ev_call <$> st_trace (Playlist.create_client_delivery no_destination
                          [ObjReel Demo.reel] Demo.start).2
  = [destination_browser; CBrowserSelection;
     CShowInConsole (lit "Playlist export cancelled: no path selected")
       (Some (lit "error")) (Some 5)].
Proof.
  rewrite (delivery_cancelled_without_destination no_destination
             [ObjReel Demo.reel] Demo.start RNone [[]]);
    [reflexivity | done | reflexivity | reflexivity | reflexivity].
Defined.

(** The project is not linked to ShotGrid: [current_engine] gives [None].
    [create_client_delivery], which has asked for the destination by then,
    shows an error in the console and stops; nothing is exported and no
    record is created.  [build_shot_masters_from_sequence] returns at once:
    no reel is created, whatever the selection. *)
Theorem unlinked_project_stops_both (o : Oracle) (s : State) :
  (forall selection r1 chosen export_path,
      let s1 := logged s destination_browser (Ok r1) in
      let s2 := logged s1 CBrowserSelection (Ok (RStrs chosen)) in
      let s3 := logged s2 CCurrentEngine (Ok RNone) in
      let message :=
        CShowInConsole
          (lit "Playlist export cancelled: project must be linked to ShotGrid")
          (Some (lit "error")) (Some 5) in
      selection <> [] ->
      respond o (st_trace s) destination_browser = Ok r1 ->
      respond o (st_trace s1) CBrowserSelection = Ok (RStrs chosen) ->
      getitem chosen 0 = Ok export_path -> export_path <> [] ->
      respond o (st_trace s2) CCurrentEngine = Ok RNone ->
      Playlist.create_client_delivery o selection s
      = (as_unit (respond o (st_trace s3) message),
         logged s3 message (respond o (st_trace s3) message))) /\
  (forall selection,
      respond o (st_trace s) CCurrentEngine = Ok RNone ->
      Masters.build_shot_masters_from_sequence o selection s
      = (Ok tt, logged s CCurrentEngine (Ok RNone))).
Proof.
  split.
  - intros selection r1 chosen export_path s1 s2 s3 message Hsel Hshow
      Hchosen Hpath Hne Hengine.
    destruct selection as [|x rest]; [done |].
    unfold Playlist.create_client_delivery. rewrite getitem_0.
    run_unfold. fold destination_browser. rewrite Hshow.
    fold (event destination_browser (Ok r1)). cbn [st_trace st_fs].
    change (st_trace s ++ [event destination_browser (Ok r1)])
      with (st_trace s1).
    rewrite Hchosen. cbn [st_trace st_fs]. rewrite Hpath.
    destruct export_path as [|ch export_path]; [done |].
    cbn [truthy negb]. cbv iota.
    fold (event CBrowserSelection (Ok (RStrs chosen))).
    change (st_trace s1 ++ [event CBrowserSelection (Ok (RStrs chosen))])
      with (st_trace s2).
    cbn [st_trace st_fs]. rewrite Hengine. cbn [st_trace st_fs].
    subst s3 message. unfold logged, event. cbn [st_trace st_fs].
    match goal with |- match ?out with _ => _ end = _ => destruct out end;
      reflexivity.
  - intros selection Hengine.
    unfold Masters.build_shot_masters_from_sequence.
    run_unfold. rewrite Hengine. reflexivity.
Qed.

Definition unlinked : Oracle :=
  host_answering (fun c => match c with
                           | CCurrentEngine => Some (Ok RNone)
                           | _ => None
                           end).

Lemma unlinked_project_stops_both_witness :
  ev_call <$> st_trace (Playlist.create_client_delivery unlinked
                          [ObjReel Demo.reel] Demo.start).2
  = [destination_browser; CBrowserSelection; CCurrentEngine;
     CShowInConsole
       (lit "Playlist export cancelled: project must be linked to ShotGrid")
       (Some (lit "error")) (Some 5)] /\
  Masters.build_shot_masters_from_sequence unlinked [] Demo.start
  = (Ok tt, logged Demo.start CCurrentEngine (Ok RNone)).
Proof.
  destruct (unlinked_project_stops_both unlinked Demo.start) as [H1 H2].
  split.
  - rewrite (H1 [ObjReel Demo.reel] RNone [lit "/data/out"]
               (lit "/data/out"));
      [reflexivity | done | reflexivity | reflexivity | reflexivity | done
      | reflexivity].
  - apply H2. reflexivity.
Defined.

(** The browser's selection is indexed before it is looked at: when the
    browser answers with an empty list, [create_client_delivery] raises
    [IndexError] there, without the message of a cancelled export; an empty
    media-panel selection raises it before any call. *)
Theorem delivery_without_selection_raises (o : Oracle) (s : State) :
  Playlist.create_client_delivery o [] s = (Raise IndexError, s) /\
  (forall selection r1,
      let s1 := logged s destination_browser (Ok r1) in
      selection <> [] ->
      respond o (st_trace s) destination_browser = Ok r1 ->
      respond o (st_trace s1) CBrowserSelection = Ok (RStrs []) ->
      Playlist.create_client_delivery o selection s
      = (Raise IndexError, logged s1 CBrowserSelection (Ok (RStrs [])))).
Proof.
  split; [reflexivity |].
  intros selection r1 s1 Hsel Hshow Hchosen.
  destruct selection as [|x rest]; [done |].
  unfold Playlist.create_client_delivery. rewrite getitem_0.
  run_unfold. fold destination_browser. rewrite Hshow.
  fold (event destination_browser (Ok r1)). cbn [st_trace st_fs].
  change (st_trace s ++ [event destination_browser (Ok r1)])
    with (st_trace s1).
  rewrite Hchosen. reflexivity.
Qed.

Definition empty_browser : Oracle :=
  host_answering (fun c => match c with
                           | CBrowserSelection => Some (Ok (RStrs []))
                           | _ => None
                           end).

Lemma delivery_without_selection_raises_witness :
  Playlist.create_client_delivery empty_browser [ObjReel Demo.reel] Demo.start
  = (Raise IndexError,
     logged (logged Demo.start destination_browser (Ok RNone))
       CBrowserSelection (Ok (RStrs []))).
Proof.
  apply (proj2 (delivery_without_selection_raises empty_browser Demo.start));
    [done | reflexivity | reflexivity].
Defined.

(** ** The variables of the loop over the shots *)

(** The slate background of a resolution. *)
Definition bg_path (o : Oracle) (resolution : pystr) : pystr :=
  py_replace (lit "RESOLUTION") resolution (Masters.SLATE_BG_PATH o).

(** The imports in a log: what was imported, and where to. *)
Definition imports (evs : list Event) : list (pystr * ref) :=
  omap (fun ev =>
          match ev_call ev with
          | CImportClips path destination => Some (path, destination)
          | _ => None
          end) evs.

Lemma imports_app evs1 evs2 : imports (evs1 ++ evs2) = imports evs1 ++ imports evs2.
Proof. apply omap_app. Qed.

(** The offline closures scheduled in a log, by the shot names they carry. *)
Definition scheduled_shot_names (evs : list Event) : list (dict pystr pystr) :=
  omap (fun ev =>
          match ev_call ev with
          | CScheduleIdleEvent (ImportOfflineMezzanines _ _ _ names) _ =>
              Some names
          | _ => None
          end) evs.

Lemma scheduled_shot_names_app evs1 evs2 :
  scheduled_shot_names (evs1 ++ evs2)
  = scheduled_shot_names evs1 ++ scheduled_shot_names evs2.
Proof. apply omap_app. Qed.

(** [shot_names] after the loop: the name of each segment mapped to its shot
    name, a later segment of the same name replacing an earlier one. *)
Definition shot_names_of (shots : list PySegment) (names : dict pystr pystr)
  : dict pystr pystr :=
  fold_left (fun d shot => dict_set (seg_name shot) (seg_shot_name shot) d)
            shots names.

(** The online masters of a log: the clips [open_as_sequence] answered. *)
Definition opened (evs : list Event) : list PyClip :=
  omap (fun ev =>
          match ev_call ev, ev_out ev with
          | COpenAsSequence _, Ok (RClip master) => Some master
          | _, _ => None
          end) evs.

Lemma opened_app evs1 evs2 : opened (evs1 ++ evs2) = opened evs1 ++ opened evs2.
Proof. apply omap_app. Qed.

(** The resolution of a master, as the loop writes it. *)
Definition resolution_of (master : PyClip) : pystr :=
  str_int (clip_width master) ++ lit "x" ++ str_int (clip_height master).

(** The resolutions of some masters, each once, in the order in which they
    are met first; [seen] are those met before. *)
Definition resolutions_met (seen : list pystr) (masters : list PyClip)
  : list pystr :=
  fold_left (fun seen master =>
               if bool_decide (resolution_of master ∈ seen) then seen
               else seen ++ [resolution_of master])
            masters seen.

Lemma resolutions_met_app seen masters1 masters2 :
  resolutions_met seen (masters1 ++ masters2)
  = resolutions_met (resolutions_met seen masters1) masters2.
Proof. apply fold_left_app. Qed.

Lemma resolutions_met_NoDup masters :
  forall seen, NoDup seen -> NoDup (resolutions_met seen masters).
Proof.
  induction masters as [|master masters IH]; intros seen Hseen; [exact Hseen |].
  cbn [resolutions_met fold_left]. apply IH.
  case_bool_decide as Hin; [exact Hseen |].
  apply NoDup_app. split; [exact Hseen |].
  split; [| apply NoDup_singleton].
  intros x Hx ->%list_elem_of_singleton. done.
Qed.

(** One turn of the loop: the shot is entered into [shot_names]; the slate
    background of the online master's resolution is imported into the
    temporary reel when that resolution is not in [resolutions], and then
    it is appended to it; nothing else is imported and nothing is
    scheduled. *)
Lemma build_shot_master_vars o engine shotgrid temp_reel offline_reel
    online_reel offline_bg vars shot :
  okspec (Masters.build_shot_master o engine shotgrid temp_reel offline_reel
            online_reel offline_bg vars shot)
    (fun vars' evs =>
       Masters.shot_names vars'
       = dict_set (seg_name shot) (seg_shot_name shot)
           (Masters.shot_names vars) /\
       scheduled_shot_names evs = [] /\
       Masters.resolutions vars'
       = resolutions_met (Masters.resolutions vars) (opened evs) /\
       exists new,
         Masters.resolutions vars' = Masters.resolutions vars ++ new /\
         imports evs
         = (fun r => (bg_path o r, Obj (reel_id temp_reel))) <$> new).
Proof.
  intros s.
  unfold Masters.build_shot_master, Masters.generate_slate,
    Masters.get_slate_info, Masters.insert_slate_frame,
    Masters.extract_thumbnail, Masters.create_offline_sequence,
    Masters.write_slate_ttg, Masters.load_slate_setup.
  wp_walk.
  all: trace_done.
  all: split; [reflexivity |]; split; [reflexivity |].
  all: cbn [Masters.resolutions].
  all: repeat match goal with
         | H : negb _ = true |- _ => apply negb_true_iff in H
         | H : negb _ = false |- _ => apply negb_false_iff in H
         end.
  all: split;
    [cbn [opened omap list_omap ev_call ev_out event app resolutions_met
          fold_left];
     unfold resolution_of;
     lazymatch goal with
     | H : bool_decide _ = true |- _ => apply bool_decide_eq_true in H
     | H : bool_decide _ = false |- _ => apply bool_decide_eq_false in H
     end;
     case_bool_decide; first [reflexivity | done] |].
  all: first
    [ exists []; split; [by rewrite app_nil_r | reflexivity]
    | eexists [_]; split; reflexivity ].
Qed.

Lemma build_loop_vars o engine shotgrid temp_reel offline_reel online_reel
    offline_bg shots :
  forall vars,
  okspec (for_fold shots
            (Masters.build_shot_master o engine shotgrid temp_reel
               offline_reel online_reel offline_bg) vars)
    (fun vars' evs =>
       Masters.shot_names vars' = shot_names_of shots (Masters.shot_names vars)
       /\ scheduled_shot_names evs = [] /\
       Masters.resolutions vars'
       = resolutions_met (Masters.resolutions vars) (opened evs) /\
       exists new,
         Masters.resolutions vars' = Masters.resolutions vars ++ new /\
         imports evs
         = (fun r => (bg_path o r, Obj (reel_id temp_reel))) <$> new).
Proof.
  induction shots as [|shot shots IH]; intros vars s; cbn [for_fold].
  - apply wp_ret. exists []. rewrite app_nil_r. split; [reflexivity |].
    split; [reflexivity |]. split; [reflexivity |]. split; [reflexivity |].
    exists []. by rewrite app_nil_r.
  - apply wp_bind.
    eapply wp_okspec; [apply build_shot_master_vars |].
    intros vars1 s1 evs1 Ht1 (Hnames1 & Hsched1 & Hmet1 & new1 & Hres1 & Himp1).
    eapply wp_okspec; [apply IH |].
    intros vars2 s2 evs2 Ht2 (Hnames2 & Hsched2 & Hmet2 & new2 & Hres2 & Himp2).
    trace_done.
    split; [by rewrite Hnames2, Hnames1 |].
    split; [by rewrite scheduled_shot_names_app, Hsched1, Hsched2 |].
    split; [by rewrite opened_app, resolutions_met_app, <- Hmet1 |].
    exists (new1 ++ new2).
    split; [by rewrite Hres2, Hres1, app_assoc |].
    by rewrite imports_app, Himp1, Himp2, fmap_app.
Qed.

(** The imports of a run: the slate backgrounds, all into the reel created
    as [slate elements]; the one for 1920x1080 first, and then one for the
    resolution of every online master that is the first of its resolution,
    in the order of the masters. *)
Definition backgrounds_imported (o : Oracle) (selection : list PyObject)
    (evs : list Event) : Prop :=
  exists sequence temp_reel,
    getitem selection 0 = Ok sequence /\
    event (CCreateReel (reel_group_of sequence) (lit "slate elements"))
          (Ok (RReel temp_reel)) ∈ evs /\
    imports evs
    = (fun r => (bg_path o r, Obj (reel_id temp_reel)))
      <$> (lit "1920x1080" :: resolutions_met [] (opened evs)) /\
    NoDup (resolutions_met [] (opened evs)).

(** Every offline closure scheduled in a log carries the shot names of the
    video segments of the selected sequence. *)
Definition closures_carry_shot_names (selection : list PyObject)
    (evs : list Event) : Prop :=
  exists sequence shots,
    getitem selection 0 = Ok sequence /\
    Masters.collect_sequence_segments sequence = Ok shots /\
    Forall (fun names => names = shot_names_of shots [])
           (scheduled_shot_names evs).

Lemma build_shot_masters_vars o selection :
  okspec (Masters.build_shot_masters_from_sequence o selection)
    (fun _ evs =>
       linked evs ->
       backgrounds_imported o selection evs /\
       closures_carry_shot_names selection evs).
Proof.
  intros s. unfold Masters.build_shot_masters_from_sequence. wp_walk.
  { trace_done. intros [engine Hlog]. not_in_log Hlog. }
  eapply wp_okspec; [apply build_loop_vars |].
  intros vars s1 evs1 Ht1 (Hnames & Hsched & Hmet & new & Hres & Himp).
  cbn [Masters.resolutions Masters.shot_names app] in Hres, Hnames, Hmet.
  unfold Masters.delete_temp_folder, Masters.get_sequences_folders,
    Masters.export_mezzanines.
  wp_walk.
  all: trace_done; intros _.
  all: split; [eexists _, _ | eexists _, _].
  all: try (split; [eassumption |]; split; [eassumption |]).
  all: try (split; [eassumption |]).
  all: try (split;
            [unfold reel_group_of;
             do 3 apply list_elem_of_further; apply list_elem_of_here |]).
  all: rewrite ?imports_app, ?scheduled_shot_names_app, ?opened_app,
         ?Himp, ?Hsched.
  all: cbn [imports scheduled_shot_names opened omap list_omap ev_call ev_out
            event app
            fmap list_fmap];
       rewrite ?app_nil_r.
  all: try (rewrite <- Hmet, Hres;
            split; [reflexivity |];
            rewrite <- Hres, Hmet; apply resolutions_met_NoDup, NoDup_nil_2).
  all: rewrite ?Hnames; repeat constructor.
Qed.

(** On a run that returns with the project linked, the clips imported are
    the slate backgrounds and nothing else, all into the temporary reel (the
    reel created as [slate elements]): the one for 1920x1080 before the
    loop, then, shot after shot, the one for the resolution of the shot's
    online master when no earlier online master had that resolution.  So
    every resolution met in the loop is imported once, and the background
    for 1920x1080 a second time when an online master has that
    resolution. *)
Theorem slate_backgrounds_imported_once (o : Oracle)
    (selection : list PyObject) (s s' : State) (evs : list Event) :
  Masters.build_shot_masters_from_sequence o selection s = (Ok tt, s') ->
  st_trace s' = st_trace s ++ evs ->
  linked evs ->
  backgrounds_imported o selection evs.
Proof.
  intros Hrun Htrace Hlinked.
  destruct (okspec_run _ _ _ _ _ (build_shot_masters_vars o selection) Hrun)
    as (evs' & Htrace' & Hdone).
  rewrite Htrace in Htrace'. apply app_inv_head in Htrace' as <-.
  by apply Hdone.
Qed.

Lemma slate_backgrounds_imported_once_witness :
  let run := Masters.build_shot_masters_from_sequence Demo.oracle
               [ObjSequence Demo.sequence] Demo.start in
  run = (Ok tt, run.2) /\ linked (st_trace run.2) /\
  backgrounds_imported Demo.oracle [ObjSequence Demo.sequence]
    (st_trace run.2).
Proof.
  intros run.
  assert (Hreturns : run.1 = Ok tt) by (vm_compute; reflexivity).
  assert (Hrun : run = (Ok tt, run.2))
    by (rewrite <- Hreturns; apply surjective_pairing).
  assert (Htrace : st_trace run.2 = st_trace Demo.start ++ st_trace run.2)
    by (vm_compute; reflexivity).
  assert (Hlinked : linked (st_trace run.2)).
  { exists {| engine_project := Demo.project |}. in_log. }
  split; [exact Hrun |]. split; [exact Hlinked |].
  exact (slate_backgrounds_imported_once Demo.oracle
           [ObjSequence Demo.sequence] Demo.start run.2 (st_trace run.2)
           Hrun Htrace Hlinked).
Defined.



(** ** Looking up a dict *)

Lemma dict_get_missing {K V} `{EqDecision K} (k : K) (d : dict K V) :
  k ∉ d.*1 -> dict_get k d = Raise KeyError.
Proof.
  induction d as [|[k' v'] d IH]; [reflexivity |]. cbn.
  intros [Hne Hd]%not_elem_of_cons.
  destruct (decide (k' = k)); [congruence | by apply IH].
Qed.

Lemma dict_get_entry {K V} `{EqDecision K} (k : K) (v : V) (d : dict K V) :
  dict_get k d = Ok v -> (k, v) ∈ d.
Proof.
  induction d as [|[k' v'] d IH]; [discriminate |]. cbn.
  destruct (decide (k' = k)) as [->|Hne].
  - intros [= ->]. apply list_elem_of_here.
  - intros H. apply list_elem_of_further. by apply IH.
Qed.

(** ** The archive library *)

(** The dict [get_sequences_folders] makes of the folders of a library. *)
Definition folders_by_name (folders : list PyFolder) (d : dict pystr PyFolder)
  : dict pystr PyFolder :=
  fold_left (fun d folder => dict_set (folder_name folder) folder d) folders d.

Lemma folders_by_name_keys (folders : list PyFolder) :
  forall d name,
    name ∈ (folders_by_name folders d).*1 <->
    name ∈ d.*1 \/ name ∈ folder_name <$> folders.
Proof.
  induction folders as [|folder folders IH]; intros d name; cbn.
  - rewrite elem_of_nil. tauto.
  - unfold folders_by_name in IH. rewrite IH, dict_set_keys, elem_of_cons.
    split; [intros [[->|?]|?] | intros [?|[->|?]]]; auto.
Qed.

Lemma folders_by_name_entries (folders : list PyFolder) :
  forall d name folder,
    (name, folder) ∈ folders_by_name folders d ->
    (name, folder) ∈ d \/ (folder ∈ folders /\ folder_name folder = name).
Proof.
  induction folders as [|f folders IH]; intros d name folder; cbn.
  - by left.
  - intros [Hin | [Hin Hname]]%IH.
    + apply dict_set_entries in Hin as [[-> ->] | Hin]; [| by left].
      right. split; [apply list_elem_of_here | reflexivity].
    + right. split; [by apply list_elem_of_further | exact Hname].
Qed.

(** When the workspace has a library whose name holds [Shot Sequences],
    [get_sequences_folders] creates nothing and returns the folders of the
    first such library under their names, whatever they are called.  If
    none of them is called [online], the closure that re-imports the online
    mezzanines raises [KeyError] before it moves or imports anything. *)
Theorem existing_library_used_as_found (o : Oracle) (reel_group : ref)
    (s : State) (libraries : list PyLibrary) (library : PyLibrary) :
  let listing := CGetLibraries (workspace_of reel_group) in
  let archive_library := folders_by_name (library_folders library) [] in
  respond o (st_trace s) listing = Ok (RLibraries libraries) ->
  List.find (fun library =>
               py_in (lit "Shot Sequences") (library_name library)) libraries
    = Some library ->
  Masters.get_sequences_folders o reel_group s
    = (Ok archive_library, logged s listing (Ok (RLibraries libraries))) /\
  (forall name, name ∈ archive_library.*1 <->
                name ∈ folder_name <$> library_folders library) /\
  (forall name folder,
      dict_get name archive_library = Ok folder ->
      folder ∈ library_folders library /\ folder_name folder = name) /\
  (lit "online" ∉ folder_name <$> library_folders library ->
   forall online_reel online_mezzanines s0,
     Masters.run_callback o
       (ImportOnlineMezzanines online_reel archive_library online_mezzanines)
       s0
     = (Raise KeyError, s0)).
Proof.
  intros listing archive_library Hlisting Hfind.
  split; [| split; [| split]].
  - unfold Masters.get_sequences_folders. run_unfold.
    fold (workspace_of reel_group). fold listing. rewrite Hlisting.
    cbn [st_trace st_fs]. rewrite Hfind. reflexivity.
  - intros name. subst archive_library.
    rewrite folders_by_name_keys. cbn. rewrite elem_of_nil. tauto.
  - intros name folder Hget.
    apply dict_get_entry, folders_by_name_entries in Hget
      as [[]%elem_of_nil | Hin]. exact Hin.
  - intros Hmissing online_reel online_mezzanines s0.
    unfold Masters.run_callback. run_unfold.
    rewrite dict_get_missing; [reflexivity |].
    subst archive_library. rewrite folders_by_name_keys. cbn.
    rewrite elem_of_nil. tauto.
Qed.

(** A workspace whose [Shot Sequences] library has one folder, [masters]. *)
Definition archive_of_masters : PyLibrary :=
  {| library_id := 50%nat; library_name := lit "Shot Sequences 2026";
     library_folders :=
       [{| folder_id := 51%nat; folder_name := lit "masters" |}] |}.

Definition with_library : Oracle :=
  host_answering (fun c => match c with
                           | CGetLibraries _ =>
                               Some (Ok (RLibraries [archive_of_masters]))
                           | _ => None
                           end).

Lemma existing_library_used_as_found_witness :
  let archive_library :=
    [(lit "masters", {| folder_id := 51%nat; folder_name := lit "masters" |})]
  in
  Masters.get_sequences_folders with_library (Obj 5%nat) Demo.start
    = (Ok archive_library,
       logged Demo.start (CGetLibraries (workspace_of (Obj 5%nat)))
         (Ok (RLibraries [archive_of_masters]))) /\
  Masters.run_callback with_library
    (ImportOnlineMezzanines Demo.reel archive_library (lit "/data/out/mti"))
    Demo.start
  = (Raise KeyError, Demo.start).
Proof.
  intros archive_library.
  destruct (existing_library_used_as_found with_library (Obj 5%nat)
              Demo.start [archive_of_masters] archive_of_masters)
    as (Hrun & _ & _ & Hraise); [reflexivity | reflexivity |].
  split; [exact Hrun |]. apply Hraise.
  intros Hin. vm_compute in Hin.
  apply elem_of_cons in Hin as [Hin | Hin]; [discriminate Hin |].
  by apply elem_of_nil in Hin.
Defined.

(** ** The offline closure *)

Lemma for_each_blocks {A} (P : A -> list Event -> Prop) (l : list A)
    (body : A -> M unit) :
  (forall x, okspec (body x) (fun _ evs => P x evs)) ->
  okspec (for_each l body)
    (fun _ evs => exists blocks, evs = concat blocks /\ Forall2 P l blocks).
Proof.
  intros Hbody. induction l as [|x l IH]; intros s; cbn [for_each].
  - apply wp_ret. exists []. rewrite app_nil_r. split; [reflexivity |].
    exists []. split; [reflexivity | constructor].
  - apply wp_bind.
    eapply wp_okspec; [apply Hbody |].
    intros u1 s1 evs1 Ht1 HP.
    eapply wp_okspec; [apply IH |].
    intros u2 s2 evs2 Ht2 (blocks & -> & Hblocks).
    trace_done. exists (evs1 :: blocks). split; [reflexivity |].
    by constructor.
Qed.

(** The shot name set on the first segment of a clip. *)
Definition shot_name_set (shot_names : dict pystr pystr) (clip : PyClip)
    (block : list Event) : Prop :=
  exists shot_name r,
    dict_get (clip_name clip) shot_names = Ok shot_name /\
    block = [event (CSetAttr (Masters.segment_ref (Obj (clip_id clip)) 0 0 0)
                      "shot_name" (AStr shot_name))
                   (Ok r)].

(** When the closure that re-imports the offline mezzanines returns, it has
    moved the sequences of the reel, imported the mezzanines, read the clips
    of the reel again, and set on the first segment of every one of them, in
    their order, the shot name recorded under the clip's name: every clip of
    the reel has a name that was recorded. *)
Theorem offline_closure_restores_shot_names (o : Oracle)
    (offline_reel : PyReel) (archive_library : dict pystr PyFolder)
    (offline_mezzanines : pystr) (shot_names : dict pystr pystr)
    (s s' : State) :
  Masters.run_callback o
    (ImportOfflineMezzanines offline_reel archive_library offline_mezzanines
       shot_names) s
  = (Ok tt, s') ->
  exists folder r1 r2 clips blocks,
    dict_get (lit "offline") archive_library = Ok folder /\
    st_trace s' =
      st_trace s
      ++ reimport_events offline_reel folder offline_mezzanines r1 r2
      ++ event (CGetClips (Obj (reel_id offline_reel))) (Ok (RClips clips))
      :: concat blocks /\
    Forall2 (shot_name_set shot_names) clips blocks.
Proof.
  intros Hrun.
  assert (Hspec : okspec (Masters.run_callback o
            (ImportOfflineMezzanines offline_reel archive_library
               offline_mezzanines shot_names))
    (fun _ evs =>
       exists folder r1 r2 clips blocks,
         dict_get (lit "offline") archive_library = Ok folder /\
         evs = reimport_events offline_reel folder offline_mezzanines r1 r2
               ++ event (CGetClips (Obj (reel_id offline_reel)))
                        (Ok (RClips clips))
               :: concat blocks /\
         Forall2 (shot_name_set shot_names) clips blocks)).
  { intros s0. unfold Masters.run_callback. wp_walk.
    eapply wp_okspec.
    { apply (for_each_blocks (shot_name_set shot_names)). intros clip s1.
      wp_walk. trace_done. by eexists _, _. }
    intros u1 s1 evs1 Ht1 (blocks & -> & Hblocks).
    trace_done. eexists _, _, _, _, blocks.
    split; [eassumption |]. split; [reflexivity | exact Hblocks]. }
  destruct (okspec_run _ _ _ _ _ Hspec Hrun)
    as (evs & Ht & folder & r1 & r2 & clips & blocks & Hf & -> & Hb).
  by exists folder, r1, r2, clips, blocks.
Qed.

Lemma offline_closure_restores_shot_names_witness :
  let archive_library :=
    [(lit "offline", {| folder_id := 5%nat; folder_name := lit "offline" |})]
  in
  let shot_names := [(lit "bg_3840x2160", lit "sh010")] in
  let run :=
    Masters.run_callback Demo.oracle
      (ImportOfflineMezzanines Demo.reel archive_library (lit "/data/out")
         shot_names) Demo.start in
  run = (Ok tt, run.2) /\
  exists folder r1 r2 clips blocks,
    dict_get (lit "offline") archive_library = Ok folder /\
    st_trace run.2 =
      st_trace Demo.start
      ++ reimport_events Demo.reel folder (lit "/data/out") r1 r2
      ++ event (CGetClips (Obj (reel_id Demo.reel))) (Ok (RClips clips))
      :: concat blocks /\
    Forall2 (shot_name_set shot_names) clips blocks.
Proof.
  intros archive_library shot_names run.
  assert (Hreturns : run.1 = Ok tt) by (vm_compute; reflexivity).
  assert (Hrun : run = (Ok tt, run.2))
    by (rewrite <- Hreturns; apply surjective_pairing).
  split; [exact Hrun |].
  exact (offline_closure_restores_shot_names Demo.oracle Demo.reel
           archive_library (lit "/data/out") shot_names Demo.start run.2
           Hrun).
Defined.

(** ** The names of the reels *)

Lemma endswith_occurs (p s : pystr) :
  endswith p s = true -> py_in p s = true.
Proof.
  unfold endswith. intros [r Hr]%startswith_prefix.
  apply py_in_occurs. exists (rev r), [].
  rewrite app_nil_r, <- (rev_involutive s), Hr, rev_app_distr.
  by rewrite rev_involutive.
Qed.

Lemma py_in_absent (p s : pystr) :
  py_in p s = false <-> forall a b, s = a ++ b -> startswith p b = false.
Proof.
  split.
  - intros Hin a b ->. destruct (startswith p b) eqn:E; [| reflexivity].
    apply startswith_prefix in E as [r ->].
    assert (py_in p (a ++ p ++ r) = true)
      by (apply py_in_occurs; by exists a, r).
    congruence.
  - intros Hall. destruct (py_in p s) eqn:E; [| reflexivity].
    apply py_in_occurs in E as (a & b & ->).
    specialize (Hall a (p ++ b) eq_refl).
    assert (startswith p (p ++ b) = true)
      by (apply startswith_prefix; by exists b).
    congruence.
Qed.

Lemma startswith_snoc (p b : pystr) (c : char) :
  startswith p (b ++ [c]) = true -> startswith p b = true \/ p = b ++ [c].
Proof.
  revert b. induction p as [|x p IH]; intros b; [by left |].
  destruct b as [|y b]; cbn.
  - rewrite andb_true_iff, N.eqb_eq. intros [-> Hp]. right.
    destruct p; [done | discriminate].
  - rewrite !andb_true_iff, N.eqb_eq. intros [-> Hp].
    destruct (IH b Hp) as [H | ->]; [| by right].
    by left.
Qed.

(** [comp_submissions] does not come back when it is replaced by [mti]. *)
Lemma clear_after_mti (p r : pystr) :
  let old := lit "comp_submissions" in
  clear_of old p (old ++ r) -> clear_of old (p ++ lit "mti") r.
Proof.
  intros old Hclear a b Hab Hb.
  destruct (startswith old (b ++ r)) eqn:E; [exfalso | reflexivity].
  (* [b] is a suffix of [p ++ "mti"] *)
  assert (Hcase : (exists b0, b0 <> [] /\ b = b0 ++ lit "mti" /\
                              exists a0, p = a0 ++ b0) \/
                  b = lit "mti" \/ b = lit "ti" \/ b = lit "i").
  { clear E Hclear. revert a Hab.
    induction p as [|x p IH]; intros a Hab.
    - cbn [app] in Hab. right.
      change (lit "mti") with [109%N; 116%N; 105%N] in *.
      change (lit "ti") with [116%N; 105%N].
      change (lit "i") with [105%N].
      destruct a as [|a1 a]; cbn [app] in Hab; [left; by rewrite <- Hab |].
      injection Hab as _ Hab.
      destruct a as [|a2 a]; cbn [app] in Hab; [right; left; by rewrite <- Hab |].
      injection Hab as _ Hab.
      destruct a as [|a3 a]; cbn [app] in Hab; [right; right; by rewrite <- Hab |].
      injection Hab as _ Hab.
      destruct a; cbn [app] in Hab; [by subst b | discriminate].
    - destruct a as [|a1 a]; cbn [app] in Hab.
      + left. exists (x :: p). split; [done |]. split; [exact (eq_sym Hab) |].
        by exists [].
      + injection Hab as <- Hab.
        destruct (IH a Hab) as [(b0 & Hb0 & -> & a0 & ->) | Hsmall].
        * left. exists b0. split; [done |]. split; [reflexivity |].
          by exists (x :: a0).
        * by right. }
  destruct Hcase as [(b0 & Hb0 & -> & a0 & ->) | [-> | [-> | ->]]];
    [| discriminate E ..].
  change (lit "mti") with ([109%N] ++ 116%N :: [105%N]) in E.
  rewrite <- !app_assoc in E. cbn [app] in E.
  change (b0 ++ 109%N :: 116%N :: 105%N :: r)
    with (b0 ++ [109%N] ++ 116%N :: 105%N :: r) in E.
  rewrite app_assoc in E.
  apply startswith_before in E.
  2:{ intros Hin. vm_compute in Hin.
      repeat (apply elem_of_cons in Hin as [Hin | Hin]; [discriminate Hin |]).
      by apply elem_of_nil in Hin. }
  apply startswith_snoc in E as [E | E].
  - apply startswith_prefix in E as [t Ht].
    assert (Hfalse : startswith old (b0 ++ old ++ r) = false)
      by (by apply (Hclear a0 b0)).
    assert (startswith old (b0 ++ old ++ r) = true).
    { apply startswith_prefix. exists (t ++ old ++ r).
      by rewrite Ht, <- app_assoc. }
    congruence.
  - apply (f_equal last) in E. rewrite last_snoc in E. discriminate E.
Qed.

Lemma no_comp_submissions_left (s : pystr) :
  py_in (lit "comp_submissions")
        (py_replace (lit "comp_submissions") (lit "mti") s) = false.
Proof.
  set (old := lit "comp_submissions"). set (new := lit "mti").
  assert (Hold : old <> []) by done.
  assert (Hgen : forall n s, (length s <= n)%nat -> forall p,
            clear_of old p s -> py_in old (p ++ py_replace old new s) = false).
  { induction n as [|n IH]; intros s0 Hlen p Hclear.
    - destruct s0; [| cbn in Hlen; lia]. cbn. rewrite app_nil_r.
      apply py_in_absent. intros a b -> .
      destruct b as [|y b]; [reflexivity |].
      rewrite <- (app_nil_r (y :: b)). by apply (Hclear a).
    - destruct s0 as [|ch s0].
      { cbn. rewrite app_nil_r.
        apply py_in_absent. intros a b -> .
        destruct b as [|y b]; [reflexivity |].
        rewrite <- (app_nil_r (y :: b)). by apply (Hclear a). }
      destruct (startswith old (ch :: s0)) eqn:E.
      + apply startswith_prefix in E as [r Hr]. rewrite Hr.
        rewrite py_replace_match by done. rewrite app_assoc.
        apply IH.
        * apply (f_equal (@length _)) in Hr. rewrite length_app in Hr.
          cbn in Hlen, Hr. change (length old) with 16%nat in Hr. lia.
        * apply clear_after_mti. rewrite Hr in Hclear. exact Hclear.
      + rewrite py_replace_copy by done.
        change (p ++ ch :: py_replace old new s0)
          with (p ++ [ch] ++ py_replace old new s0).
        rewrite app_assoc. apply IH; [cbn in Hlen; lia |].
        intros a b Hab Hb.
        destruct (exists_last Hb) as (b0 & y & ->).
        rewrite app_assoc in Hab. apply app_inj_tail in Hab as [-> <-].
        rewrite <- app_assoc. cbn [app].
        destruct b0 as [|z b0]; [exact E |].
        by apply (Hclear a (z :: b0)). }
  apply (Hgen (length s) s (le_n _) []).
  intros a b Hab Hb. by destruct a, b.
Qed.

(** ** The menu entries of the two hooks *)

Lemma scope_reel_cases (selection : list PyObject) :
  Playlist.scope_reel selection =
    match selection with
    | [] => Raise IndexError
    | [ObjReel r] => Ok (py_in (lit "comp_submissions") (reel_name r))
    | _ => Ok false
    end.
Proof.
  destruct selection as [|x [|y rest]]; [reflexivity | |].
  - unfold Playlist.scope_reel. rewrite getitem_0.
    change (1 <? len [x]) with false.
    destruct x; cbn; try reflexivity.
    destruct (py_in _ _); reflexivity.
  - unfold Playlist.scope_reel, len. cbn [length].
    replace (1 <? Z.of_nat (S (S (length rest)))) with true;
      [destruct x; reflexivity |].
    symmetry. apply Z.ltb_lt. lia.
Qed.

Lemma scope_sequence_cases (selection : list PyObject) :
  Masters.scope_sequence selection =
    Ok match selection with
       | [ObjSequence s] => endswith (lit "comp_submissions") (clip_name s)
       | _ => false
       end.
Proof.
  destruct selection as [|x [|y rest]]; [reflexivity | |].
  - unfold Masters.scope_sequence. rewrite getitem_0.
    change (len [x] =? 1) with true.
    destruct x; cbn; try reflexivity.
    destruct (endswith _ _); reflexivity.
  - unfold Masters.scope_sequence, len. cbn [length].
    replace (Z.of_nat (S (S (length rest))) =? 1) with false;
      [destruct x; reflexivity |].
    symmetry. apply Z.eqb_neq. lia.
Qed.


(** What [scope_reel] says of a reel that would be created under a name. *)
Definition reel_shown (name : pystr) (shown : bool) : Prop :=
  forall reel, reel_name reel = name ->
               Playlist.scope_reel [ObjReel reel] = Ok shown.

(** The reels created for a sequence: the temporary one, the offline one
    under the name of the sequence, and the online one under the name with
    [comp_submissions] replaced by [mti]. *)
Definition reel_of_sequence (name : pystr) (ev : Event) : Prop :=
  match ev_call ev with
  | CCreateReel _ reel_name =>
      (reel_name = lit "slate elements" /\ reel_shown reel_name false) \/
      (reel_name = name /\ reel_shown reel_name true) \/
      (reel_name
       = py_replace (lit "comp_submissions") (lit "mti") name /\
       reel_shown reel_name false)
  | _ => True
  end.

(** From a sequence for which the entry of [create_shot_masters.py] is
    shown, [build_shot_masters_from_sequence] creates no other reels than
    these three, and of them the entry of [create_playlist_for_review.py]
    is shown for the offline reel only: the name of a sequence that ends in
    [comp_submissions] holds it, and it is gone from the name of the online
    reel. *)
Theorem reels_of_a_shown_sequence (o : Oracle) (sequence : PyClip) :
  Masters.scope_sequence [ObjSequence sequence] = Ok true ->
  every (reel_of_sequence (clip_name sequence))
        (Masters.build_shot_masters_from_sequence o [ObjSequence sequence]).
Proof.
  rewrite scope_sequence_cases. intros [= Hends].
  assert (Htemp : reel_shown (lit "slate elements") false).
  { intros reel Hname. by rewrite scope_reel_cases, Hname. }
  assert (Hoffline : reel_shown (clip_name sequence) true).
  { intros reel Hname. rewrite scope_reel_cases, Hname.
    by rewrite endswith_occurs. }
  assert (Honline :
    reel_shown (py_replace (lit "comp_submissions") (lit "mti")
                  (clip_name sequence)) false).
  { intros reel Hname. rewrite scope_reel_cases, Hname.
    by rewrite no_comp_submissions_left. }
  unfold Masters.build_shot_masters_from_sequence. rewrite getitem_0.
  unfold Masters.get_sequences_folders, Masters.export_mezzanines,
    Masters.delete_temp_folder.
  every_walk; try exact I.
  all: try match goal with H : Ok _ = Ok _ |- _ => injection H as <- end.
  all: try (cbn; tauto).
  all: try match goal with H : obj_name _ = Ok _ |- _ =>
             injection H as <- end.
  all: try (cbn; tauto).
  apply every_for_fold. intros vars shot _.
  unfold Masters.build_shot_master, Masters.generate_slate,
    Masters.get_slate_info, Masters.insert_slate_frame,
    Masters.extract_thumbnail, Masters.create_offline_sequence,
    Masters.write_slate_ttg, Masters.load_slate_setup.
  every_walk; exact I.
Qed.

Lemma reels_of_a_shown_sequence_witness :
  Masters.scope_sequence [ObjSequence Demo.sequence] = Ok true /\
  every (reel_of_sequence (clip_name Demo.sequence))
        (Masters.build_shot_masters_from_sequence Demo.oracle
           [ObjSequence Demo.sequence]).
Proof.
  assert (Hshown : Masters.scope_sequence [ObjSequence Demo.sequence]
                   = Ok true) by (vm_compute; reflexivity).
  split; [exact Hshown |].
  exact (reels_of_a_shown_sequence Demo.oracle Demo.sequence Hshown).
Defined.

(** ** Two tokens on one line *)

(** A line after the lines of a dict were written: it is kept when no index
    of the dict stands for it, and else holds one of the values written to
    it. *)
Lemma written_lookup (n : nat) (new_lines : dict Z pystr) :
  forall (cur : list pystr) (j : nat),
    length cur = n -> (j < n)%nat ->
    let written :=
      fold_left (fun l '(index, value) => <[slot n index := value]> l)
                new_lines cur in
    ((forall index value, (index, value) ∈ new_lines -> slot n index <> j) ->
     written !! j = cur !! j) /\
    ((exists index value, (index, value) ∈ new_lines /\ slot n index = j) ->
     exists index value,
       (index, value) ∈ new_lines /\ slot n index = j /\
       written !! j = Some value).
Proof.
  induction new_lines as [|[index value] d IH]; intros cur j Hlen Hj; cbn zeta.
  - split; [done |]. intros (? & ? & []%elem_of_nil & _).
  - cbn [fold_left].
    destruct (IH (<[slot n index := value]> cur) j) as [Hkeep Hset];
      [by rewrite length_insert | done |].
    cbv zeta in Hkeep, Hset. split.
    + intros Hnone. rewrite Hkeep.
      * apply list_lookup_insert_ne. apply (Hnone index value).
        apply list_elem_of_here.
      * intros index' value' Hin. apply (Hnone index' value'). by apply list_elem_of_further.
    + intros (index0 & value0 & Hin0 & Hslot0).
      destruct (existsb (fun kv => bool_decide (slot n kv.1 = j)) d) eqn:Hany.
      * apply existsb_exists in Hany as ([index' value'] & Hin & Hslot).
        apply bool_decide_eq_true in Hslot. apply list_elem_of_In in Hin.
        destruct Hset as (index1 & value1 & Hin1 & Hslot1 & Hlook);
          [by exists index', value' |].
        exists index1, value1.
        split; [by apply list_elem_of_further | done].
      * assert (Hd : forall index' value',
                   (index', value') ∈ d -> slot n index' <> j).
        { intros index' value' Hin Hslot.
          assert (existsb (fun kv => bool_decide (slot n kv.1 = j)) d = true);
            [| congruence].
          apply existsb_exists. exists (index', value').
          split; [by apply list_elem_of_In |].
          by apply bool_decide_eq_true. }
        apply elem_of_cons in Hin0 as [[= -> ->] | Hin0];
          [| by destruct (Hd _ _ Hin0)].
        exists index, value. split; [apply list_elem_of_here |].
        split; [exact Hslot0 |].
        rewrite (Hkeep Hd), <- Hslot0. apply list_lookup_insert_eq.
        rewrite Hlen, Hslot0. exact Hj.
Qed.

(** Line [i] of the template is a text line that holds the token. *)
Definition line_holds (setup : list pystr) (token : pystr) (i : nat) : Prop :=
  exists line, setup !! i = Some line /\ holds_token token line.

(** The token of a pair leaves line [j] alone: neither that line nor the
    next holds it, nor the first line when [j] is the last. *)
Definition leaves_alone (setup : list pystr) (token : pystr) (j : nat)
  : Prop :=
  ~ line_holds setup token j /\ ~ line_holds setup token (S j) /\
  (S j = length setup -> ~ line_holds setup token 0).

Lemma rfold_app {A S} (body : S -> A -> result S) (l1 l2 : list A) (acc : S) :
  rfold body (l1 ++ l2) acc = rbind (rfold body l1 acc) (rfold body l2).
Proof.
  revert acc. induction l1 as [|x l1 IH]; intros acc; [reflexivity |].
  cbn [app rfold]. destruct (body acc x); [apply IH | reflexivity].
Qed.

Lemma slot_of_key (n i j : nat) (index : Z) :
  (i < n)%nat -> (j < n)%nat ->
  index = Z.of_nat i \/ index = Z.of_nat i - 1 ->
  slot n index = j ->
  (index = Z.of_nat i /\ i = j) \/
  (index = Z.of_nat i - 1 /\ i = S j) \/
  (index = -1 /\ i = 0%nat /\ S j = n).
Proof.
  unfold slot. intros Hi Hj [-> | ->].
  - destruct (Z.ltb_spec (Z.of_nat i) 0); lia.
  - destruct (Z.ltb_spec (Z.of_nat i - 1) 0); lia.
Qed.

(** The pairs whose token leaves a line alone keep it. *)
Lemma token_loop_keeps (setup : list pystr) (j : nat)
    (slate_info : dict pystr pyval) :
  (j < length setup)%nat ->
  Forall (fun '(token, _) => leaves_alone setup token j) slate_info ->
  forall cur : list pystr,
    length cur = length setup ->
    exists filled,
      rfold (fun slate_setup '(token, value) =>
               Masters.update_setup slate_setup
                 (Masters.replace_token token value
                    (Masters.text_lines_of setup)))
            slate_info cur = Ok filled /\
      length filled = length setup /\
      filled !! j = cur !! j.
Proof.
  intros Hj. induction 1 as [|[token value] l Halone _ IH]; intros cur Hlen.
  - by exists cur.
  - cbn [rfold].
    rewrite (update_setup_from (length setup)) by done.
    rewrite replace_token_in_range. cbn [rbind].
    edestruct IH as (filled & Hrun & Hlenf & Hlook);
      [by rewrite length_written |].
    exists filled. split; [exact Hrun |]. split; [exact Hlenf |].
    rewrite Hlook.
    apply (written_lookup (length setup)); [done | done |].
    intros index new_line Hin Hslot.
    assert (Hkey : index ∈ (Masters.replace_token token value
                              (Masters.text_lines_of setup)).*1).
    { apply list_elem_of_fmap. by exists (index, new_line). }
    apply replace_token_keys in Hkey as (i & line & Hi & Hholds & Hcase).
    destruct Halone as (H0 & H1 & H2).
    pose proof (lookup_lt_Some _ _ _ Hi) as Hlt.
    destruct (slot_of_key _ i j index Hlt Hj Hcase Hslot)
      as [[_ ->] | [[_ ->] | (_ & -> & Hlast)]].
    + apply H0. by exists line.
    + apply H1. by exists line.
    + apply (H2 Hlast). by exists line.
Qed.

(** The text lines are read once, before the loop: when a line holds the
    tokens of several pairs, each of them is replaced in the line as the
    template has it, and the last one is what stays.  For the last pair
    with its token on a line, whatever pairs come before it: the line ends
    as the template's line with that token replaced and no other. *)
Theorem last_token_on_a_line_stays (setup : list pystr)
    (before after : dict pystr pyval) (token : pystr) (value : pyval)
    (j : nat) (line : pystr) :
  setup !! j = Some line ->
  holds_token token line ->
  ~ line_holds setup token (S j) ->
  (S j = length setup -> ~ line_holds setup token 0) ->
  Forall (fun '(token', _) => leaves_alone setup token' j) after ->
  exists filled,
    Masters.fill_slate_setup setup (before ++ (token, value) :: after)
      = Ok filled /\
    filled !! j = Some (substituted token value line).
Proof.
  intros Hline Hholds Hnext Hwrap Hafter.
  pose proof (lookup_lt_Some _ _ _ Hline) as Hj.
  unfold Masters.fill_slate_setup. cbv zeta. rewrite rfold_app.
  destruct (token_loop_returns setup before setup eq_refl)
    as (cur & -> & Hlen).
  cbn [rbind rfold].
  rewrite (update_setup_from (length setup)) by done.
  rewrite replace_token_in_range. cbn [rbind].
  edestruct (token_loop_keeps setup j after Hj Hafter)
    as (filled & Hrun & _ & Hlook); [by rewrite length_written |].
  exists filled. split; [exact Hrun |]. rewrite Hlook.
  destruct (proj2 (written_lookup (length setup)
                     (Masters.replace_token token value
                        (Masters.text_lines_of setup)) cur j Hlen Hj))
    as (index & new_line & Hin & Hslot & ->).
  { assert (Hkey : Z.of_nat j ∈ (Masters.replace_token token value
                                   (Masters.text_lines_of setup)).*1)
      by (apply replace_token_keys; exists j, line; auto).
    apply list_elem_of_fmap in Hkey as ([index new_line] & Hindex & Hin).
    cbn in Hindex. subst index. exists (Z.of_nat j), new_line.
    split; [exact Hin |].
    unfold slot. destruct (Z.ltb_spec (Z.of_nat j) 0); lia. }
  f_equal.
  apply replace_token_entries in Hin
    as (i & line' & Hi & Hholds' & Hcase).
  pose proof (lookup_lt_Some _ _ _ Hi) as Hlt.
  assert (Hkey : index = Z.of_nat i \/ index = Z.of_nat i - 1)
    by (destruct Hcase as [[-> _] | [-> _]]; auto).
  destruct (slot_of_key _ i j index Hlt Hj Hkey Hslot)
    as [[-> ->] | [[_ ->] | (_ & -> & Hlast)]].
  - destruct Hcase as [[_ ->] | [Heq _]]; [congruence | lia].
  - destruct Hnext. by exists line'.
  - destruct (Hwrap Hlast). by exists line'.
Qed.

Lemma last_token_on_a_line_stays_witness :
  exists filled,
    Masters.fill_slate_setup
      [lit "TextLength 7" ++ [10%N];
       lit "Text 60 65 62 32 60 66 62" ++ [10%N]]
      [(lit "<A>", PyStr (lit "x")); (lit "<B>", PyStr (lit "y"))]
    = Ok filled /\
    filled !! 1%nat = Some (lit "Text 60 65 62 32 121" ++ [10%N]).
Proof.
  destruct (last_token_on_a_line_stays
              [lit "TextLength 7" ++ [10%N];
               lit "Text 60 65 62 32 60 66 62" ++ [10%N]]
              [(lit "<A>", PyStr (lit "x"))] [] (lit "<B>")
              (PyStr (lit "y")) 1%nat
              (lit "Text 60 65 62 32 60 66 62" ++ [10%N]))
    as (filled & Hrun & Hline).
  - reflexivity.
  - split; vm_compute; reflexivity.
  - intros (line & Hl & _). discriminate Hl.
  - intros _ (line & [= <-] & _ & Hp). vm_compute in Hp. discriminate Hp.
  - constructor.
  - exists filled. split; [exact Hrun |].
    etrans; [exact Hline | vm_compute; reflexivity].
Defined.

(** ** The slate info and the name of the version *)

Lemma py_split_not_empty (c : char) (s : pystr) : py_split c s <> [].
Proof.
  induction s as [|a s IH]; cbn; [done |].
  destruct (a =? c)%N; [done |]. by destruct (py_split c s).
Qed.

(** Joining what [split] gives restores the string. *)
Lemma py_join_split (c : char) (s : pystr) :
  py_join [c] (py_split c s) = s.
Proof.
  induction s as [|a s IH]; [reflexivity |]. cbn [py_split].
  destruct (N.eqb_spec a c) as [-> | Hne].
  - pose proof (py_split_not_empty c s) as Hs.
    destruct (py_split c s) as [|w ws]; [done |].
    change (py_join [c] ([] :: w :: ws)) with (c :: py_join [c] (w :: ws)).
    by rewrite IH.
  - pose proof (py_split_not_empty c s) as Hs.
    destruct (py_split c s) as [|w ws]; [done |].
    rewrite <- IH. by destruct ws.
Qed.

Lemma py_split_parts (c : char) (s : pystr) :
  Forall (fun p => c ∉ p) (py_split c s).
Proof.
  induction s as [|a s IH]; cbn.
  - repeat constructor. apply not_elem_of_nil.
  - destruct (N.eqb_spec a c) as [-> | Hne].
    + constructor; [apply not_elem_of_nil | exact IH].
    + destruct (py_split c s) as [|w ws].
      * repeat constructor. apply not_elem_of_cons.
        split; [congruence | apply not_elem_of_nil].
      * apply Forall_cons in IH as [Hw Hws]. constructor; [| exact Hws].
        apply not_elem_of_cons. split; [congruence | exact Hw].
Qed.

(** The last two items of a list, as Python's [-2] and [-1] find them. *)
Lemma getitem_last_two {A} (l : list A) (x y : A) :
  getitem l (-2) = Ok x -> getitem l (-1) = Ok y ->
  exists pre, l = pre ++ [x; y].
Proof.
  unfold getitem, len. intros Hx Hy.
  destruct (rev l) as [|y' [|x' r]] eqn:Hrev.
  - apply (f_equal (@rev _)) in Hrev. rewrite rev_involutive in Hrev.
    subst l. discriminate Hx.
  - apply (f_equal (@rev _)) in Hrev. rewrite rev_involutive in Hrev.
    subst l. discriminate Hx.
  - apply (f_equal (@rev _)) in Hrev. rewrite rev_involutive in Hrev.
    cbn [rev] in Hrev. rewrite <- app_assoc in Hrev. cbn [app] in Hrev.
    subst l. exists (rev r).
    rewrite length_app in Hx, Hy. cbn [length] in Hx, Hy.
    change (-2 <? 0) with true in Hx. change (-1 <? 0) with true in Hy.
    cbv iota in Hx, Hy.
    replace (Z.to_nat (Z.of_nat (length (rev r) + 2) + -2))
      with (length (rev r) + 0)%nat in Hx by lia.
    replace (Z.to_nat (Z.of_nat (length (rev r) + 2) + -1))
      with (length (rev r) + 1)%nat in Hy by lia.
    rewrite lookup_app_r in Hx, Hy by lia.
    replace (length (rev r) + 0 - length (rev r))%nat with 0%nat in Hx by lia.
    replace (length (rev r) + 1 - length (rev r))%nat with 1%nat in Hy by lia.
    cbn in Hx, Hy.
    destruct (_ && _) in Hx; [| discriminate].
    destruct (_ && _) in Hy; [| discriminate].
    by injection Hx as ->; injection Hy as ->.
Qed.

Lemma py_join_has_sep (c : char) (parts : list pystr) (x y : pystr) :
  c ∈ py_join [c] (parts ++ [x; y]).
Proof.
  induction parts as [|p parts IH].
  - cbn. apply elem_of_app. right. apply list_elem_of_here.
  - destruct parts as [|q parts].
    + cbn [app]. change (py_join [c] [p; x; y])
        with (p ++ c :: py_join [c] [x; y]).
      apply elem_of_app. right. apply list_elem_of_here.
    + change (py_join [c] ((p :: q :: parts) ++ [x; y]))
        with (p ++ c :: py_join [c] ((q :: parts) ++ [x; y])).
      apply elem_of_app. right. apply list_elem_of_here.
Qed.

(** The tags of a slate, in the order [get_slate_info] enters them. *)
Definition slate_tags : list pystr :=
  [lit "<CODE>"; lit "<DESCRIPTION>"; lit "<TYPE>"; lit "<VERSION>";
   lit "<CURRENT_DATE>"; lit "<ARTIST>"; lit "<DURATION>"; lit "<HANDLES>";
   lit "<FILE_NAME>"; lit "<NOTES>"].

(** When [get_slate_info] returns, the dict has the ten tags, in this
    order.  The name of the version ends in [_TYPE_VERSION]: [<TYPE>] and
    [<VERSION>] are its last two parts between underscores, so the name has
    an underscore (a name without one raises [IndexError]).  [<DURATION>]
    and [<HANDLES>] are the source duration and the head of the segment
    followed by [ frames], and [<FILE_NAME>] is the name followed by
    [.mov]. *)
Theorem slate_info_of_the_version_name (o : Oracle) (shot : PySegment)
    (shotgrid : handle) (s s' : State) (slate_info : dict pystr pyval) :
  Masters.get_slate_info o shot shotgrid s = (Ok slate_info, s') ->
  slate_info.*1 = slate_tags /\
  (exists parts type version,
      seg_name shot = py_join (lit "_") (parts ++ [type; version]) /\
      (95%N ∉ type) /\ (95%N ∉ version) /\ (95%N ∈ seg_name shot) /\
      dict_get (lit "<TYPE>") slate_info = Ok (PyStr type) /\
      dict_get (lit "<VERSION>") slate_info = Ok (PyStr version)) /\
  dict_get (lit "<DURATION>") slate_info
    = Ok (PyStr (str_int (seg_source_duration shot) ++ lit " frames")) /\
  dict_get (lit "<HANDLES>") slate_info
    = Ok (PyStr (str_int (seg_head shot) ++ lit " frames")) /\
  dict_get (lit "<FILE_NAME>") slate_info
    = Ok (PyStr (seg_name shot ++ lit ".mov")).
Proof.
  intros Hrun. pattern slate_info.
  match goal with |- ?P slate_info =>
    enough (Hwp : wp (Masters.get_slate_info o shot shotgrid) s
                     (fun a _ => P a))
      by (unfold wp in Hwp; by rewrite Hrun in Hwp)
  end.
  clear Hrun. unfold Masters.get_slate_info. wp_walk.
  split; [vm_compute; reflexivity |].
  split; [| repeat split; vm_compute; reflexivity].
  match goal with
  | H2 : getitem _ (-2) = Ok ?t, H1 : getitem _ (-1) = Ok ?v |- _ =>
      destruct (getitem_last_two _ _ _ H2 H1) as [parts Hparts];
      exists parts, t, v
  end.
  pose proof (py_join_split 95%N (seg_name shot)) as Hjoin.
  pose proof (py_split_parts 95%N (seg_name shot)) as Hfree.
  rewrite Hparts in Hjoin, Hfree.
  apply Forall_app in Hfree as [_ Hfree].
  apply Forall_cons in Hfree as [Htype Hfree].
  apply Forall_cons in Hfree as [Hversion _].
  split; [exact (eq_sym Hjoin) |].
  split; [exact Htype |]. split; [exact Hversion |].
  split; [| split; vm_compute; reflexivity].
  rewrite <- Hjoin. apply py_join_has_sep.
Qed.

Lemma slate_info_of_the_version_name_witness :
  let shot :=
    {| seg_id := 41%nat; seg_type := lit "Video Segment";
       seg_name := lit "sh010_comp_v003"; seg_shot_name := lit "sh010";
       seg_head := 8; seg_source_duration := 48 |} in
  exists slate_info s',
    Masters.get_slate_info Demo.oracle shot 2%nat Demo.start
    = (Ok slate_info, s') /\
    slate_info.*1 = slate_tags /\
    (exists parts type version,
        seg_name shot = py_join (lit "_") (parts ++ [type; version]) /\
        (95%N ∉ type) /\ (95%N ∉ version) /\ (95%N ∈ seg_name shot) /\
        dict_get (lit "<TYPE>") slate_info = Ok (PyStr type) /\
        dict_get (lit "<VERSION>") slate_info = Ok (PyStr version)) /\
    dict_get (lit "<DURATION>") slate_info
      = Ok (PyStr (str_int (seg_source_duration shot) ++ lit " frames")) /\
    dict_get (lit "<HANDLES>") slate_info
      = Ok (PyStr (str_int (seg_head shot) ++ lit " frames")) /\
    dict_get (lit "<FILE_NAME>") slate_info
      = Ok (PyStr (seg_name shot ++ lit ".mov")).
Proof.
  intros shot.
  destruct (Masters.get_slate_info Demo.oracle shot 2%nat Demo.start)
    as [[slate_info|e] s'] eqn:Hrun.
  - exists slate_info, s'. split; [reflexivity |].
    exact (slate_info_of_the_version_name Demo.oracle shot 2%nat Demo.start
             s' slate_info Hrun).
  - exfalso. vm_compute in Hrun. discriminate Hrun.
Defined.

(** ** The order of a delivery *)

Definition no_upload (ev : Event) : Prop :=
  match ev_call ev with
  | CUpload _ _ _ _ _ => False
  | _ => True
  end.

(** Two facts about the events of a run that returns hold together. *)
Lemma okspec_and {A} (m : M A) (R1 R2 : A -> list Event -> Prop) :
  okspec m R1 -> okspec m R2 -> okspec m (fun a evs => R1 a evs /\ R2 a evs).
Proof.
  intros H1 H2 s. specialize (H1 s). specialize (H2 s). unfold wp in *.
  destruct (m s) as [[a|e] s']; [| done].
  destruct H1 as (evs1 & Ht1 & HR1), H2 as (evs2 & Ht2 & HR2).
  rewrite Ht1 in Ht2. apply app_inv_head in Ht2 as <-. by exists evs1.
Qed.

Lemma export_editorial_files_quiet o reel path :
  every (fun ev => not_a_create ev /\ no_upload ev)
        (Playlist.export_editorial_files o reel path).
Proof. unfold Playlist.export_editorial_files. every_walk; by split. Qed.

Lemma create_versions_no_upload o reel project path auth :
  every no_upload (Playlist.create_versions o reel project path auth).
Proof.
  unfold Playlist.create_versions.
  apply every_bind; [every_walk; exact I |]. intros shotgrid.
  apply every_bind_lift. intros clips _.
  apply every_for_fold. intros versions clip _.
  unfold Playlist.create_version. every_walk; exact I.
Qed.

Lemma create_playlist_no_upload o name versions project auth :
  every no_upload (Playlist.create_playlist o name versions project auth).
Proof. unfold Playlist.create_playlist. every_walk; exact I. Qed.

(** The three parts of a delivery that completed. *)
Definition delivery_in_order (evs : list Event) : Prop :=
  exists first uploads last mades playlist,
    evs = first ++ uploads ++ last /\
    Forall no_upload first /\
    creates first = version_created <$> mades /\
    Forall not_a_create uploads /\
    Forall no_upload last /\
    creates last = [playlist] /\ playlist.1.1 = lit "Playlist".

Lemma create_client_delivery_in_order o selection :
  okspec (Playlist.create_client_delivery o selection)
    (fun _ evs => linked evs -> delivery_in_order evs).
Proof.
  intros s. unfold Playlist.create_client_delivery. wp_walk.
  - trace_done. intros [engine Hlog]. not_in_log Hlog.
  - trace_done. intros [engine Hlog]. not_in_log Hlog.
  - eapply wp_okspec;
      [apply okspec_of_spec, export_editorial_files_quiet |].
    intros u1 s1 evs1 Ht1 Hevs1.
    apply Forall_and in Hevs1 as [Hc1 Hu1]. apply creates_none in Hc1.
    apply wp_bind.
    eapply wp_okspec;
      [apply okspec_and;
       [apply create_versions_okspec
       | apply okspec_of_spec, create_versions_no_upload] |].
    intros sg_versions s2 evs2 Ht2
      [(clips & mades & Hclips & Hc2 & Hmades & Hv) Hu2].
    apply wp_bind.
    eapply wp_okspec; [apply okspec_of_spec, send_h264s_no_create |].
    intros u3 s3 evs3 Ht3 Hevs3.
    apply wp_bind, wp_lift. intros name Hname.
    eapply wp_okspec;
      [apply okspec_and;
       [apply create_playlist_okspec
       | apply okspec_of_spec, create_playlist_no_upload] |].
    intros u4 s4 evs4 Ht4 [(project_id & links & r4 & Hpid & Hlinks & Hc4) Hu4].
    trace_done. intros _.
    eexists (_ :: _ :: _ :: _ :: evs1 ++ evs2), evs3, evs4, mades, _.
    split; [cbn [app]; by rewrite <- !app_assoc |].
    split; [repeat (constructor; [exact I |]); by apply Forall_app |].
    split.
    { change (?a :: ?b :: ?c :: ?d :: evs1 ++ evs2)
        with ([a; b; c; d] ++ evs1 ++ evs2).
      by rewrite !creates_app, Hc1, Hc2. }
    split; [exact Hevs3 |]. split; [exact Hu4 |].
    split; [exact Hc4 | reflexivity].
Qed.

(** A delivery that completes with the project linked has three parts, one
    after the other: every Version is created before the first upload, no
    entity is created between the uploads, and the Playlist, the one entity
    created after them, is created after the last upload. *)
Theorem versions_uploads_playlist_in_order (o : Oracle)
    (selection : list PyObject) (s s' : State) (evs : list Event) :
  Playlist.create_client_delivery o selection s = (Ok tt, s') ->
  st_trace s' = st_trace s ++ evs ->
  linked evs ->
  delivery_in_order evs.
Proof.
  intros Hrun Htrace Hlinked.
  destruct (okspec_run _ _ _ _ _ (create_client_delivery_in_order o selection)
              Hrun) as (evs' & Htrace' & Hdone).
  rewrite Htrace in Htrace'. apply app_inv_head in Htrace' as <-.
  by apply Hdone.
Qed.

Lemma versions_uploads_playlist_in_order_witness :
  let run := Playlist.create_client_delivery Demo.oracle [ObjReel Demo.reel]
               Demo.start in
  run = (Ok tt, run.2) /\ linked (st_trace run.2) /\
  delivery_in_order (st_trace run.2).
Proof.
  intros run.
  assert (Hreturns : run.1 = Ok tt) by (vm_compute; reflexivity).
  assert (Hrun : run = (Ok tt, run.2))
    by (rewrite <- Hreturns; apply surjective_pairing).
  assert (Htrace : st_trace run.2 = st_trace Demo.start ++ st_trace run.2)
    by (vm_compute; reflexivity).
  assert (Hlinked : linked (st_trace run.2)).
  { exists {| engine_project := Demo.project |}. in_log. }
  split; [exact Hrun |]. split; [exact Hlinked |].
  exact (versions_uploads_playlist_in_order Demo.oracle [ObjReel Demo.reel]
           Demo.start run.2 (st_trace run.2) Hrun Htrace Hlinked).
Defined.

(** ** What a delivery leaves alone *)

(** The calls of [create_playlist_for_review.py]: the browser, the console,
    the engine and the user, ShotGrid, an exporter and [time.sleep]. *)
Definition delivery_call (ev : Event) : Prop :=
  match ev_call ev with
  | CBrowserShow _ _ _ | CBrowserSelection | CShowInConsole _ _ _
  | CCurrentEngine | CGetAuthenticatedUser | CCreateSgConnection _
  | CResolveEntity _ | CFindOne _ _ _ _ | CCreate _ _ _
  | CUpload _ _ _ _ _ | CNewExporter | CExport _ _ _ _ | CSleep _ => True
  | CSetAttr _ name _ => name = "foreground"%string
  | _ => False
  end.

(** [create_client_delivery] changes nothing in the Flame project: whatever
    the selection and the answers of the host, and whether it returns or
    raises, it calls only the browser, the console, the engine, ShotGrid,
    its exporters ([foreground] is the one attribute it sets) and
    [time.sleep].  It creates, moves, imports and deletes nothing in the
    project and schedules nothing. *)
Theorem delivery_leaves_project_alone (o : Oracle)
    (selection : list PyObject) :
  every delivery_call (Playlist.create_client_delivery o selection).
Proof.
  unfold Playlist.create_client_delivery, Playlist.export_editorial_files,
    Playlist.create_versions, Playlist.send_h264s_to_shotgrid,
    Playlist.create_playlist.
  every_walk; try exact I; try reflexivity.
  - apply every_for_fold. intros versions clip _.
    unfold Playlist.create_version. every_walk; exact I.
  - apply every_for_each. intros version _.
    unfold Playlist.send_h264. every_walk; exact I.
Qed.

(** ** The disk outside the temporary folder *)

(** A string of the characters [str] can produce: no slash in it. *)
Definition slash_free (s : string) : Prop :=
  Forall (fun a => a <> "/"%char) (list_ascii_of_string s).

Lemma pretty_N_char_not_slash (x : N) : pretty_N_char x <> "/"%char.
Proof. unfold pretty_N_char. repeat case_match; discriminate. Qed.

Lemma pretty_N_go_slash_free (x : N) (s : string) :
  slash_free s -> slash_free (pretty_N_go x s).
Proof.
  revert s. induction (N.lt_wf_0 x) as [x _ IH]; intros s Hs.
  assert (x = 0 \/ 0 < x)%N as [-> | Hpos] by lia.
  - by rewrite pretty_N_go_0.
  - rewrite pretty_N_go_step by done. apply IH.
    + by apply N.div_lt.
    + constructor; [apply pretty_N_char_not_slash | exact Hs].
Qed.

Lemma pretty_N_slash_free (x : N) : slash_free (pretty x).
Proof.
  unfold pretty, pretty_N. case_decide.
  - repeat constructor. discriminate.
  - apply pretty_N_go_slash_free. constructor.
Qed.

Lemma str_int_no_slash (n : Z) : 47%N ∉ str_int n.
Proof.
  assert (H : slash_free (pretty n)).
  { destruct n as [|p|p]; unfold pretty, pretty_Z.
    - repeat constructor. discriminate.
    - apply (pretty_N_slash_free (Npos p)).
    - constructor; [discriminate | apply (pretty_N_slash_free (Npos p))]. }
  unfold str_int, lit. unfold slash_free in H.
  induction H as [|a l Ha _ IH]; cbn.
  - apply not_elem_of_nil.
  - apply not_elem_of_cons. split; [| exact IH].
    intros Heq. apply Ha.
    rewrite <- (ascii_N_embedding a), <- Heq. reflexivity.
Qed.

Lemma resolution_no_slash (width height : Z) :
  47%N ∉ str_int width ++ lit "x" ++ str_int height.
Proof.
  intros H. apply elem_of_app in H as [H | H];
    [by apply (str_int_no_slash width) |].
  apply elem_of_app in H as [H | H];
    [| by apply (str_int_no_slash height)].
  apply list_elem_of_singleton in H. discriminate H.
Qed.

Section Outside.
Context (o : Oracle) (s0 : State).

(** The files outside the temporary folder are those of [s0]. *)
Definition outside_as_before (s : State) : Prop :=
  forall q, Masters.under (Masters.TEMP_FOLDER o) q = false ->
            st_fs s !! q = st_fs s0 !! q.

Lemma outside_logged (s : State) (c : Call) (out : result Ret) :
  outside_as_before s -> outside_as_before (logged s c out).
Proof. done. Qed.

Lemma write_slate_ttg_outside (setup_lines : list pystr) (file_name : pystr)
    (s : State) :
  47%N ∉ file_name -> outside_as_before s ->
  wp (Masters.write_slate_ttg o setup_lines file_name) s
     (fun _ s' => outside_as_before s' /\ st_trace s' = st_trace s).
Proof.
  intros Hname Hs. unfold wp. rewrite write_slate_ttg_run.
  split; [| reflexivity]. intros q Hq. cbn [st_fs].
  destruct (ttg_path_under o file_name Hname) as (_ & Hunder & _).
  cbv zeta in Hunder.
  rewrite lookup_insert_ne by (intros Heq; by rewrite <- Heq, Hunder in Hq).
  destruct (Masters.path_exists _ _); [by apply Hs |].
  rewrite lookup_insert_ne; [by apply Hs |].
  intros Heq. by rewrite <- Heq, under_refl in Hq.
Qed.

Lemma generate_slate_outside (shot_sequence : PyClip)
    (slate_info : dict pystr pyval) (code resolution : pystr) (s : State) :
  dict_get (lit "<CODE>") slate_info = Ok (PyStr code) ->
  dict_get (lit "<RESOLUTION>") slate_info = Ok (PyStr resolution) ->
  47%N ∉ code -> 47%N ∉ resolution ->
  outside_as_before s ->
  wp (Masters.generate_slate o shot_sequence slate_info) s
     (fun _ s' => outside_as_before s').
Proof.
  intros Hcode Hres Hc Hr Hs. unfold Masters.generate_slate.
  rewrite Hcode, Hres. cbn [mbind result_bind rbind].
  unfold Masters.load_slate_setup. wp_walk.
  all: repeat match goal with H : Ok _ = Ok _ |- _ => injection H as <- end.
  all: eapply wp_conseq;
    [apply write_slate_ttg_outside;
     [| exact Hs]
    | intros path s1 [Hs1 _]; wp_walk; by apply outside_logged].
  all: cbn [Masters.format_val]; rewrite !elem_of_app;
    intros [? | [Hdash | ?]]; try done.
  all: apply list_elem_of_singleton in Hdash; discriminate Hdash.
Qed.

Lemma delete_temp_folder_outside (s : State) :
  outside_as_before s ->
  wp (Masters.delete_temp_folder o) s (fun _ s' => outside_as_before s').
Proof.
  intros Hs. unfold wp. rewrite delete_temp_folder_run.
  destruct (st_fs s !! Masters.TEMP_FOLDER o) as [[|content]|];
    [| done | done].
  intros q Hq. cbn [st_fs]. rewrite lookup_outside, Hq. by apply Hs.
Qed.

Lemma wp_for_fold_invariant {A S} (Inv : State -> Prop) (l : list A)
    (body : S -> A -> M S) :
  (forall acc x s, x ∈ l -> Inv s -> wp (body acc x) s (fun _ s' => Inv s')) ->
  forall acc s, Inv s -> wp (for_fold l body acc) s (fun _ s' => Inv s').
Proof.
  induction l as [|x l IH]; intros Hbody acc s Hs; cbn [for_fold].
  - by apply wp_ret.
  - apply wp_bind. eapply wp_conseq; [apply Hbody; [left | exact Hs] |].
    intros acc1 s1 Hs1. cbv beta. apply IH; [| exact Hs1].
    intros acc' y s' Hy. apply Hbody. by right.
Qed.

Lemma build_shot_master_outside engine shotgrid temp_reel offline_reel
    online_reel offline_bg vars shot (s : State) :
  47%N ∉ seg_shot_name shot -> outside_as_before s ->
  wp (Masters.build_shot_master o engine shotgrid temp_reel offline_reel
        online_reel offline_bg vars shot) s
     (fun _ s' => outside_as_before s').
Proof.
  intros Hshot Hs.
  unfold Masters.build_shot_master, Masters.get_slate_info,
    Masters.insert_slate_frame, Masters.extract_thumbnail,
    Masters.create_offline_sequence.
  wp_walk.
  all: match goal with
       | |- wp (Masters.generate_slate _ _
                  (dict_set _ _ (dict_set _ (PyStr ?r) _))) _ _ =>
           eapply wp_conseq;
           [apply (generate_slate_outside _ _ (seg_shot_name shot) r);
            [vm_compute; reflexivity | vm_compute; reflexivity | exact Hshot
            | | by repeat apply outside_logged] |]
       end.
  all: try apply resolution_no_slash.
  all: intros slate1 s1 Hs1; wp_walk.
  all: eapply wp_conseq;
    [apply (generate_slate_outside _ _ (seg_shot_name shot)
              (lit "1920x1080"));
     [vm_compute; reflexivity | vm_compute; reflexivity | exact Hshot | |
      exact Hs1] |].
  all: try (intros Hslash; vm_compute in Hslash;
            repeat (apply elem_of_cons in Hslash as [Hslash | Hslash];
                    [discriminate Hslash |]);
            by apply elem_of_nil in Hslash).
  all: intros slate2 s2 Hs2; wp_walk; exact Hs2.
Qed.

End Outside.

(** By its own file operations, a run of [build_shot_masters_from_sequence]
    that returns has changed no file outside the temporary folder, when no
    shot name of a video segment holds a slash: the setups are written
    below the temporary folder, under the shot name and the resolution, and
    the cleanup removes that folder only.  (What Flame writes in an export
    is the host's doing, and not among the files of the state.) *)
Theorem disk_outside_temp_folder_untouched (o : Oracle)
    (selection : list PyObject) (s s' : State) :
  Masters.build_shot_masters_from_sequence o selection s = (Ok tt, s') ->
  (forall sequence shots,
      getitem selection 0 = Ok sequence ->
      Masters.collect_sequence_segments sequence = Ok shots ->
      Forall (fun shot => 47%N ∉ seg_shot_name shot) shots) ->
  forall q, Masters.under (Masters.TEMP_FOLDER o) q = false ->
            st_fs s' !! q = st_fs s !! q.
Proof.
  intros Hrun Hshots.
  enough (Hwp : wp (Masters.build_shot_masters_from_sequence o selection) s
                   (fun _ s' => outside_as_before o s s'))
    by (unfold wp in Hwp; by rewrite Hrun in Hwp).
  clear Hrun. unfold Masters.build_shot_masters_from_sequence. wp_walk.
  { done. }
  eapply wp_conseq.
  { apply (wp_for_fold_invariant (outside_as_before o s)); [| done].
    intros vars shot s1 Hshot Hs1. apply build_shot_master_outside; [| done].
    match goal with
    | H1 : getitem selection 0 = Ok _, H2 : Masters.collect_sequence_segments _ = Ok _ |- _ =>
        pose proof (Hshots _ _ H1 H2) as Hall
    end.
    rewrite Forall_forall in Hall. by apply Hall. }
  intros vars s1 Hs1. wp_walk.
  eapply wp_conseq; [apply delete_temp_folder_outside; exact Hs1 |].
  intros u s2 Hs2.
  unfold Masters.get_sequences_folders, Masters.export_mezzanines.
  wp_walk; exact Hs2.
Qed.

Lemma disk_outside_temp_folder_untouched_witness :
  let selection := [ObjSequence Demo.sequence] in
  let run := Masters.build_shot_masters_from_sequence Demo.oracle selection
               Demo.start in
  run = (Ok tt, run.2) /\
  (forall sequence shots,
      getitem selection 0 = Ok sequence ->
      Masters.collect_sequence_segments sequence = Ok shots ->
      Forall (fun shot => 47%N ∉ seg_shot_name shot) shots) /\
  forall q, Masters.under (Masters.TEMP_FOLDER Demo.oracle) q = false ->
            st_fs run.2 !! q = st_fs Demo.start !! q.
Proof.
  intros selection run.
  assert (Hreturns : run.1 = Ok tt) by (vm_compute; reflexivity).
  assert (Hrun : run = (Ok tt, run.2))
    by (rewrite <- Hreturns; apply surjective_pairing).
  assert (Hshots : forall sequence shots,
             getitem selection 0 = Ok sequence ->
             Masters.collect_sequence_segments sequence = Ok shots ->
             Forall (fun shot => 47%N ∉ seg_shot_name shot) shots).
  { intros sequence shots [= <-] Hcollect. vm_compute in Hcollect.
    injection Hcollect as <-. repeat constructor.
    intros Hslash. vm_compute in Hslash.
    repeat (apply elem_of_cons in Hslash as [Hslash | Hslash];
            [discriminate Hslash |]).
    by apply elem_of_nil in Hslash. }
  split; [exact Hrun |]. split; [exact Hshots |].
  exact (disk_outside_temp_folder_untouched Demo.oracle selection Demo.start
           run.2 Hrun Hshots).
Defined.

(** ** Records ShotGrid does not have *)

(** The three queries of [create_versions] for a clip. *)
Definition find_shot (shotgrid : handle) (shot_name : pystr)
    (project_id : sgval) : Call :=
  CFindOne shotgrid (lit "Shot")
    [VList [VStr (lit "code"); VStr (lit "is"); VStr shot_name];
     VList [VStr (lit "project"); VStr (lit "is");
            Playlist.entity_link "Project" project_id]] None.

Definition find_task (shotgrid : handle) (project_id shot_id : sgval) : Call :=
  CFindOne shotgrid (lit "Task")
    [VList [VStr (lit "project"); VStr (lit "is");
            Playlist.entity_link "Project" project_id];
     VList [VStr (lit "entity"); VStr (lit "is");
            Playlist.entity_link "Shot" shot_id];
     VList [VStr (lit "content"); VStr (lit "is"); VStr (lit "Comp")]] None.

Definition find_version (shotgrid : handle) (name : pystr) : Call :=
  CFindOne shotgrid (lit "Version")
    [VList [VStr (lit "code"); VStr (lit "is"); VStr name]]
    (Some [lit "description"]).

(** [find_one] answers [None] where ShotGrid has no such record.  In
    [create_versions] a clip whose Shot is not found raises [TypeError]
    right after that query; a clip whose Comp task or whose source Version
    is not found raises it after the three queries.  In each case the
    Version of the clip is not created. *)
Theorem version_of_a_missing_record (o : Oracle) (shotgrid : handle)
    (reel : PyObject) (project : sgval) (path : pystr)
    (sg_authorization : handle) (versions : list sgval) (clip : PyClip)
    (s : State) (shot_name : pystr) (project_id : sgval) :
  Playlist.first_segment_shot_name clip = Ok shot_name ->
  sg_get project (lit "id") = Ok project_id ->
  let shot_query := find_shot shotgrid shot_name project_id in
  let run := Playlist.create_version o shotgrid reel project path
               sg_authorization versions clip s in
  (respond o (st_trace s) shot_query = Ok (RSg VNone) ->
   run = (Raise TypeError, logged s shot_query (Ok (RSg VNone)))) /\
  (forall shot shot_id task version task_id,
      let s1 := logged s shot_query (Ok (RSg shot)) in
      let task_query := find_task shotgrid project_id shot_id in
      let s2 := logged s1 task_query (Ok (RSg task)) in
      let version_query := find_version shotgrid (clip_name clip) in
      let s3 := logged s2 version_query (Ok (RSg version)) in
      respond o (st_trace s) shot_query = Ok (RSg shot) ->
      sg_get shot (lit "id") = Ok shot_id ->
      respond o (st_trace s1) task_query = Ok (RSg task) ->
      respond o (st_trace s2) version_query = Ok (RSg version) ->
      task = VNone \/
      (sg_get task (lit "id") = Ok task_id /\ version = VNone) ->
      run = (Raise TypeError, s3)).
Proof.
  intros Hname Hproject shot_query run. subst run. split.
  - intros Hshot. unfold Playlist.create_version.
    rewrite Hname, Hproject. run_unfold.
    fold (find_shot shotgrid shot_name project_id). fold shot_query.
    rewrite Hshot. reflexivity.
  - intros shot shot_id task version task_id s1 task_query s2 version_query
      s3 Hshot Hid Htask Hversion Hmissing.
    unfold Playlist.create_version.
    rewrite Hname, Hproject. run_unfold.
    fold (find_shot shotgrid shot_name project_id). fold shot_query.
    rewrite Hshot. cbn [st_trace st_fs]. rewrite Hid.
    fold (find_task shotgrid project_id shot_id). fold task_query.
    fold (event shot_query (Ok (RSg shot))).
    change (st_trace s ++ [event shot_query (Ok (RSg shot))])
      with (st_trace s1).
    rewrite Htask. cbn [st_trace st_fs].
    fold (find_version shotgrid (clip_name clip)). fold version_query.
    fold (event task_query (Ok (RSg task))).
    change (st_trace s1 ++ [event task_query (Ok (RSg task))])
      with (st_trace s2).
    rewrite Hversion. cbn [st_trace st_fs].
    destruct Hmissing as [-> | [Htask_id ->]].
    + reflexivity.
    + rewrite Htask_id. reflexivity.
Qed.

(** A host whose ShotGrid finds nothing, whatever is asked. *)
Definition nothing_found : Oracle :=
  host_answering (fun c => match c with
                           | CFindOne _ _ _ _ => Some (Ok (RSg VNone))
                           | _ => None
                           end).

Lemma version_of_a_missing_record_witness :
  let clip := Demo.clip 20%nat (lit "sh010_comp_v003") 1920 1080 in
  let shot_query := find_shot 2%nat (lit "sh010") (VInt 7) in
  Playlist.create_version nothing_found 2%nat (ObjReel Demo.reel)
    Demo.project (lit "/data/out") 1%nat [] clip Demo.start
  = (Raise TypeError, logged Demo.start shot_query (Ok (RSg VNone))).
Proof.
  intros clip shot_query.
  apply (proj1 (version_of_a_missing_record nothing_found 2%nat
                  (ObjReel Demo.reel) Demo.project (lit "/data/out") 1%nat
                  [] clip Demo.start (lit "sh010") (VInt 7)
                  eq_refl eq_refl)).
  reflexivity.
Defined.

(** The two queries of [get_slate_info]. *)
Definition find_shot_entry (shotgrid : handle) (shot_name : pystr) : Call :=
  CFindOne shotgrid (lit "Shot")
    [VList [VStr (lit "code"); VStr (lit "is"); VStr shot_name]]
    (Some [lit "description"]).

Definition find_version_entry (shotgrid : handle) (name : pystr) : Call :=
  CFindOne shotgrid (lit "Version")
    [VList [VStr (lit "code"); VStr (lit "is"); VStr name]]
    (Some [lit "user"; lit "description"]).

Lemma getitem_last_after {A} (l : list A) (x : A) :
  getitem l (-2) = Ok x -> exists y, getitem l (-1) = Ok y.
Proof.
  unfold getitem, len. cbn [Z.ltb Z.compare].
  destruct ((0 <=? Z.of_nat (length l) + -2)
            && (Z.of_nat (length l) + -2 <? Z.of_nat (length l))) eqn:Htwo;
    [| discriminate].
  apply andb_true_iff in Htwo as [Hlow _]. apply Z.leb_le in Hlow.
  intros _.
  replace ((0 <=? Z.of_nat (length l) + -1)
           && (Z.of_nat (length l) + -1 <? Z.of_nat (length l))) with true
    by (symmetry; apply andb_true_iff; rewrite Z.leb_le, Z.ltb_lt; lia).
  destruct (lookup_lt_is_Some_2 l (Z.to_nat (Z.of_nat (length l) + -1)))
    as [y Hy]; [lia |].
  exists y. by rewrite Hy.
Qed.

(** [get_slate_info] makes its two queries before it looks at an answer.
    When the Shot is not found it raises [TypeError] after both; when the
    Version is not found (and the name of the segment has its two parts) it
    raises [TypeError] only after it has asked for the date. *)
Theorem slate_info_of_a_missing_record (o : Oracle) (shot : PySegment)
    (shotgrid : handle) (s : State) (shot_entry version_entry : sgval) :
  let shot_query := find_shot_entry shotgrid (seg_shot_name shot) in
  let version_query := find_version_entry shotgrid (seg_name shot) in
  let s1 := logged s shot_query (Ok (RSg shot_entry)) in
  let s2 := logged s1 version_query (Ok (RSg version_entry)) in
  let date := CToday (lit "%-m/%-d/%Y") in
  respond o (st_trace s) shot_query = Ok (RSg shot_entry) ->
  respond o (st_trace s1) version_query = Ok (RSg version_entry) ->
  (shot_entry = VNone ->
   Masters.get_slate_info o shot shotgrid s = (Raise TypeError, s2)) /\
  (version_entry = VNone ->
   forall description type today,
     sg_get shot_entry (lit "description") ≫= sg_text = Ok description ->
     getitem (py_split 95%N (seg_name shot)) (-2) = Ok type ->
     respond o (st_trace s2) date = Ok (RStr today) ->
     Masters.get_slate_info o shot shotgrid s
     = (Raise TypeError, logged s2 date (Ok (RStr today)))).
Proof.
  intros shot_query version_query s1 s2 date Hshot Hversion.
  assert (Hstart : forall k : sgval -> sgval -> M (dict pystr pyval),
    (shot_entry ← call_sg o shot_query;
     version_entry ← call_sg o version_query;
     k shot_entry version_entry) s
    = k shot_entry version_entry s2).
  { intros k. run_unfold. rewrite Hshot. cbn [st_trace st_fs].
    fold (event shot_query (Ok (RSg shot_entry))).
    change (st_trace s ++ [event shot_query (Ok (RSg shot_entry))])
      with (st_trace s1).
    rewrite Hversion. reflexivity. }
  split.
  - intros ->. unfold Masters.get_slate_info. cbv zeta.
    fold (find_shot_entry shotgrid (seg_shot_name shot)).
    fold (find_version_entry shotgrid (seg_name shot)).
    fold shot_query version_query.
    rewrite Hstart. reflexivity.
  - intros -> description type today Hdescription Htype Htoday.
    unfold Masters.get_slate_info. cbv zeta.
    fold (find_shot_entry shotgrid (seg_shot_name shot)).
    fold (find_version_entry shotgrid (seg_name shot)).
    fold shot_query version_query.
    rewrite Hstart. rewrite Hdescription, Htype.
    destruct (getitem_last_after _ _ Htype) as [version Hlast].
    run_unfold. fold date. rewrite Hlast, Htoday. reflexivity.
Qed.

Lemma slate_info_of_a_missing_record_witness :
  let shot :=
    {| seg_id := 41%nat; seg_type := lit "Video Segment";
       seg_name := lit "sh010_comp_v003"; seg_shot_name := lit "sh010";
       seg_head := 8; seg_source_duration := 48 |} in
  (Masters.get_slate_info nothing_found shot 2%nat Demo.start).1
  = Raise TypeError.
Proof.
  intros shot.
  rewrite (proj1 (slate_info_of_a_missing_record nothing_found shot 2%nat
                    Demo.start VNone VNone eq_refl eq_refl) eq_refl).
  reflexivity.
Defined.

(** ** The slate of every master, event by event (C3) *)







(** The slate info of a master: the ten tags [get_slate_info] enters, then
    the three the loop adds. *)
Definition slate_info (shot : PySegment) (description : pyval)
    (type version today : pystr) (artist notes project : pyval)
    (resolution colour_space : pystr) : dict pystr pyval :=
  [(lit "<CODE>", PyStr (seg_shot_name shot));
   (lit "<DESCRIPTION>", description);
   (lit "<TYPE>", PyStr type);
   (lit "<VERSION>", PyStr version);
   (lit "<CURRENT_DATE>", PyStr today);
   (lit "<ARTIST>", artist);
   (lit "<DURATION>",
    PyStr (str_int (seg_source_duration shot) ++ lit " frames"));
   (lit "<HANDLES>", PyStr (str_int (seg_head shot) ++ lit " frames"));
   (lit "<FILE_NAME>", PyStr (seg_name shot ++ lit ".mov"));
   (lit "<NOTES>", notes);
   (lit "<PROJECT>", project);
   (lit "<RESOLUTION>", PyStr resolution);
   (lit "<COLOR_SPACE>", PyStr colour_space)].










